(** * nl2sql: schema graph, plan validator, SQL validator, retrieval index
      and the bounded validation loop.

    A shallow embedding of
      - app/loaders/graph_builder.py      (SchemaGraph)
      - app/validators/plan_validator.py  (PlanValidator)
      - app/validators/query_validator.py (QueryValidator)
      - app/loaders/schema_index.py       (SchemaIndex)
      - app/intelligent_sql_generator.py  (_generate_with_validation_loop,
                                           the selection of tables, SchemaCache)
      - app/user_context.py               (PermissionManager)

    Python [str] values are modelled as [string] restricted to ASCII;
    [str.lower], [str.upper] and the classes [\s], [\w] of [re] are the
    ASCII ones.  Calls into libraries are parameters of the sections that
    use them: the shortest-path search of networkx, the AST tier built on
    sqlglot, the TF-IDF tier built on scikit-learn, float arithmetic, the
    LLM and the database.  The iteration order of a Python [set] is a
    parameter as well where the result depends on it.  The statement
    splitter of sqlparse and the patterns of [re] are modelled directly.
    The file is organised as definitions first, then theorems. *)

From Stdlib Require Import List String Ascii Bool Arith ZArith QArith Lia.
From Stdlib Require Import Permutation Sorted DecimalString.
From stdpp Require Import base option gmap strings.
Import ListNotations.

Local Open Scope string_scope.
Local Open Scope list_scope.

(* ===================================================================== *)
(** ** Python string primitives                                           *)
(* ===================================================================== *)

Module Py.

Definition chars (s : string) : list ascii := list_ascii_of_string s.
Definition str (l : list ascii) : string := string_of_list_ascii l.

Definition code (c : ascii) : nat := nat_of_ascii c.

Definition between (lo hi : nat) (c : ascii) : bool :=
  (lo <=? code c)%nat && (code c <=? hi)%nat.

Definition is_upper (c : ascii) : bool := between 65 90 c.
Definition is_lower (c : ascii) : bool := between 97 122 c.
Definition is_digit (c : ascii) : bool := between 48 57 c.
Definition is_alpha (c : ascii) : bool := is_upper c || is_lower c.

(** [\w] on ASCII text: letters, digits and the underscore.  On a
    Python [str] the class also has the letters and digits outside
    ASCII. *)
Definition is_word (c : ascii) : bool :=
  is_alpha c || is_digit c || (code c =? 95)%nat.

(** [\s] and the default set of [str.strip]: space, \t \n \v \f \r and
    the four separators 0x1c..0x1f. *)
Definition is_space (c : ascii) : bool :=
  (code c =? 32)%nat || between 9 13 c || between 28 31 c.

Definition lower_char (c : ascii) : ascii :=
  if is_upper c then ascii_of_nat (code c + 32) else c.
Definition upper_char (c : ascii) : ascii :=
  if is_lower c then ascii_of_nat (code c - 32) else c.

(** [s.lower()] and [s.upper()] on ASCII text.  Python maps the letters
    outside ASCII as well, and not always one to one. *)
Definition lower (s : string) : string := str (map lower_char (chars s)).
Definition upper (s : string) : string := str (map upper_char (chars s)).

(** [s.isascii()]: the text on which these definitions are Python's. *)
Definition is_ascii (s : string) : bool :=
  forallb (fun c => (code c <? 128)%nat) (chars s).

Definition eqc (a b : ascii) : bool := Ascii.eqb a b.

Fixpoint starts_with (p s : list ascii) : bool :=
  match p, s with
  | [], _ => true
  | a :: p', b :: s' => eqc a b && starts_with p' s'
  | _ :: _, [] => false
  end.

(** [sub in s] on strings. *)
Fixpoint contains_chars (p s : list ascii) : bool :=
  starts_with p s ||
  match s with
  | [] => false
  | _ :: s' => contains_chars p s'
  end.

Definition contains (sub s : string) : bool :=
  contains_chars (chars sub) (chars s).

Definition startswith (s p : string) : bool :=
  starts_with (chars p) (chars s).

Fixpoint lstrip_by (f : ascii -> bool) (l : list ascii) : list ascii :=
  match l with
  | c :: l' => if f c then lstrip_by f l' else l
  | [] => []
  end.

Definition rstrip_by (f : ascii -> bool) (l : list ascii) : list ascii :=
  rev (lstrip_by f (rev l)).

Definition strip_by (f : ascii -> bool) (l : list ascii) : list ascii :=
  rstrip_by f (lstrip_by f l).

(** [s.strip()] *)
Definition strip (s : string) : string := str (strip_by is_space (chars s)).

(** [s.strip(cs)] and [s.rstrip(cs)] for a one-character set. *)
Definition strip_char (c : ascii) (s : string) : string :=
  str (strip_by (eqc c) (chars s)).
Definition rstrip_char (c : ascii) (s : string) : string :=
  str (rstrip_by (eqc c) (chars s)).

(** [s.split(c)[-1]]: the text after the last occurrence of [c]. *)
Fixpoint last_field (c : ascii) (acc l : list ascii) : list ascii :=
  match l with
  | [] => rev acc
  | x :: l' => if eqc x c then last_field c [] l' else last_field c (x :: acc) l'
  end.

Definition split_last (c : ascii) (s : string) : string :=
  str (last_field c [] (chars s)).

(** [sep.join(xs)] *)
Fixpoint join (sep : string) (xs : list string) : string :=
  match xs with
  | [] => ""
  | [x] => x
  | x :: xs' => x ++ sep ++ join sep xs'
  end.

(** [repr] of a list of strings as an f-string prints it.  The [repr] of
    a string is rendered with single quotes; the escapes Python applies
    to quotes, backslashes and control characters inside a name are not
    part of the model. *)
Definition repr_str (s : string) : string := "'" ++ s ++ "'".
Definition repr_list (xs : list string) : string :=
  "[" ++ join ", " (map repr_str xs) ++ "]".

Definition in_list (x : string) (l : list string) : bool :=
  existsb (String.eqb x) l.

(** [any(w in s for w in ws)] *)
Definition any_in (ws : list string) (s : string) : bool :=
  existsb (fun w => contains w s) ws.

(** A Python [set] of strings built by successive [add]: the elements in
    first-insertion order, without repetition. *)
Definition set_add (x : string) (l : list string) : list string :=
  if in_list x l then l else l ++ [x].

Definition set_of_list (l : list string) : list string :=
  fold_left (fun acc x => set_add x acc) l [].

(** [l[-1]], or nothing on the empty list (an [IndexError]). *)
Definition last_item (l : list string) : option string :=
  match rev l with
  | x :: _ => Some x
  | [] => None
  end.

End Py.

(* ===================================================================== *)
(** ** The fragment of Python's [re] used by the validators               *)
(* ===================================================================== *)

Module Re.

(** Patterns.  [Lit] is one literal character; [Cls] a character class;
    [Any] is [.] under DOTALL; [Star]/[Opt] are greedy, [Lazy] is [*?];
    [WordB] is [\b]; [Ahead] is a positive lookahead. *)
Inductive regex : Type :=
| Eps
| Lit (c : ascii)
| Cls (p : ascii -> bool)
| Any
| Seq (r1 r2 : regex)
| Alt (r1 r2 : regex)
| Star (r : regex)
| Lazy (r : regex)
| Opt (r : regex)
| WordB
| Ahead (r : regex).

Definition Plus (r : regex) : regex := Seq r (Star r).

Fixpoint lits (l : list ascii) : regex :=
  match l with
  | [] => Eps
  | c :: l' => Seq (Lit c) (lits l')
  end.

(** A literal piece of pattern text (no metacharacters in it). *)
Definition text (s : string) : regex := lits (Py.chars s).

Fixpoint seqs (rs : list regex) : regex :=
  match rs with
  | [] => Eps
  | r :: rs' => Seq r (seqs rs')
  end.

Fixpoint alts (rs : list regex) : regex :=
  match rs with
  | [] => Cls (fun _ => false)
  | [r] => r
  | r :: rs' => Alt r (alts rs')
  end.

Definition opt_word (o : option ascii) : bool :=
  match o with Some c => Py.is_word c | None => false end.

(** First alternative if it succeeds, the second one otherwise. *)
Local Abbreviation orelse a b := (match a with Some x => Some x | None => b end)
  (only parsing).

(** Backtracking matcher in continuation-passing style, exploring the
    alternatives in the priority order of Python's engine.  [ic] is the
    IGNORECASE flag, [prev] the character before the current position
    (for [\b]), [s] the rest of the subject, [k] what has to match after
    [r].  A starred body that consumes nothing ends the repetition. *)
Fixpoint rmatch (ic : bool) (r : regex) {struct r} :
  forall R : Type, option ascii -> list ascii ->
                   (option ascii -> list ascii -> option R) -> option R :=
  match r with
  | Eps => fun R prev s k => k prev s
  | Lit c => fun R prev s k =>
      match s with
      | x :: s' =>
          if (if ic then Py.eqc (Py.lower_char c) (Py.lower_char x) else Py.eqc c x)
          then k (Some x) s' else None
      | [] => None
      end
  | Cls p => fun R prev s k =>
      match s with
      | x :: s' => if p x then k (Some x) s' else None
      | [] => None
      end
  | Any => fun R prev s k =>
      match s with
      | x :: s' => k (Some x) s'
      | [] => None
      end
  | Seq r1 r2 => fun R prev s k =>
      rmatch ic r1 R prev s (fun p1 s1 => rmatch ic r2 R p1 s1 k)
  | Alt r1 r2 => fun R prev s k =>
      orelse (rmatch ic r1 R prev s k) (rmatch ic r2 R prev s k)
  | Star r1 => fun R prev s k =>
      (fix star (n : nat) (prev : option ascii) (s : list ascii) {struct n} : option R :=
         match n with
         | O => k prev s
         | S n' =>
             orelse
               (rmatch ic r1 R prev s
                  (fun p' s' =>
                     if (length s' <? length s)%nat then star n' p' s' else None))
               (k prev s)
         end) (S (length s)) prev s
  | Lazy r1 => fun R prev s k =>
      (fix lazy (n : nat) (prev : option ascii) (s : list ascii) {struct n} : option R :=
         match n with
         | O => k prev s
         | S n' =>
             orelse
               (k prev s)
               (rmatch ic r1 R prev s
                  (fun p' s' =>
                     if (length s' <? length s)%nat then lazy n' p' s' else None))
         end) (S (length s)) prev s
  | Opt r1 => fun R prev s k =>
      orelse (rmatch ic r1 R prev s k) (k prev s)
  | WordB => fun R prev s k =>
      if xorb (opt_word prev) (opt_word (hd_error s)) then k prev s else None
  | Ahead r1 => fun R prev s k =>
      match rmatch ic r1 unit prev s (fun _ _ => Some tt) with
      | Some _ => k prev s
      | None => None
      end
  end.

(** The character before the position reached after reading [l]. *)
Definition after (prev : option ascii) (l : list ascii) : option ascii :=
  fold_left (fun _ c => Some c) l prev.

Definition last_char (l : list ascii) : option ascii :=
  match rev l with c :: _ => Some c | [] => None end.

(** The match of [r] anchored at the current position: what is left of
    the subject after it. *)
Definition match_here (ic : bool) (r : regex) (prev : option ascii)
  (s : list ascii) : option (list ascii) :=
  rmatch ic r (list ascii) prev s (fun _ s' => Some s').

(** [re.search]: the leftmost match, as (start, end) offsets counted from
    [pos]. *)
Fixpoint search_from (ic : bool) (r : regex) (prev : option ascii)
  (s : list ascii) (pos : nat) : option (nat * nat) :=
  match match_here ic r prev s with
  | Some rest => Some (pos, pos + (length s - length rest))%nat
  | None =>
      match s with
      | [] => None
      | c :: s' => search_from ic r (Some c) s' (S pos)
      end
  end.

Definition search_span (ic : bool) (r : regex) (s : string) : option (nat * nat) :=
  search_from ic r None (Py.chars s) 0.

(** [bool(re.search(r, s))] *)
Definition search (ic : bool) (r : regex) (s : string) : bool :=
  match search_span ic r s with Some _ => true | None => false end.

(** [re.finditer] for a pattern [pre(grp)]: the texts of group 1 of the
    successive non-overlapping matches.  [fuel] bounds the number of
    scanning steps; the length of the subject plus one is enough. *)
Fixpoint finditer_group (fuel : nat) (ic : bool) (pre grp : regex)
  (prev : option ascii) (s : list ascii) : list string :=
  match fuel with
  | O => []
  | S fuel' =>
      match rmatch ic pre (list ascii * list ascii) prev s
              (fun p1 s1 => rmatch ic grp (list ascii * list ascii) p1 s1
                              (fun _ s2 => Some (s1, s2))) with
      | Some (s1, s2) =>
          let g := firstn (length s1 - length s2) s1 in
          Py.str g ::
            (if (length s2 <? length s)%nat
             then finditer_group fuel' ic pre grp
                    (last_char (firstn (length s - length s2) s)) s2
             else match s with
                  | [] => []
                  | c :: s' => finditer_group fuel' ic pre grp (Some c) s'
                  end)
      | None =>
          match s with
          | [] => []
          | c :: s' => finditer_group fuel' ic pre grp (Some c) s'
          end
      end
  end.

End Re.

(* ===================================================================== *)
(** ** Outcomes                                                           *)
(* ===================================================================== *)

(** A call either returns a value or raises a Python exception. *)
Inductive res (A : Type) : Type :=
| Ok (a : A)
| Raise (e : string).
Arguments Ok {A} a.
Arguments Raise {A} e.

Definition bind {A B} (m : res A) (f : A -> res B) : res B :=
  match m with
  | Ok a => f a
  | Raise e => Raise e
  end.

Notation "'let*' x ':=' m 'in' k" := (bind m (fun x => k))
  (at level 10, x name, m at level 100, k at level 200).

(** [for x in xs: st = body st x], stopping at the first exception. *)
Fixpoint for_each {A S} (xs : list A) (body : S -> A -> res S) (st : S) : res S :=
  match xs with
  | [] => Ok st
  | x :: xs' => let* st' := body st x in for_each xs' body st'
  end.

(* ===================================================================== *)
(** ** graph_builder.py: SchemaGraph                                      *)
(* ===================================================================== *)

Module Schema.

(** One entry of [relationships]: [{"from", "to", "on", "to_column"?}]. *)
Record Relationship : Type := mkRel {
  rel_from : string;
  rel_to : string;
  rel_on : string;
  rel_to_column : option string
}.

(** One value of the [tables] dict. *)
Record TableInfo : Type := mkTable {
  columns : list string;
  description : option string;
  scoped : bool;
  scoping_column : option string;
  examples : list string
}.

(** [SchemaGraph]: [tables] in the order of the dict, [relationships] in
    the order of the list, [keyword_mappings] of [graph_data]. *)
Record SchemaGraph : Type := mkGraph {
  tables : list (string * TableInfo);
  relationships : list Relationship;
  keyword_mappings : list (string * list string)
}.

Definition table_names (g : SchemaGraph) : list string := map fst (tables g).

(** [name in self.tables] *)
Definition has_table (g : SchemaGraph) (name : string) : bool :=
  Py.in_list name (table_names g).

(** [self.tables.get(name)] *)
Fixpoint lookup_table (ts : list (string * TableInfo)) (name : string) : option TableInfo :=
  match ts with
  | [] => None
  | (n, info) :: ts' => if String.eqb n name then Some info else lookup_table ts' name
  end.

Definition get_table_info (g : SchemaGraph) (name : string) : option TableInfo :=
  lookup_table (tables g) name.

(** [self.tables.get(name, {}).get('columns', [])] *)
Definition table_columns (g : SchemaGraph) (name : string) : list string :=
  match get_table_info g name with
  | Some info => columns info
  | None => []
  end.

(** [rel.get('to_column', 'id')] *)
Definition to_column_or_id (rel : Relationship) : string :=
  match rel_to_column rel with
  | Some c => c
  | None => "id"
  end.

(** [_build_nx_graph]: the nodes are the table names and the end points
    of the relationships; the edges are the (from, to) pairs. *)
Definition nx_nodes (g : SchemaGraph) : list string :=
  Py.set_of_list
    (table_names g ++ flat_map (fun r => [rel_from r; rel_to r]) (relationships g)).

Definition nx_successors (g : SchemaGraph) (a : string) : list string :=
  Py.set_of_list
    (map rel_to (List.filter (fun r => String.eqb (rel_from r) a) (relationships g))).

(** What [nx.shortest_path(G, a, b)] does: it returns a path, raises
    [NetworkXNoPath], or raises [NodeNotFound] when an end point is not
    a node of the graph. *)
Inductive path_result : Type :=
| Path (p : list string)
| NoPath
| NodeNotFound.

(** Breadth-first search for [nx.shortest_path] on the directed graph:
    [frontier] holds the reversed paths of the current depth. *)
Fixpoint bfs (g : SchemaGraph) (fuel : nat) (visited : list string)
  (frontier : list (list string)) (target : string) : option (list string) :=
  match fuel with
  | O => None
  | S fuel' =>
      match List.find (fun p => match p with
                                | x :: _ => String.eqb x target
                                | [] => false
                                end) frontier with
      | Some p => Some (rev p)
      | None =>
          let step (acc : list string * list (list string)) (p : list string) :=
            match p with
            | [] => acc
            | x :: _ =>
                fold_left
                  (fun (acc : list string * list (list string)) (y : string) =>
                     if Py.in_list y (fst acc) then acc
                     else (fst acc ++ [y], snd acc ++ [y :: p]))
                  (nx_successors g x) acc
            end in
          let '(visited', next) := fold_left step frontier (visited, []) in
          match next with
          | [] => None
          | _ => bfs g fuel' visited' next target
          end
      end
  end.

Definition bfs_shortest_path (g : SchemaGraph) (a b : string) : path_result :=
  if negb (Py.in_list a (nx_nodes g)) || negb (Py.in_list b (nx_nodes g))
  then NodeNotFound
  else match bfs g (S (length (nx_nodes g))) [a] [[a]] b with
       | Some p => Path p
       | None => NoPath
       end.

(** A join step emitted by [get_join_path]. *)
Record JoinStep : Type := mkStep {
  from_table : string;
  to_table : string;
  join_column : string;
  to_column : string
}.

Section JoinPath.

(** [nx.shortest_path] on [self.nx_graph], and the order in which a
    Python [set] with the given elements is iterated. *)
Variable shortest_path : string -> string -> path_result.
Variable set_iter : list string -> list string.
Variable g : SchemaGraph.

(** [find_path_between_tables]: [NetworkXNoPath] is caught and gives
    [None]; any other exception propagates. *)
Definition find_path_between_tables (t1 t2 : string) : res (option (list string)) :=
  match shortest_path t1 t2 with
  | Path p => Ok (Some p)
  | NoPath => Ok None
  | NodeNotFound => Raise "NodeNotFound"
  end.

(** The first relationship [from_table -> to_table] of the list. *)
Definition find_rel (a b : string) : option Relationship :=
  List.find (fun r => String.eqb (rel_from r) a && String.eqb (rel_to r) b)
            (relationships g).

(** [for i in range(len(best_path) - 1)]: one join per consecutive pair
    that has a relationship. *)
Fixpoint path_joins (p : list string) : list JoinStep :=
  match p with
  | a :: ((b :: _) as p') =>
      match find_rel a b with
      | Some rel => [mkStep a b (rel_on rel) (to_column_or_id rel)]
      | None => []
      end ++ path_joins p'
  | _ => []
  end.

(** The inner loop over [connected_tables]: the first strictly shortest
    non-empty path. *)
Definition best_path_step (table : string) (best : option (list string))
  (connected_table : string) : res (option (list string)) :=
  let* path := find_path_between_tables connected_table table in
  match path with
  | Some (x :: p') =>
      match best with
      | None => Ok (Some (x :: p'))
      | Some b => if (length (x :: p') <? length b)%nat
                  then Ok (Some (x :: p')) else Ok best
      end
  | _ => Ok best
  end.

Definition join_step (st : list JoinStep * list string) (table : string)
  : res (list JoinStep * list string) :=
  let '(joins, connected) := st in
  let* best := for_each (set_iter connected) (best_path_step table) None in
  match best with
  | Some p => Ok (joins ++ path_joins p, Py.set_add table connected)
  | None => Ok (joins, connected)
  end.

Definition get_join_path (ts : list string) : res (list JoinStep) :=
  match ts with
  | [] | [_] => Ok []
  | t0 :: rest =>
      let* st := for_each rest join_step ([], [t0]) in
      Ok (fst st)
  end.

(** A join step backed by a declared relationship. *)
Definition backed (j : JoinStep) : Prop :=
  exists rel, In rel (relationships g)
              /\ rel_from rel = from_table j
              /\ rel_to rel = to_table j
              /\ rel_on rel = join_column j
              /\ to_column_or_id rel = to_column j.

End JoinPath.

(** The built-in default graph of [_create_default_graph], for the
    scoping column [sc]. *)
Definition default_graph (sc : string) : SchemaGraph :=
  mkGraph
    [ ("shipments", mkTable ["id"; "status"; "created_at"; sc; "order_id"]
                      (Some "Shipment tracking information") false (Some sc) []);
      ("orders", mkTable ["id"; "customer_id"; "total"; sc; "created_at"]
                   (Some "Customer orders") false (Some sc) []);
      ("customers", mkTable ["id"; "name"; "phone"; sc; "email"]
                      (Some "Customer information") false (Some sc) []) ]
    [ mkRel "shipments" "orders" "order_id" None;
      mkRel "orders" "customers" "customer_id" None ]
    [].

End Schema.

(* ===================================================================== *)
(** ** plan_validator.py: PlanValidator                                   *)
(* ===================================================================== *)

Module PlanValidator.
Import Schema.

(** One entry of the plan's [joins]; a key the model left out is [None]. *)
Record Join : Type := mkJoin {
  j_from_table : option string;
  j_from_column : option string;
  j_to_table : option string;
  j_to_column : option string;
  j_type : option string
}.

(** The plan with its eight fields; [columns] is the dict
    table -> list of columns. *)
Record Plan : Type := mkPlan {
  p_tables : list string;
  p_columns : gmap string (list string);
  p_joins : list Join;
  p_filters : list string;
  p_group_by : list string;
  p_order_by : list string;
  p_limit : option Z;
  p_needs_scoping : bool
}.

(** The object [json.loads] returns: every required key is present
    ([Some]) or absent ([None]); [limit] may be present and null. *)
Record RawPlan : Type := mkRaw {
  r_tables : option (list string);
  r_columns : option (gmap string (list string));
  r_joins : option (list Join);
  r_filters : option (list string);
  r_group_by : option (list string);
  r_order_by : option (list string);
  r_limit : option (option Z);
  r_needs_scoping : option bool
}.

Inductive PlanResult : Type :=
| PlanValid (repaired_plan : Plan)
| PlanInvalid (error : string).

Definition required_fields : list string :=
  ["tables"; "columns"; "joins"; "filters"; "group_by"; "order_by"; "limit";
   "needs_scoping"].

Definition present {A} (o : option A) : bool :=
  match o with Some _ => true | None => false end.

(** [field in plan] *)
Definition has_field (raw : RawPlan) (field : string) : bool :=
  if String.eqb field "tables" then present (r_tables raw)
  else if String.eqb field "columns" then present (r_columns raw)
  else if String.eqb field "joins" then present (r_joins raw)
  else if String.eqb field "filters" then present (r_filters raw)
  else if String.eqb field "group_by" then present (r_group_by raw)
  else if String.eqb field "order_by" then present (r_order_by raw)
  else if String.eqb field "limit" then present (r_limit raw)
  else if String.eqb field "needs_scoping" then present (r_needs_scoping raw)
  else false.

(** [[field for field in required_fields if field not in plan]] *)
Definition missing_fields (raw : RawPlan) : list string :=
  List.filter (fun f => negb (has_field raw f)) required_fields.

(** The plan once all eight keys are known to be there. *)
Definition to_plan (raw : RawPlan) : option Plan :=
  match r_tables raw, r_columns raw, r_joins raw, r_filters raw,
        r_group_by raw, r_order_by raw, r_limit raw, r_needs_scoping raw with
  | Some t, Some c, Some j, Some f, Some gb, Some ob, Some l, Some ns =>
      Some (mkPlan t c j f gb ob l ns)
  | _, _, _, _, _, _, _, _ => None
  end.

Definition opt_eqb (a b : option string) : bool :=
  match a, b with
  | Some x, Some y => String.eqb x y
  | None, None => true
  | _, _ => false
  end.

Definition pair_in (a b : option string) (l : list (option string * option string)) : bool :=
  existsb (fun p => opt_eqb (fst p) a && opt_eqb (snd p) b) l.

(** Ordered removal of repetitions: [list(dict.fromkeys(l))]. *)
Definition dedup (l : list string) : list string := Py.set_of_list l.

Definition set_plan_tables (p : Plan) (ts : list string) : Plan :=
  mkPlan ts (p_columns p) (p_joins p) (p_filters p) (p_group_by p)
         (p_order_by p) (p_limit p) (p_needs_scoping p).
Definition set_plan_columns (p : Plan) (c : gmap string (list string)) : Plan :=
  mkPlan (p_tables p) c (p_joins p) (p_filters p) (p_group_by p)
         (p_order_by p) (p_limit p) (p_needs_scoping p).
Definition set_plan_joins (p : Plan) (j : list Join) : Plan :=
  mkPlan (p_tables p) (p_columns p) j (p_filters p) (p_group_by p)
         (p_order_by p) (p_limit p) (p_needs_scoping p).
Definition set_plan_scoping (p : Plan) (b : bool) : Plan :=
  mkPlan (p_tables p) (p_columns p) (p_joins p) (p_filters p) (p_group_by p)
         (p_order_by p) (p_limit p) b.

Section Validator.

Variable shortest_path : string -> string -> path_result.
Variable set_iter : list string -> list string.
Variable g : SchemaGraph.

(** *** _synthesize_join_bridges *)

(** The local state of the bridging loop: [joins], [current_pairs] and
    [connected]. *)
Record Bridge : Type := mkBridge {
  b_joins : list Join;
  b_pairs : list (option string * option string);
  b_connected : list string
}.

(** [for i in range(len(path) - 1)] *)
Fixpoint bridge_path (path : list string) (st : Bridge) : Bridge :=
  match path with
  | a :: ((b :: _) as path') =>
      bridge_path path'
        (if pair_in (Some a) (Some b) (b_pairs st)
         then mkBridge (b_joins st) (b_pairs st) (Py.set_add b (b_connected st))
         else match find_rel g a b with
              | None => st
              | Some rel =>
                  mkBridge
                    (b_joins st ++
                       [mkJoin (Some a) (Some (rel_on rel)) (Some b)
                               (Some (to_column_or_id rel)) (Some "INNER")])
                    (b_pairs st ++ [(Some a, Some b)])
                    (Py.set_add b (b_connected st))
              end)
  | _ => st
  end.

(** [for t in tables[1:]]; the boolean tells that an exception left the
    loop. *)
Fixpoint bridge_loop (ts : list string) (st : Bridge) : Bridge * bool :=
  match ts with
  | [] => (st, false)
  | t :: ts' =>
      if Py.in_list t (b_connected st) then bridge_loop ts' st
      else
        match Py.last_item (set_iter (b_connected st)) with
        | None => (st, true)
        | Some src =>
            match find_path_between_tables shortest_path src t with
            | Raise _ => (st, true)
            | Ok None | Ok (Some []) => bridge_loop ts' st
            | Ok (Some path) => bridge_loop ts' (bridge_path path st)
            end
        end
  end.

(** [[t for j in joins for k in ('from_table', 'to_table') if t and t not
    in tables]] *)
Definition implied_of (tables : list string) (o : option string) : list string :=
  match o with
  | Some t => if negb (String.eqb t "") && negb (Py.in_list t tables)
              then [t] else []
  | None => []
  end.

Definition implied_tables (tables : list string) (joins : list Join) : list string :=
  flat_map (fun j => implied_of tables (j_from_table j) ++
                     implied_of tables (j_to_table j)) joins.

(** The list [plan["joins"]] is extended in place when it is not empty,
    so the joins appended before an exception stay in the plan that the
    handler returns. *)
Definition _synthesize_join_bridges (plan : Plan) : Plan :=
  match p_tables plan with
  | [] | [_] => plan
  | t0 :: rest =>
      let joins := p_joins plan in
      let pairs := map (fun j => (j_from_table j, j_to_table j)) joins in
      let '(st, raised) := bridge_loop rest (mkBridge joins pairs [t0]) in
      if raised then
        match joins with
        | [] => plan
        | _ :: _ => set_plan_joins plan (b_joins st)
        end
      else
        let implied := implied_tables (p_tables plan) (b_joins st) in
        set_plan_joins
          (match implied with
           | [] => plan
           | _ :: _ => set_plan_tables plan (dedup (p_tables plan ++ implied))
           end)
          (b_joins st)
  end.

(** *** _validate_columns *)

Definition _validate_columns (columns_dict : gmap string (list string))
  (tables : list string) : gmap string (list string) :=
  fold_left
    (fun validated table =>
       match get_table_info g table with
       | None => validated
       | Some info =>
           let plan_columns := default [] (columns_dict !! table) in
           <[table := List.filter (fun col => Py.in_list col (columns info))
                                  plan_columns]> validated
       end)
    tables ∅.

(** *** _validate_joins *)

(** [relationships[(rel['from'], rel['to'])] = rel]: the last
    relationship of a pair wins. *)
Definition relationship_map (a b : string) : option Relationship :=
  List.find (fun r => String.eqb (rel_from r) a && String.eqb (rel_to r) b)
            (rev (relationships g)).

Definition opt_in (o : option string) (l : list string) : bool :=
  match o with Some x => Py.in_list x l | None => false end.

Definition _validate_joins (joins : list Join) (tables : list string) : list Join :=
  flat_map
    (fun join =>
       match j_from_table join, j_to_table join with
       | Some a, Some b =>
           if negb (Py.in_list a tables) || negb (Py.in_list b tables) then []
           else match relationship_map a b with
                | Some rel =>
                    [mkJoin (Some a) (Some (rel_on rel)) (Some b)
                            (Some (to_column_or_id rel))
                            (Some (default "INNER" (j_type join)))]
                | None => []
                end
       | _, _ => []
       end)
    joins.

(** *** _validate_scoping *)

Definition _validate_scoping (tables : list string) : bool :=
  existsb (fun t => match get_table_info g t with
                    | Some info => scoped info
                    | None => false
                    end) tables.

(** *** Intent repairs *)

Definition append_if_absent (c : string) (l : list string) : list string :=
  if Py.in_list c l then l else l ++ [c].

Definition _ensure_display_columns (plan : Plan) : Plan :=
  set_plan_columns plan
    (fold_left
       (fun (cols : gmap string (list string)) table =>
          let cur := default [] (cols !! table) in
          let columns := table_columns g table in
          let display_columns :=
            List.filter
              (fun col => Py.any_in ["name"; "title"; "entity_name"] (Py.lower col))
              columns in
          let cur1 :=
            if String.eqb table "users" && Py.in_list "first_name" columns
               && Py.in_list "last_name" columns
            then append_if_absent "last_name" (append_if_absent "first_name" cur)
            else cur in
          let cur2 :=
            match cur1, display_columns with
            | [], _ :: _ => firstn 2 display_columns
            | _, _ => cur1
            end in
          <[table := cur2]> cols)
       (p_tables plan) (p_columns plan)).

Definition _ensure_time_columns (plan : Plan) : Plan :=
  set_plan_columns plan
    (fold_left
       (fun (cols : gmap string (list string)) table =>
          let cur := default [] (cols !! table) in
          let columns := table_columns g table in
          let time_columns :=
            List.filter
              (fun col => Py.contains "date" (Py.lower col)
                          || Py.contains "created" (Py.lower col))
              columns in
          let cur1 :=
            if existsb (fun col => Py.in_list col cur) time_columns then cur
            else match time_columns with
                 | [] => cur
                 | c :: _ => cur ++ [c]
                 end in
          <[table := cur1]> cols)
       (p_tables plan) (p_columns plan)).

Definition is_count_intent (user_query : string) : bool :=
  Py.any_in ["how many"; "count"; "number of"; "total"] (Py.lower user_query).
Definition is_list_intent (user_query : string) : bool :=
  Py.any_in ["list"; "show"; "get"; "find"] (Py.lower user_query).
Definition is_time_intent (user_query : string) : bool :=
  Py.any_in ["today"; "yesterday"; "week"; "month"; "day"] (Py.lower user_query).

Definition _apply_intent_repairs (plan : Plan) (user_query : string) : Plan :=
  let plan1 :=
    if is_count_intent user_query then
      mkPlan (p_tables plan) ∅ (p_joins plan) (p_filters plan) []
             (p_order_by plan) None (p_needs_scoping plan)
    else if is_list_intent user_query then _ensure_display_columns plan
    else plan in
  if is_time_intent user_query && negb (is_count_intent user_query)
  then _ensure_time_columns plan1
  else plan1.

(** *** validate_plan *)

(** The table step: a plan with an unknown table keeps the known ones;
    [inl] carries the unknown tables when no table is left. *)
Definition repair_tables (plan : Plan) : list string + Plan :=
  let plan_tables := dedup (p_tables plan) in
  let invalid_tables := List.filter (fun t => negb (has_table g t)) plan_tables in
  match invalid_tables with
  | [] => inr plan
  | _ :: _ =>
      match set_iter (List.filter (has_table g) plan_tables) with
      | [] => inl (set_iter invalid_tables)
      | ts => inr (set_plan_tables plan ts)
      end
  end.

(** The steps after the table step. *)
Definition repair_rest (plan : Plan) (user_query : string) : Plan :=
  let plan := set_plan_columns plan
                (_validate_columns (p_columns plan) (p_tables plan)) in
  let plan := set_plan_joins plan
                (_validate_joins (p_joins plan) (p_tables plan)) in
  let plan := set_plan_scoping plan (_validate_scoping (p_tables plan)) in
  _apply_intent_repairs plan user_query.

(** [parsed] is the outcome of [json.loads] on the extracted text:
    [None] for a [JSONDecodeError]. *)
Definition validate_plan (parsed : option RawPlan) (user_query : string) : PlanResult :=
  match parsed with
  | None => PlanInvalid "Invalid JSON plan format"
  | Some raw =>
      match to_plan raw with
      | None =>
          PlanInvalid ("Missing required fields: " ++ Py.repr_list (missing_fields raw))
      | Some plan0 =>
          match repair_tables (_synthesize_join_bridges plan0) with
          | inl invalid =>
              PlanInvalid ("No valid tables found. Invalid tables: "
                           ++ Py.repr_list invalid)
          | inr plan => PlanValid (repair_rest plan user_query)
          end
      end
  end.

End Validator.

(** Every table of a columns map is a schema table and lists only
    columns that the schema declares for it. *)
Definition columns_ok (g : SchemaGraph) (cols : gmap string (list string)) : Prop :=
  forall t cs, cols !! t = Some cs ->
               has_table g t = true /\ forall c, In c cs -> In c (table_columns g t).

(** A plan for a count question that still lists columns, a group-by and
    a limit. *)
Definition count_plan : RawPlan :=
  mkRaw (Some ["shipments"])
        (Some (<["shipments" := ["id"; "status"]]> ∅))
        (Some []) (Some ["status = 'delivered'"]) (Some ["status"]) (Some [])
        (Some (Some 5%Z)) (Some false).

(** A plan for a browsing question with columns the schema does not
    have. *)
Definition browse_plan : RawPlan :=
  mkRaw (Some ["customers"; "shipments"])
        (Some (<["customers" := ["full_name"]]>
                 (<["shipments" := ["status"; "eta"]]> ∅)))
        (Some []) (Some []) (Some []) (Some []) (Some None) (Some false).

(** The built-in schema with a relationship to a table that the schema
    does not declare, and a plan over its two ends. *)
Definition dangling_graph : SchemaGraph :=
  mkGraph (tables (default_graph "accounts_entity_id"))
          (relationships (default_graph "accounts_entity_id")
           ++ [mkRel "customers" "regions" "region_id" None])
          [].

Definition bridged_plan : RawPlan :=
  mkRaw (Some ["shipments"; "customers"; "regions"]) (Some ∅) (Some [])
        (Some []) (Some []) (Some []) (Some None) (Some false).

(** A plan that names one unknown table twice and joins two tables of
    the schema. *)
Definition repeated_unknown_plan : RawPlan :=
  mkRaw (Some ["bogus"; "bogus"]) (Some ∅)
        (Some [mkJoin (Some "shipments") (Some "order_id") (Some "orders")
                      (Some "id") (Some "INNER")])
        (Some []) (Some []) (Some []) (Some None) (Some false).

(** The table-repair property in the words of the specification: for a
    plan that lists an unknown table, the repaired tables are the plan's
    own tables that the schema knows, and the plan is rejected when there
    is none. *)
Definition table_repair_as_specified
  (shortest_path : string -> string -> path_result)
  (set_iter : list string -> list string) (g : SchemaGraph) : Prop :=
  forall raw plan0 user_query,
    to_plan raw = Some plan0 ->
    (exists t, In t (p_tables plan0) /\ has_table g t = false) ->
    match validate_plan shortest_path set_iter g (Some raw) user_query with
    | PlanValid p =>
        (exists t, In t (p_tables plan0) /\ has_table g t = true)
        /\ forall t, In t (p_tables p)
                     <-> In t (p_tables plan0) /\ has_table g t = true
    | PlanInvalid _ =>
        forall t, In t (p_tables plan0) -> has_table g t = false
    end.

End PlanValidator.

(* ===================================================================== *)
(** ** query_validator.py: QueryValidator                                 *)
(* ===================================================================== *)

Module QueryValidator.
Import Schema.

(** [settings.security] as far as the validator reads it; the custom
    rules are the parsed [CUSTOM_VALIDATION_RULES]. *)
Record SecurityConfig : Type := mkConfig {
  SCOPING_COLUMN : string;
  ENABLE_AUTO_SCOPING : bool;
  max_tables : option nat;
  allowed_operations : option (list string)
}.

(** The defaults of [SecurityConfig]: rules [{}]. *)
Definition default_config : SecurityConfig :=
  mkConfig "accounts_entity_id" true None None.

(** What [permission_manager.get_scoping_requirements(user_context)]
    returns. *)
Record ScopingRequirements : Type := mkReq {
  scoping_required : bool;
  req_scoping_column : option string;
  accessible_entities : option (list string)
}.

(** The outcome of the optional AST tier [_ast_validate]: [None] when
    sqlglot is missing or fails, otherwise its verdict. *)
Inductive AstResult : Type :=
| AstNone
| AstValid
| AstInvalid (error : string).

Record SqlOk : Type := mkSqlOk {
  ok_tables : list string;
  ok_scoped_tables : list string;
  modified_sql : string;
  scoping_applied : bool;
  ast_used : bool
}.

Inductive SqlResult : Type :=
| SqlValid (r : SqlOk)
| SqlInvalid (error : string).

(** An intermediate verdict: [{"valid": True, "modified_sql"?,
    "scoping_applied"}] or [{"valid": False, "error"}]. *)
Inductive Check : Type :=
| Pass (modified : option string) (applied : bool)
| Fail (error : string).

(** *** sqlparse.parse *)

Definition is_inline_space (c : ascii) : bool :=
  Py.is_space c && negb (Py.code c =? 10)%nat && negb (Py.code c =? 13)%nat.

Definition is_quote (c : ascii) : bool :=
  (Py.code c =? 39)%nat || (Py.code c =? 34)%nat || (Py.code c =? 96)%nat.

(** The statement splitter of sqlparse on the first statement: the text
    up to and including the first semicolon that is outside quotes and
    parentheses, together with the blanks that follow it on the line.
    The result is (statement, rest).  Block keywords (CREATE, BEGIN,
    DECLARE ...) and comments, which also affect the split level, are
    outside this model. *)
Fixpoint split_statement (acc : list ascii) (level : Z) (quote : option ascii)
  (l : list ascii) : list ascii * list ascii :=
  match l with
  | [] => (rev acc, [])
  | c :: l' =>
      match quote with
      | Some q =>
          split_statement (c :: acc) level (if Py.eqc c q then None else quote) l'
      | None =>
          if is_quote c then split_statement (c :: acc) level (Some c) l'
          else if (Py.code c =? 40)%nat then split_statement (c :: acc) (level + 1)%Z None l'
          else if (Py.code c =? 41)%nat then split_statement (c :: acc) (level - 1)%Z None l'
          else if (Py.code c =? 59)%nat && (level <=? 0)%Z then
            let blanks := length l' - length (Py.lstrip_by is_inline_space l') in
            (rev acc ++ c :: firstn blanks l', skipn blanks l')
          else split_statement (c :: acc) level None l'
      end
  end.

(** [str(parse(sql)[0])], or [None] when [parse] returns no statement. *)
Definition first_statement (sql : string) : option string :=
  let '(st, rest) := split_statement [] 0%Z None (Py.chars sql) in
  match rest with
  | [] => if forallb Py.is_space st then None else Some (Py.str st)
  | _ :: _ => Some (Py.str st)
  end.

(** *** The patterns *)

Definition ws : Re.regex := Re.Cls Py.is_space.
Definition ws_star : Re.regex := Re.Star ws.
Definition ws_plus : Re.regex := Re.Plus ws.

(** [[`\w\.]+] *)
Definition table_ident : Re.regex :=
  Re.Plus (Re.Cls (fun c => Py.is_word c || (Py.code c =? 96)%nat
                            || (Py.code c =? 46)%nat)).

(** [\bKW\b] *)
Definition keyword (kw : string) : Re.regex :=
  Re.seqs [Re.WordB; Re.text kw; Re.WordB].

(** An optional single or double quote. *)
Definition opt_quote : Re.regex :=
  Re.Opt (Re.Cls (fun c => (Py.code c =? 39)%nat || (Py.code c =? 34)%nat)).

(** [re.sub(r'\s+', ' ', s)] *)
Fixpoint collapse_ws (l : list ascii) (in_ws : bool) : list ascii :=
  match l with
  | [] => []
  | c :: l' =>
      if Py.is_space c
      then (if in_ws then collapse_ws l' true else " "%char :: collapse_ws l' true)
      else c :: collapse_ws l' false
  end.

Definition normalize (s : string) : string :=
  Py.strip (Py.str (collapse_ws (Py.chars s) false)).

(** [re.finditer(pat, sql_norm, flags=re.IGNORECASE)] for [pat] made of
    a prefix and the group [([`\w\.]+)]. *)
Definition table_matches (pre : Re.regex) (sql_norm : string) : list string :=
  Re.finditer_group (S (String.length sql_norm)) true pre table_ident None
                    (Py.chars sql_norm).

Definition table_patterns : list Re.regex :=
  [ Re.seqs [Re.WordB; Re.text "FROM"; ws_plus];
    Re.seqs [Re.WordB; Re.text "JOIN"; ws_plus];
    Re.seqs [Re.WordB; Re.text "UPDATE"; ws_plus];
    Re.seqs [Re.WordB; Re.text "INTO"; ws_plus];
    Re.seqs [Re.WordB; Re.text "DELETE"; ws_plus; Re.text "FROM"; ws_plus] ].

(** [_extract_tables].  The set of tables is kept in insertion order;
    the order in which Python enumerates a set of several names is not
    fixed by the source. *)
Definition _extract_tables (statement : string) : list string :=
  let sql_norm := normalize statement in
  fold_left
    (fun tables pat =>
       fold_left
         (fun tables raw =>
            let name := Py.lower (Py.strip_char "`"%char (Py.split_last "."%char raw)) in
            if negb (String.eqb name "")
               && negb (Py.in_list name ["id"; "count"; "sum"; "avg"; "min"; "max"])
            then Py.set_add name tables else tables)
         (table_matches pat sql_norm) tables)
    table_patterns [].

Section Validator.

Variable config : SecurityConfig.
Variable g : SchemaGraph.

(** [settings.get_scoped_tables(schema_graph)] *)
Definition scoped_tables : list (string * string) :=
  flat_map
    (fun entry : string * TableInfo =>
       let '(name, info) := entry in
       if scoped info
       then [(name, default (SCOPING_COLUMN config) (scoping_column info))]
       else [])
    (tables g).

Definition present {A} (o : option A) : bool :=
  match o with Some _ => true | None => false end.

Fixpoint assoc (l : list (string * string)) (k : string) : option string :=
  match l with
  | [] => None
  | (k', v) :: l' => if String.eqb k' k then Some v else assoc l' k
  end.

(** [self.scoped_tables.get(table, scoping_column)] *)
Definition table_scoping_column (table : string) (scoping_column : option string)
  : string :=
  match assoc scoped_tables table with
  | Some c => c
  | None => default "None" scoping_column
  end.

(** How an f-string or a pattern renders [scoping_value]. *)
Definition fmt_value (scoping_value : option string) : string :=
  default "None" scoping_value.

Definition several (accessible : option (list string)) : option (list string) :=
  match accessible with
  | Some ((_ :: _ :: _) as es) => Some es
  | _ => None
  end.

(** *** _check_scoping_filter_exists_with_context *)

Definition scoping_patterns (col : string) (scoping_value : option string)
  (accessible : option (list string)) : list Re.regex :=
  [ Re.seqs [Re.text col; ws_star; Re.text "="; ws_star; opt_quote;
             Re.text (fmt_value scoping_value); opt_quote];
    Re.seqs [Re.text col; ws_star; Re.text "="; ws_star; Re.text "%s"];
    Re.seqs [Re.text col; ws_star; Re.text "="; ws_star; Re.text "?"] ]
  ++ match several accessible with
     | Some es =>
         [Re.seqs [Re.text col; ws_plus; Re.text "IN"; ws_star; Re.text "(";
                   ws_star; opt_quote; Re.text (Py.join "', '" es); opt_quote;
                   ws_star; Re.text ")"]]
     | None => []
     end.

Definition _check_scoping_filter_exists_with_context (statement : string)
  (scoped : list string) (scoping_value : option string)
  (scoping_column : option string) (accessible : option (list string)) : bool :=
  let sql_str := Py.lower statement in
  existsb
    (fun table =>
       existsb (fun pattern => Re.search false pattern sql_str)
               (scoping_patterns (table_scoping_column table scoping_column)
                                 scoping_value accessible))
    scoped.

(** *** _append_scoping_filter_with_context *)

Definition insert_at (pos : nat) (piece s : string) : string :=
  Py.str (firstn pos (Py.chars s)) +:+ piece +:+ Py.str (skipn pos (Py.chars s)).

(** [\bFROM\b.*?(?=\b(?:ORDER BY|GROUP BY|LIMIT|OFFSET)\b)] *)
Definition from_section : Re.regex :=
  Re.seqs [Re.WordB; Re.text "FROM"; Re.WordB; Re.Lazy Re.Any;
           Re.Ahead (Re.seqs [Re.WordB;
                              Re.alts [Re.text "ORDER BY"; Re.text "GROUP BY";
                                       Re.text "LIMIT"; Re.text "OFFSET"];
                              Re.WordB])].

Definition _append_scoping_filter_with_context (statement : string)
  (scoped : list string) (scoping_value : option string)
  (scoping_column : option string) (accessible : option (list string)) : string :=
  let sql_str := statement in
  let filter_conditions :=
    map (fun table =>
           let col := table_scoping_column table scoping_column in
           match several accessible with
           | Some es => col +:+ " IN ('" +:+ Py.join "', '" es +:+ "')"
           | None => col +:+ " = '" +:+ fmt_value scoping_value +:+ "'"
           end) scoped in
  let filter_clause := Py.join " AND " filter_conditions in
  match Re.search_span true (keyword "WHERE") sql_str with
  | Some (_, insert_pos) =>
      insert_at insert_pos (" AND (" +:+ filter_clause +:+ ")") sql_str
  | None =>
      match Re.search_span true from_section sql_str with
      | Some (_, insert_pos) =>
          insert_at insert_pos (" WHERE " +:+ filter_clause) sql_str
      | None =>
          Py.rstrip_char ";"%char sql_str +:+ " WHERE " +:+ filter_clause +:+ ";"
      end
  end.

(** *** _validate_scoping_filtering_with_context *)

Definition scoping_error (scoped : list string) : string :=
  "Scoped tables " +:+ Py.repr_list scoped +:+ " must include proper scoping filter".

Definition _validate_scoping_filtering_with_context (statement : string)
  (scoped : list string) (scoping_value : option string)
  (scoping_column : option string) (accessible : option (list string)) : Check :=
  match scoped with
  | [] => Pass None false
  | _ :: _ =>
      if _check_scoping_filter_exists_with_context
           statement scoped scoping_value scoping_column accessible
      then Pass None true
      else if negb (ENABLE_AUTO_SCOPING config) then Fail (scoping_error scoped)
      else
        let modified := _append_scoping_filter_with_context
                          statement scoped scoping_value scoping_column accessible in
        if String.eqb modified "" then Fail (scoping_error scoped)
        else Pass (Some modified) true
  end.

(** *** _perform_safety_checks *)

Definition dangerous_keywords : list string :=
  ["DROP"; "DELETE"; "TRUNCATE"; "ALTER"; "CREATE"; "INSERT"; "UPDATE"].

(** The first element of [l] that satisfies [f]. *)
Definition first_hit (f : string -> bool) (l : list string) : option string :=
  List.find f l.

Definition multi_statement_error : string :=
  "Multiple statements detected - potential SQL injection".

Definition _perform_safety_checks (statement : string) : Check :=
  let sql_str := Py.upper statement in
  match first_hit (fun kw => Re.search false (keyword kw) sql_str)
                  dangerous_keywords with
  | Some kw =>
      Fail ("Operation '" +:+ kw +:+ "' is not allowed for security reasons")
  | None =>
      if Re.search true (Re.seqs [Re.text ";"; ws_star; Re.Cls Py.is_alpha]) sql_str
      then Fail multi_statement_error
      else if Re.search true (Re.seqs [Re.text "--"; ws_star; Re.Cls Py.is_alpha])
                        sql_str
      then Fail "SQL comments detected - potential injection"
      else if Re.search true (Re.seqs [Re.text "/*"; Re.Lazy Re.Any; Re.text "*/"])
                        sql_str
      then Fail "Block comments detected - potential injection"
      else Pass None false
  end.

(** *** _perform_custom_validation *)

Definition show_nat (n : nat) : string := NilEmpty.string_of_uint (Nat.to_uint n).

Definition operations : list string :=
  ["SELECT"; "INSERT"; "UPDATE"; "DELETE"; "DROP"; "CREATE"; "ALTER"].

(** The message for a relationship whose target column is not [id]
    while the statement joins on [.id]; one message per pattern that is
    found. *)
Definition join_issues (sql_lower : string) (used_tables : list string)
  (rel : Relationship) : list string :=
  let from_table := rel_from rel in
  let to_table := rel_to rel in
  let on_column := rel_on rel in
  if String.eqb from_table "" || String.eqb to_table "" || String.eqb on_column ""
  then []
  else if negb (Py.in_list from_table used_tables)
          || negb (Py.in_list to_table used_tables)
  then []
  else
    let target_columns := map Py.lower (table_columns g to_table) in
    let expected_right :=
      match rel_to_column rel with
      | Some c => if String.eqb c ""
                  then (if Py.in_list (Py.lower on_column) target_columns
                        then Py.lower on_column else "id")
                  else Py.lower c
      | None => if Py.in_list (Py.lower on_column) target_columns
                then Py.lower on_column else "id"
      end in
    if String.eqb expected_right "id" then []
    else
      let wrong_patterns :=
        [ Re.seqs [Re.text from_table; Re.text "."; Re.text on_column; ws_star;
                   Re.text "="; ws_star; Re.text to_table; Re.text ".id"];
          Re.seqs [Re.text to_table; Re.text ".id"; ws_star; Re.text "=";
                   ws_star; Re.text from_table; Re.text "."; Re.text on_column] ] in
      flat_map
        (fun pat =>
           if Re.search false pat sql_lower
           then ["Incorrect join between " +:+ from_table +:+ " and " +:+ to_table
                 +:+ ". Use " +:+ from_table +:+ "." +:+ on_column +:+ " = "
                 +:+ to_table +:+ "." +:+ expected_right]
           else [])
        wrong_patterns.

Definition _perform_custom_validation (statement : string)
  (used_tables : list string) : Check :=
  let too_many :=
    match max_tables config with
    | Some m => negb (m =? 0)%nat && (m <? length used_tables)%nat
    | None => false
    end in
  if too_many
  then Fail ("Query uses too many tables. Maximum allowed: "
             +:+ show_nat (default 0%nat (max_tables config)) +:+ ", found: "
             +:+ show_nat (length used_tables))
  else
    let allowed := default ["SELECT"] (allowed_operations config) in
    let sql_str := Py.upper statement in
    match first_hit (fun op => Re.search false (keyword op) sql_str
                               && negb (Py.in_list op allowed)) operations with
    | Some op =>
        Fail ("Operation '" +:+ op +:+ "' is not allowed. Allowed operations: "
              +:+ Py.join ", " allowed)
    | None =>
        match flat_map (join_issues (Py.lower statement) used_tables)
                       (relationships g) with
        | [] => Pass None false
        | issues => Fail (Py.join "; " issues)
        end
    end.

(** *** validate_sql *)

(** The AST tier, a call into sqlglot. *)
Variable _ast_validate :
  string -> option string -> option ScopingRequirements -> AstResult.

(** [user_context] is given by the scoping requirements the permission
    manager derives from it; [None] is the legacy call without a user
    context. *)
Definition validate_sql (sql : string) (scoping_value : option string)
  (user_context : option ScopingRequirements) : SqlResult :=
  let ast_result := _ast_validate sql scoping_value user_context in
  match ast_result with
  | AstInvalid e => SqlInvalid e
  | _ =>
      match first_statement sql with
      | None => SqlInvalid "Invalid SQL syntax"
      | Some statement =>
          let used_tables := _extract_tables statement in
          let scoped :=
            List.filter (fun t => present (assoc scoped_tables t)) used_tables in
          let req :=
            match user_context with
            | Some r => r
            | None =>
                mkReq true (Some (SCOPING_COLUMN config))
                      (match scoping_value with
                       | Some v => if String.eqb v "" then None else Some [v]
                       | None => None
                       end)
            end in
          let validation_result :=
            match scoping_required req, scoped with
            | true, _ :: _ =>
                _validate_scoping_filtering_with_context
                  statement scoped scoping_value (req_scoping_column req)
                  (accessible_entities req)
            | _, _ => Pass None false
            end in
          match validation_result with
          | Fail e => SqlInvalid e
          | Pass modified applied =>
              match _perform_safety_checks statement with
              | Fail e => SqlInvalid e
              | Pass _ _ =>
                  match _perform_custom_validation statement used_tables with
                  | Fail e => SqlInvalid e
                  | Pass _ _ =>
                      SqlValid
                        (mkSqlOk used_tables scoped (default sql modified) applied
                                 (match ast_result with
                                  | AstNone => false
                                  | _ => true
                                  end))
                  end
              end
          end
      end
  end.

End Validator.

(** The built-in tables with [scoped: true] on the scoping column [sc]. *)
Definition scoped_graph (sc : string) : SchemaGraph :=
  mkGraph
    (map (fun entry : string * TableInfo =>
            (fst entry,
             mkTable (columns (snd entry)) (description (snd entry)) true
                     (scoping_column (snd entry)) (examples (snd entry))))
         (tables (default_graph sc)))
    (relationships (default_graph sc))
    (keyword_mappings (default_graph sc)).

(** A schema with a table named [updates]. *)
Definition updates_graph : SchemaGraph :=
  mkGraph [("updates", mkTable ["id"; "note"; "created_at"] None false None [])]
          [] [].

Definition count_sql : string := "SELECT COUNT(*) FROM shipments".
Definition count_sql_repaired : string :=
  "SELECT COUNT(*) FROM shipments WHERE accounts_entity_id = 'E100';".
Definition count_sql_repaired_twice : string :=
  "SELECT COUNT(*) FROM shipments WHERE AND (accounts_entity_id = 'E100') accounts_entity_id = 'E100';".
Definition two_statements : string :=
  "SELECT * FROM shipments; DROP TABLE shipments;".

End QueryValidator.

(* ===================================================================== *)
(** ** intelligent_sql_generator.py: _generate_with_validation_loop       *)
(* ===================================================================== *)

Module Generator.

(** A validation result: [{"valid": True, "modified_sql", "tables"}] or
    [{"valid": False, "error"}]. *)
Inductive Validation : Type :=
| VValid (modified_sql : string) (tables : list string)
| VInvalid (error : string).

(** The dict the loop returns. *)
Record LoopResult : Type := mkResult {
  success : bool;
  sql : string;
  tables_used : list string;
  attempts : nat;
  error : option string
}.

(** The loop returns a result, or the final [return] finds
    [validation_result] unbound. *)
Inductive Outcome : Type :=
| Returned (r : LoopResult)
| Crashed (e : string).

(** The local variables of the loop; [l_sql] and [l_validation_error]
    are [None] while [sql] and [validation_result] are unbound. *)
Record Locals : Type := mkLocals {
  attempt : nat;
  current_schema_context : string;
  current_tables : list string;
  l_sql : option string;
  l_validation_error : option string
}.

Inductive Step : Type :=
| Continue (st : Locals)
| Return (r : LoopResult).

(** What a call of [_refine_schema_context] does: it returns the refined
    context and tables, or it raises.  Before it raises it may have
    extended [current_tables], the list of the loop, in place
    ([current_tables.extend(...)]): [tables_left] is that list as the
    exception leaves it. *)
Inductive Refinement : Type :=
| Refined (schema_context : string) (tables : list string)
| RefineRaised (e : string) (tables_left : list string).

Definition show_nat (n : nat) : string := NilEmpty.string_of_uint (Nat.to_uint n).

Definition count_mismatch_error : string :=
  "LLM returned COUNT but details were requested. Regenerate with detailed projection.".

Section Loop.

Variable MAX_VALIDATION_ATTEMPTS : nat.

(** The collaborators of the loop.  The calls that reach the LLM, the
    validator and the database take the number of the iteration, since
    their answers may change from one call to the next. *)
Variable generate_sql : nat -> list string -> string -> res string.
Variable is_count : bool.
Variable _fix_count_query : string -> string.
Variable _validate_sql_with_schema_accuracy :
  nat -> string -> list string -> res Validation.
Variable _extract_tables_from_sql : string -> list string.
Variable ENABLE_DB_FEEDBACK_LOOP : bool.
(** [db_executor.execute_query("EXPLAIN ...")]: success, or an error
    message. *)
Variable explain : nat -> string -> res (option string).
Variable _refine_schema_context :
  nat -> string -> string -> list string -> Refinement.

Definition starts_with_count (s : string) : bool :=
  Py.startswith (Py.upper (Py.strip s)) "SELECT COUNT(".

(** [except Exception as e]: one more attempt is counted; the last one
    returns. *)
Definition on_exception (st : Locals) (e : string) : Step :=
  let attempt' := S (attempt st) in
  if (MAX_VALIDATION_ATTEMPTS <=? attempt')%nat
  then Return (mkResult false "" (current_tables st) attempt'
                        (Some ("SQL generation failed: " +:+ e)))
  else Continue (mkLocals attempt' (current_schema_context st) (current_tables st)
                          (l_sql st) (l_validation_error st)).

(** The refinement of the context after a failed validation. *)
Definition refine (iter : nat) (st : Locals) (err : string) : Step :=
  match _refine_schema_context iter (current_schema_context st) err
                               (current_tables st) with
  | Refined ctx tables =>
      Continue (mkLocals (attempt st) ctx tables (l_sql st) (l_validation_error st))
  | RefineRaised e tables_left =>
      on_exception (mkLocals (attempt st) (current_schema_context st) tables_left
                             (l_sql st) (l_validation_error st)) e
  end.

(** A failed validation of [s] with error [err]: [attempt += 1] and the
    refinement when attempts are left. *)
Definition rejected (iter : nat) (st : Locals) (s err : string) : Step :=
  let st' := mkLocals (S (attempt st)) (current_schema_context st)
                      (current_tables st) (Some s) (Some err) in
  if (S (attempt st) <? MAX_VALIDATION_ATTEMPTS)%nat
  then refine iter st' err
  else Continue st'.

Definition succeeded (st : Locals) (modified : string) (tables : list string) : Step :=
  Return (mkResult true modified tables (S (attempt st)) None).

(** The body of the [while] loop. *)
Definition step (iter : nat) (st : Locals) : Step :=
  match generate_sql iter (current_tables st) (current_schema_context st) with
  | Raise e => on_exception st e
  | Ok s0 =>
      if negb is_count && starts_with_count s0 then
        let st' := mkLocals (S (attempt st)) (current_schema_context st)
                            (current_tables st) (Some s0)
                            (Some count_mismatch_error) in
        if (S (attempt st) <? MAX_VALIDATION_ATTEMPTS)%nat
        then refine iter st' count_mismatch_error
        else Return (mkResult false s0 (current_tables st) (S (attempt st))
                              (Some count_mismatch_error))
      else
        let s := if is_count && negb (starts_with_count s0)
                 then _fix_count_query s0 else s0 in
        let st1 := mkLocals (attempt st) (current_schema_context st)
                            (current_tables st) (Some s) (l_validation_error st) in
        match _validate_sql_with_schema_accuracy iter s (current_tables st) with
        | Raise e => on_exception st1 e
        | Ok (VInvalid err) => rejected iter st s err
        | Ok (VValid modified tables) =>
            match List.filter (fun t => negb (Py.in_list t (current_tables st)))
                              (Py.set_of_list (_extract_tables_from_sql s)) with
            | _ :: _ as invalid_sql_tables =>
                rejected iter st s
                  ("SQL uses tables not in plan: " +:+ Py.repr_list invalid_sql_tables)
            | [] =>
                if ENABLE_DB_FEEDBACK_LOOP then
                  match explain iter ("EXPLAIN " +:+ Py.rstrip_char ";"%char modified) with
                  | Ok (Some db_error) =>
                      rejected iter st s ("Database error: " +:+ db_error)
                  | Ok None => succeeded st modified tables
                  | Raise _ => succeeded st modified tables
                  end
                else succeeded st modified tables
            end
        end
  end.

Definition exhausted_error (err : string) : string :=
  "Failed to generate valid SQL after " +:+ show_nat MAX_VALIDATION_ATTEMPTS
  +:+ " attempts. Last validation error: " +:+ err.

(** The [return] after the loop. *)
Definition final (st : Locals) : Outcome :=
  match l_validation_error st with
  | None => Crashed "UnboundLocalError"
  | Some err =>
      Returned (mkResult false (default "" (l_sql st)) (current_tables st)
                         (attempt st) (Some (exhausted_error err)))
  end.

(** [while attempt < MAX_VALIDATION_ATTEMPTS]; [iter] counts the
    iterations, [None] is a run that needs more than [fuel] of them. *)
Fixpoint run (fuel : nat) (iter : nat) (st : Locals) : option (Outcome * nat) :=
  if (MAX_VALIDATION_ATTEMPTS <=? attempt st)%nat then Some (final st, iter)
  else match fuel with
       | O => None
       | S fuel' =>
           match step iter st with
           | Continue st' => run fuel' (S iter) st'
           | Return r => Some (Returned r, S iter)
           end
       end.

Definition _generate_with_validation_loop (relevant_tables : list string)
  (schema_context : string) : option (Outcome * nat) :=
  run MAX_VALIDATION_ATTEMPTS 0
      (mkLocals 0 schema_context relevant_tables None None).

(** The statement that iteration [iter] submits to validation, and
    the error of its rejection. *)
Definition submitted (iter : nat) (st : Locals) (s err : string) : Prop :=
  exists s0,
    generate_sql iter (current_tables st) (current_schema_context st) = Ok s0
    /\ ((negb is_count && starts_with_count s0 = true
         /\ s = s0 /\ err = count_mismatch_error)
        \/ (negb is_count && starts_with_count s0 = false
            /\ s = (if is_count && negb (starts_with_count s0)
                    then _fix_count_query s0 else s0)
            /\ exists v, _validate_sql_with_schema_accuracy iter s (current_tables st)
                         = Ok v
                         /\ match v with
                            | VInvalid e => err = e
                            | VValid modified _ =>
                                (exists l, err = "SQL uses tables not in plan: "
                                                  +:+ Py.repr_list l)
                                \/ (exists db_error,
                                       explain iter ("EXPLAIN "
                                                     +:+ Py.rstrip_char ";"%char modified)
                                       = Ok (Some db_error)
                                       /\ err = "Database error: " +:+ db_error)
                            end)).

(** Some collaborator raised an exception. *)
Definition raised : Prop :=
  (exists iter tables ctx e, generate_sql iter tables ctx = Raise e)
  \/ (exists iter s tables e,
         _validate_sql_with_schema_accuracy iter s tables = Raise e)
  \/ (exists iter ctx err tables e tables_left,
         _refine_schema_context iter ctx err tables = RefineRaised e tables_left).

(** Some statement passed validation. *)
Definition accepted : Prop :=
  exists iter s tables modified used,
    _validate_sql_with_schema_accuracy iter s tables = Ok (VValid modified used).

(** What a result returned after [n] iterations looks like: a success
    after an accepted statement; a failure after an exception, without
    SQL; or a failure that keeps the statement submitted by the last
    iteration and the error of its rejection. *)
Definition well_formed_result (r : LoopResult) (n : nat) : Prop :=
  (attempts r <= MAX_VALIDATION_ATTEMPTS)%nat
  /\ (success r = true -> accepted)
  /\ (success r = false ->
      (sql r = "" /\ raised
       /\ exists e, error r = Some ("SQL generation failed: " +:+ e))
      \/ (attempts r = MAX_VALIDATION_ATTEMPTS
          /\ exists st s err,
              submitted (n - 1) st s err
              /\ sql r = s
              /\ (error r = Some err \/ error r = Some (exhausted_error err)))).

(** The loop invariant before iteration [iter]. *)
Definition loop_inv (iter : nat) (st : Locals) : Prop :=
  (iter <= attempt st)%nat
  /\ ((attempt st < MAX_VALIDATION_ATTEMPTS)%nat
      \/ (attempt st = MAX_VALIDATION_ATTEMPTS
          /\ exists stp s err,
              submitted (iter - 1) stp s err
              /\ l_sql st = Some s /\ l_validation_error st = Some err)).

(** What one step of the loop guarantees. *)
Definition step_ok (iter : nat) (st : Locals) (out : Step) : Prop :=
  match out with
  | Continue st' => (attempt st < attempt st')%nat /\ loop_inv (S iter) st'
  | Return r => well_formed_result r (S iter)
  end.

(** What iteration [iter] leaves when it does not return.  Without a
    refinement: one attempt more, the context and the tables as they
    were.  After the rejection of a statement with a refinement that
    returned: one attempt more, the context and the tables that
    [_refine_schema_context] returned for the error of the rejection.
    When that call raised: two attempts more, the context as it was and
    the tables as the exception left them. *)
Inductive failed_iteration (iter : nat) (st st' : Locals) : Prop :=
| iteration_kept :
    attempt st' = S (attempt st) ->
    current_schema_context st' = current_schema_context st ->
    current_tables st' = current_tables st ->
    failed_iteration iter st st'
| iteration_refined (s err : string) :
    submitted iter st s err ->
    _refine_schema_context iter (current_schema_context st) err (current_tables st)
    = Refined (current_schema_context st') (current_tables st') ->
    attempt st' = S (attempt st) ->
    failed_iteration iter st st'
| iteration_refine_raised (s err e : string) :
    submitted iter st s err ->
    _refine_schema_context iter (current_schema_context st) err (current_tables st)
    = RefineRaised e (current_tables st') ->
    attempt st' = S (S (attempt st)) ->
    current_schema_context st' = current_schema_context st ->
    failed_iteration iter st st'.

(** The local variables before iteration [iter] of a call with
    [relevant_tables] and [schema_context]: every iteration so far
    found attempts left and did not return. *)
Inductive before (relevant_tables : list string) (schema_context : string)
  : nat -> Locals -> Prop :=
| before_first :
    before relevant_tables schema_context 0
           (mkLocals 0 schema_context relevant_tables None None)
| before_next (iter : nat) (st st' : Locals) :
    before relevant_tables schema_context iter st ->
    (attempt st < MAX_VALIDATION_ATTEMPTS)%nat ->
    failed_iteration iter st st' ->
    before relevant_tables schema_context (S iter) st'.

(** Iteration [iter], entered with the locals [st], is the one that
    returns the success [r]: the statement it generated (rewritten for
    a count intent without [SELECT COUNT(]) was accepted with the SQL
    and the tables of [r], it names tables of the plan only, and [r]
    counts the attempts so far plus this one. *)
Definition accepts (iter : nat) (st : Locals) (r : LoopResult) : Prop :=
  exists s0,
    generate_sql iter (current_tables st) (current_schema_context st) = Ok s0
    /\ _validate_sql_with_schema_accuracy iter
         (if is_count && negb (starts_with_count s0) then _fix_count_query s0 else s0)
         (current_tables st)
       = Ok (VValid (sql r) (tables_used r))
    /\ (forall t,
          In t (_extract_tables_from_sql
                  (if is_count && negb (starts_with_count s0)
                   then _fix_count_query s0 else s0)) ->
          In t (current_tables st))
    /\ attempts r = S (attempt st)
    /\ error r = None.

(** The property as the specification states it: whatever the
    collaborators do, the loop returns within the bound, and a failure
    keeps the last attempted SQL and the last validation error. *)
Definition loop_as_specified : Prop :=
  forall relevant_tables schema_context,
  exists r n,
    _generate_with_validation_loop relevant_tables schema_context
    = Some (Returned r, n)
    /\ (n <= MAX_VALIDATION_ATTEMPTS)%nat
    /\ (attempts r <= MAX_VALIDATION_ATTEMPTS)%nat
    /\ (success r = false ->
        exists st s err,
          submitted (n - 1) st s err
          /\ sql r = s
          /\ (error r = Some err \/ error r = Some (exhausted_error err))).

End Loop.

(** Collaborators of a run in which every validation fails. *)
Definition failing_generate (iter : nat) (tables : list string) (ctx : string)
  : res string := Ok "SELECT name FROM shipments".
Definition failing_validate (iter : nat) (s : string) (tables : list string)
  : res Validation := Ok (VInvalid "Column 'name' not in table 'shipments'").
Definition keep_context (iter : nat) (ctx err : string) (tables : list string)
  : Refinement := Refined ctx tables.

(** A refinement that raises in the second iteration, before it has
    touched the tables. *)
Definition refine_raises_once (iter : nat) (ctx err : string) (tables : list string)
  : Refinement :=
  if (iter =? 1)%nat then RefineRaised "schema description failed" tables
  else Refined ctx tables.

(** A validator that rejects the first statement and accepts the
    second. *)
Definition second_validate (iter : nat) (s : string) (tables : list string)
  : res Validation :=
  if (iter =? 0)%nat then Ok (VInvalid "Column 'name' not in table 'shipments'")
  else Ok (VValid (s +:+ ";") tables).

End Generator.

(* ===================================================================== *)
(** ** schema_index.py: SchemaIndex                                       *)
(* ===================================================================== *)

Module SchemaIndex.
Import Schema.

(** [re.findall(r'\b\w+\b', text.lower())]: the maximal runs of word
    characters. *)
Fixpoint word_runs (cur : list ascii) (l : list ascii) : list string :=
  match l with
  | [] => match cur with [] => [] | _ => [Py.str (rev cur)] end
  | c :: l' =>
      if Py.is_word c then word_runs (c :: cur) l'
      else match cur with
           | [] => word_runs [] l'
           | _ => Py.str (rev cur) :: word_runs [] l'
           end
  end.

Definition _tokenize (text : string) : list string :=
  word_runs [] (Py.chars (Py.lower text)).

(** [doc.split()]: the maximal runs of characters that are not blank. *)
Fixpoint nonblank_runs (cur : list ascii) (l : list ascii) : list string :=
  match l with
  | [] => match cur with [] => [] | _ => [Py.str (rev cur)] end
  | c :: l' =>
      if negb (Py.is_space c) then nonblank_runs (c :: cur) l'
      else match cur with
           | [] => nonblank_runs [] l'
           | _ => Py.str (rev cur) :: nonblank_runs [] l'
           end
  end.

Definition split (doc : string) : list string := nonblank_runs [] (Py.chars doc).

(** [_build_index]: the document of one table. *)
Definition table_doc (g : SchemaGraph) (entry : string * TableInfo) : string :=
  let '(table_name, table_info) := entry in
  Py.join " "
    ([table_name; table_name; table_name]
     ++ match description table_info with
        | Some d => _tokenize d
        | None => []
        end
     ++ flat_map _tokenize (columns table_info)
     ++ flat_map _tokenize (examples table_info)
     ++ flat_map (fun km : string * list string =>
                    if Py.in_list table_name (snd km) then _tokenize (fst km) else [])
                 (keyword_mappings g)).

Definition table_docs (g : SchemaGraph) : list string := map (table_doc g) (tables g).

(** [Counter(doc_tokens)[term]] *)
Definition count_of (term : string) (doc_tokens : list string) : nat :=
  length (List.filter (String.eqb term) doc_tokens).

(** The degree of a node of the directed graph: the distinct edges that
    leave it plus the distinct edges that enter it. *)
Definition nx_predecessors (g : SchemaGraph) (a : string) : list string :=
  Py.set_of_list
    (map rel_from (List.filter (fun r => String.eqb (rel_to r) a) (relationships g))).

Definition nx_degree (g : SchemaGraph) (a : string) : nat :=
  length (nx_successors g a) + length (nx_predecessors g a).

Section Scores.

(** Python floats and their operations; [flt] reads a decimal literal
    or converts an integer. *)
Variable float : Type.
Variable flt : Q -> float.
Variables fadd fsub fmul fdiv : float -> float -> float.
Variable flog : float -> float.
(** [fle a b] is [a <= b]. *)
Variable fle : float -> float -> bool.

(** The TF-IDF tier, a call into scikit-learn: whether the vectorizer
    was fitted, and the cosine similarity of the query with document
    [i] ([None] for an exception or a value that is not finite). *)
Variable tfidf_fitted : bool.
Variable tfidf_cosine : string -> nat -> option float.

Variable g : SchemaGraph.

Definition of_nat (n : nat) : float := flt (inject_Z (Z.of_nat n)).
Definition zero : float := flt 0.

(** *** _compute_bm25_score *)

(** One term of the sum; the division of the document count by the
    document frequency raises [ZeroDivisionError] when no document has
    the term as a blank-separated word. *)
Definition bm25_term (doc_tokens : list string) (score : float) (term : string)
  : res float :=
  let k1 := flt (12 # 10) in
  let b := flt (75 # 100) in
  let avg_doc_length :=
    fdiv (of_nat (list_sum (map (fun doc => length (split doc)) (table_docs g))))
         (of_nat (length (table_docs g))) in
  let doc_length := length doc_tokens in
  match count_of term doc_tokens with
  | O => Ok score
  | S _ as tf =>
      match length (List.filter (fun doc => Py.in_list term (split doc))
                                (table_docs g)) with
      | O => Raise "ZeroDivisionError"
      | S _ as df =>
          let idf := flog (fdiv (of_nat (length (table_docs g))) (of_nat df)) in
          Ok (fadd score
                (fdiv (fmul idf (fmul (of_nat tf) (fadd k1 (flt 1))))
                      (fadd (of_nat tf)
                            (fmul k1
                               (fadd (fsub (flt 1) b)
                                     (fmul b (fdiv (of_nat doc_length)
                                                   avg_doc_length)))))))
      end
  end.

Definition _compute_bm25_score (query_tokens doc_tokens : list string) : res float :=
  match query_tokens, doc_tokens with
  | [], _ | _, [] => Ok zero
  | _, _ => for_each query_tokens (bm25_term doc_tokens) zero
  end.

(** *** _compute_centrality_score *)

(** [nx.degree_centrality]: 1 for every node of a graph with at most
    one node, the degree times [1.0 / (len(G) - 1.0)] otherwise. *)
Definition _compute_centrality_score (table_name : string) : float :=
  match nx_nodes g with
  | [] => zero
  | nodes =>
      if negb (Py.in_list table_name nodes) then zero
      else if (length nodes <=? 1)%nat then of_nat 1
      else fmul (of_nat (nx_degree g table_name))
                (fdiv (flt 1) (fsub (of_nat (length nodes)) (flt 1)))
  end.

(** *** _compute_tfidf_score *)

Definition _compute_tfidf_score (query : string) (doc_index : nat) : float :=
  if negb tfidf_fitted then zero
  else if String.eqb query "" then zero
  else default zero (tfidf_cosine query doc_index).

(** *** search_tables *)

(** [keyword_boost[table]] after the loops over the query tokens and
    the keyword mappings: 2.0 added once for every token, keyword and
    occurrence of the table in the list of the keyword such that one of
    token and keyword contains the other. *)
Definition keyword_boost (query_tokens : list string) (table_name : string)
  : option float :=
  fold_left
    (fun boost token =>
       fold_left
         (fun boost (km : string * list string) =>
            if Py.contains (fst km) token || Py.contains token (fst km)
            then fold_left
                   (fun boost table =>
                      if String.eqb table table_name
                      then Some (fadd (default zero boost) (flt 2))
                      else boost)
                   (snd km) boost
            else boost)
         (keyword_mappings g) boost)
    query_tokens None.

Definition combined_score (query : string) (i : nat) (table_name doc : string)
  : res float :=
  let query_tokens := _tokenize query in
  let* bm25_score := _compute_bm25_score query_tokens (_tokenize doc) in
  let centrality_score := _compute_centrality_score table_name in
  let tfidf_score := _compute_tfidf_score query i in
  let boost := default zero (keyword_boost query_tokens table_name) in
  Ok (fadd (fadd (fadd (fmul bm25_score (flt 1)) (fmul tfidf_score (flt (8 # 10))))
                 (fmul centrality_score (flt (3 # 10))))
           boost).

(** The entry of a scored table: its name with the weighted sum of the
    four terms. *)
Definition scored_as (query : string) (e : nat * (string * string))
  (entry : string * float) : Prop :=
  exists bm25_score,
    _compute_bm25_score (_tokenize query) (_tokenize (snd (snd e))) = Ok bm25_score
    /\ entry =
       (fst (snd e),
        fadd (fadd (fadd (fmul bm25_score (flt 1))
                         (fmul (_compute_tfidf_score query (fst e)) (flt (8 # 10))))
                   (fmul (_compute_centrality_score (fst (snd e))) (flt (3 # 10))))
             (default zero (keyword_boost (_tokenize query) (fst (snd e))))).

(** The index, name and document of every table, in the order of
    [self.table_names]. *)
Fixpoint enumerate {A} (i : nat) (l : list A) : list (nat * A) :=
  match l with
  | [] => []
  | x :: l' => (i, x) :: enumerate (S i) l'
  end.

Definition indexed_tables : list (nat * (string * string)) :=
  enumerate 0 (combine (table_names g) (table_docs g)).

(** The combined score of every table, in the order of enumeration. *)
Definition all_scores (query : string) : res (list (string * float)) :=
  for_each indexed_tables
    (fun acc (e : nat * (string * string)) =>
       let '(i, (table_name, doc)) := e in
       let* sc := combined_score query i table_name doc in
       Ok (acc ++ [(table_name, sc)]))
    [].

(** [scores.sort(key=lambda x: x[1], reverse=True)]: a stable sort by
    decreasing score. *)
Fixpoint insert_desc (x : string * float) (l : list (string * float))
  : list (string * float) :=
  match l with
  | [] => [x]
  | y :: l' => if fle (snd y) (snd x) then x :: y :: l'
               else y :: insert_desc x l'
  end.

Definition sort_desc (l : list (string * float)) : list (string * float) :=
  fold_right insert_desc [] l.

(** [top_k] counts entries. *)
Definition search_tables (query : string) (top_k : nat) (min_score : float)
  : res (list (string * float)) :=
  match _tokenize query with
  | [] => Ok []
  | _ :: _ =>
      let* scored := all_scores query in
      let scores := List.filter (fun e => fle min_score (snd e)) scored in
      Ok (firstn top_k (sort_desc scores))
  end.

(** Two scores that compare equal. *)
Definition tie (a b : float) : bool := fle a b && fle b a.

(** The ranking in the words of the specification: the tables at or
    above the threshold, by decreasing score, ties in the order of
    enumeration, cut at [top_k]. *)
Definition ranked (scored : list (string * float)) (top_k : nat)
  (min_score : float) (result : list (string * float)) : Prop :=
  exists sorted,
    Permutation sorted (List.filter (fun e => fle min_score (snd e)) scored)
    /\ StronglySorted (fun a b => fle (snd b) (snd a) = true) sorted
    /\ (forall s, List.filter (fun e => tie s (snd e)) sorted
                  = List.filter (fun e => tie s (snd e))
                      (List.filter (fun e => fle min_score (snd e)) scored))
    /\ result = firstn top_k sorted.

End Scores.

(** The property as the specification states it: every search returns the ranking of
    the scored tables. *)
Definition search_as_specified (float : Type) (flt : Q -> float)
  (fadd fsub fmul fdiv : float -> float -> float) (flog : float -> float)
  (fle : float -> float -> bool) (tfidf_fitted : bool)
  (tfidf_cosine : string -> nat -> option float) (g : SchemaGraph) : Prop :=
  forall query top_k min_score result,
    search_tables float flt fadd fsub fmul fdiv flog fle tfidf_fitted tfidf_cosine g
                  query top_k min_score = Ok result ->
    exists scored,
      all_scores float flt fadd fsub fmul fdiv flog tfidf_fitted tfidf_cosine g query
      = Ok scored
      /\ ranked float fle scored top_k min_score result.

(** Exact rational arithmetic in the place of floats, for the examples;
    [Qlog] stands in for [math.log]. *)
Definition Qlog (x : Q) : Q := Qred (x - 1).
Definition Qadd' (a b : Q) : Q := Qred (a + b).
Definition Qsub' (a b : Q) : Q := Qred (a - b).
Definition Qmul' (a b : Q) : Q := Qred (a * b).
Definition Qdiv' (a b : Q) : Q := Qred (a / b).

Definition search_tables_Q (g : SchemaGraph) (query : string) (top_k : nat)
  (min_score : Q) : res (list (string * Q)) :=
  search_tables Q Qred Qadd' Qsub' Qmul' Qdiv' Qlog Qle_bool false (fun _ _ => None) g
                query top_k min_score.

Definition all_scores_Q (g : SchemaGraph) (query : string) : res (list (string * Q)) :=
  all_scores Q Qred Qadd' Qsub' Qmul' Qdiv' Qlog false (fun _ _ => None) g query.

(** A schema whose table name has a capital letter. *)
Definition capital_graph : SchemaGraph :=
  mkGraph [("Shipments", mkTable ["id"; "status"] None false None [])] [] [].

End SchemaIndex.

(* ===================================================================== *)
(** ** graph_builder.py: the other queries of SchemaGraph                 *)
(* ===================================================================== *)

Module SchemaQueries.
Import Schema.

(** [nx_graph.predecessors(a)] *)
Definition predecessors (g : SchemaGraph) (a : string) : list string :=
  Py.set_of_list
    (map rel_from (List.filter (fun r => String.eqb (rel_to r) a) (relationships g))).

(** [get_related_tables]; [set_iter] is the order in which [list(set(..))]
    enumerates the set. *)
Definition get_related_tables (set_iter : list string -> list string)
  (g : SchemaGraph) (table_name : string) : list string :=
  if negb (Py.in_list table_name (nx_nodes g)) then []
  else set_iter (Py.set_of_list (predecessors g table_name ++ nx_successors g table_name)).

(** [get_tables_for_query] *)
Definition get_tables_for_query (g : SchemaGraph) (query_keywords : list string)
  : list string :=
  fold_left
    (fun relevant_tables keyword =>
       let keyword_lower := Py.lower keyword in
       fold_left
         (fun relevant_tables (km : string * list string) =>
            if Py.contains (fst km) keyword_lower
            then fold_left
                   (fun relevant_tables table =>
                      if negb (Py.in_list table relevant_tables) && has_table g table
                      then relevant_tables ++ [table]
                      else relevant_tables)
                   (snd km) relevant_tables
            else relevant_tables)
         (keyword_mappings g) relevant_tables)
    query_keywords [].

(** One value of [graph_data['code_mappings']]: the code -> label dict
    under ['values'], in the order of the dict. *)
Record CodeMapping : Type := mkCodeMapping {
  cm_description : option string;
  cm_values : list (string * string)
}.

(** [get_code_mapping]; [code_mappings] is [None] when [graph_data] has
    no such key. *)
Definition get_code_mapping (code_mappings : option (list (string * CodeMapping)))
  (field_path : string) : option CodeMapping :=
  match code_mappings with
  | None => None
  | Some ms =>
      match List.find (fun e => String.eqb (fst e) field_path) ms with
      | Some e => Some (snd e)
      | None => None
      end
  end.

(** [get_code_value]: the code of the first label that equals [label]
    up to case. *)
Definition get_code_value (code_mappings : option (list (string * CodeMapping)))
  (field_path label : string) : option string :=
  match get_code_mapping code_mappings field_path with
  | None => None
  | Some mapping =>
      match List.find (fun e => String.eqb (Py.lower (snd e)) (Py.lower label))
                      (cm_values mapping) with
      | Some e => Some (fst e)
      | None => None
      end
  end.

(** Every label of the code mappings is ASCII text. *)
Definition ascii_labels (code_mappings : option (list (string * CodeMapping)))
  : bool :=
  match code_mappings with
  | None => true
  | Some ms =>
      forallb (fun e : string * CodeMapping =>
                 forallb (fun v : string * string => Py.is_ascii (snd v))
                         (cm_values (snd e)))
              ms
  end.

(** The status codes of the tracking example. *)
Definition tracking_codes : option (list (string * CodeMapping)) :=
  Some [("shipments.tracking_status",
         mkCodeMapping (Some "Tracking status")
                       [("1900", "Delivered"); ("1200", "In Transit")])].

End SchemaQueries.

(* ===================================================================== *)
(** ** plan_validator.py: example plans                                   *)
(* ===================================================================== *)

Module PlanExamples.
Import Schema PlanValidator.

(** A plan whose join carries columns that the schema does not use for
    this pair of tables. *)
Definition wrong_join_plan : RawPlan :=
  mkRaw (Some ["shipments"; "orders"]) (Some ∅)
        (Some [mkJoin (Some "shipments") (Some "id") (Some "orders")
                      (Some "shipment_id") (Some "LEFT")])
        (Some []) (Some []) (Some []) (Some None) (Some false).

(** A plan without columns over two tables. *)
Definition bare_plan : RawPlan :=
  mkRaw (Some ["customers"; "shipments"]) (Some ∅) (Some [])
        (Some []) (Some []) (Some []) (Some None) (Some false).

(** A plan without any table that claims to need scoping. *)
Definition empty_plan : RawPlan :=
  mkRaw (Some []) (Some (<["shipments" := ["id"]]> ∅))
        (Some [mkJoin (Some "shipments") (Some "order_id") (Some "orders")
                      (Some "id") None])
        (Some []) (Some []) (Some []) (Some (Some 10%Z)) (Some true).

(** A column that [_ensure_time_columns] counts as a time column. *)
Definition is_time_column (col : string) : bool :=
  Py.contains "date" (Py.lower col) || Py.contains "created" (Py.lower col).

(** A column that [_ensure_display_columns] counts as a display column. *)
Definition is_display_column (col : string) : bool :=
  Py.any_in ["name"; "title"; "entity_name"] (Py.lower col).

(** The schema table [t] has a time column; a display column. *)
Definition schema_has_time_column (g : SchemaGraph) (t : string) : Prop :=
  exists c, In c (table_columns g t) /\ is_time_column c = true.
Definition schema_has_display_column (g : SchemaGraph) (t : string) : Prop :=
  exists c, In c (table_columns g t) /\ is_display_column c = true.

(** The columns map lists a time column of the schema table under [t]. *)
Definition has_time_column (g : SchemaGraph) (cols : gmap string (list string))
  (t : string) : Prop :=
  exists cs c, cols !! t = Some cs /\ In c cs
               /\ In c (table_columns g t) /\ is_time_column c = true.

(** The columns map lists at least one column under [t]. *)
Definition has_columns (cols : gmap string (list string)) (t : string) : Prop :=
  exists cs, cols !! t = Some cs /\ cs <> [].

End PlanExamples.

(* ===================================================================== *)
(** ** query_validator.py: sanitize_sql and the vocabulary of the facts   *)
(* ===================================================================== *)

Module QueryText.
Import QueryValidator.

(** [kw] occurs in [s] as a whole word: between two positions at which
    [\b] matches. *)
Definition whole_word (kw s : string) : Prop :=
  exists pre post,
    Py.chars s = pre ++ Py.chars kw ++ post
    /\ xorb (Re.opt_word (Re.after None pre))
            (Re.opt_word (hd_error (Py.chars kw ++ post))) = true
    /\ xorb (Re.opt_word (Re.after (Re.after None pre) (Py.chars kw)))
            (Re.opt_word (hd_error post)) = true.

(** The value has an upper-case letter. *)
Definition has_upper (v : string) : bool := existsb Py.is_upper (Py.chars v).

(** [re.sub(r, '', s)] for a pattern that matches no empty text: the
    leftmost matches are removed one after the other.  [fuel] bounds the
    scanning steps; the length of the subject is enough. *)
Fixpoint remove_all (fuel : nat) (ic : bool) (r : Re.regex) (prev : option ascii)
  (s : list ascii) : list ascii :=
  match fuel with
  | O => s
  | S fuel' =>
      match s with
      | [] => []
      | c :: s' =>
          match Re.match_here ic r prev s with
          | Some rest =>
              if (length rest <? length s)%nat
              then remove_all fuel' ic r
                     (Re.last_char (firstn (length s - length rest) s)) rest
              else c :: remove_all fuel' ic r (Some c) s'
          | None => c :: remove_all fuel' ic r (Some c) s'
          end
      end
  end.

Definition not_newline (c : ascii) : bool := negb (Py.code c =? 10)%nat.

(** [--.*$] under MULTILINE: the dot stops at the end of the line, where
    [$] holds. *)
Definition line_comment : Re.regex :=
  Re.Seq (Re.text "--") (Re.Star (Re.Cls not_newline)).

(** [/\*.*?\*/] under DOTALL. *)
Definition block_comment : Re.regex :=
  Re.seqs [Re.text "/*"; Re.Lazy Re.Any; Re.text "*/"].

(** [s.split(';')[0]] *)
Fixpoint before_semicolon (l : list ascii) : list ascii :=
  match l with
  | [] => []
  | c :: l' => if (Py.code c =? 59)%nat then [] else c :: before_semicolon l'
  end.

(** [sanitize_sql] *)
Definition sanitize_sql (sql : string) : string :=
  let l := Py.chars sql in
  let l := remove_all (length l) false line_comment None l in
  let l := remove_all (length l) false block_comment None l in
  let l := before_semicolon l ++ [";"%char] in
  Py.str (Py.strip_by Py.is_space l).

(** The text is made of word characters only: interpolated into a
    pattern it is read literally. *)
Definition plain (s : string) : bool := forallb Py.is_word (Py.chars s).

(** The names that [_check_scoping_filter_exists_with_context]
    interpolates into its patterns are all plain. *)
Definition literal_names (config : SecurityConfig) (g : Schema.SchemaGraph)
  (scoped : list string) (scoping_value : option string)
  (scoping_column : option string) (accessible : option (list string)) : bool :=
  plain (fmt_value scoping_value)
  && forallb (fun table => plain (table_scoping_column config g table scoping_column))
             scoped
  && match several accessible with
     | Some es => forallb plain es
     | None => true
     end.

(** An AST tier that is not available (sqlglot missing). *)
Definition no_ast : string -> option string -> option ScopingRequirements -> AstResult :=
  fun _ _ _ => AstNone.

(** The pattern of the multi-statement check. *)
Definition multi_statement : Re.regex :=
  Re.seqs [Re.text ";"; ws_star; Re.Cls Py.is_alpha].

End QueryText.
(* ===================================================================== *)
(** ** schema_index.py: the shape of names and tokens                     *)
(* ===================================================================== *)

Module IndexText.

(** The text is made of digits, underscores and lower-case letters. *)
Definition lower_word (s : string) : bool :=
  forallb (fun c => Py.is_word c && negb (Py.is_upper c)) (Py.chars s).

End IndexText.

(* ===================================================================== *)
(** ** intelligent_sql_generator.py: the selection of tables              *)
(* ===================================================================== *)

Module Selection.
Import Schema.

(** *** _is_simple_query *)

Definition _is_simple_query (user_query : string) : bool :=
  let query_lower := Py.lower user_query in
  let simple_patterns :=
    ["count"; "how many"; "number of"; "total"; "active"; "distinct"] in
  let complex_patterns :=
    ["join"; "with"; "related"; "between"; "across"; "multiple tables";
     "relationship"; "mapping"; "preference"] in
  let has_simple :=
    existsb (fun pattern => Py.contains pattern query_lower) simple_patterns in
  let has_complex :=
    existsb (fun pattern => Py.contains pattern query_lower) complex_patterns in
  has_simple && negb has_complex.

(** *** _apply_simplified_priority *)

Definition core_tables : list string :=
  ["users"; "entities"; "shipments"; "orders"; "locations"; "transactions";
   "invoices"].

Definition relationship_tables : list string :=
  ["user_partner_preferences"; "entity_user_mappings"; "supplier_preferences";
   "advanced_partner_preference_settings"; "tracking_status_mappings"].

Definition lookup_tables : list string :=
  ["tracking_statuses"; "vamaship_tracking_codes_master"; "partner_tracking_codes"].

Definition _apply_simplified_priority (tables : list string) (user_query : string)
  : list string :=
  match tables with
  | [] => tables
  | _ :: _ =>
      let core_matches := List.filter (fun t => Py.in_list t core_tables) tables in
      let relationship_matches :=
        List.filter (fun t => Py.in_list t relationship_tables) tables in
      let lookup_matches := List.filter (fun t => Py.in_list t lookup_tables) tables in
      let other_matches :=
        List.filter (fun t => negb (Py.in_list t core_tables)
                              && negb (Py.in_list t relationship_tables)
                              && negb (Py.in_list t lookup_tables)) tables in
      if _is_simple_query user_query
      then core_matches ++ other_matches ++ relationship_matches ++ lookup_matches
      else core_matches ++ other_matches ++ relationship_matches ++ lookup_matches
  end.

(** *** _expand_by_relationships *)

(** The inner loop over the relationships for one [table].  The set
    [related_tables] is kept in insertion order; the order in which
    Python enumerates it is not fixed by the source. *)
Definition expand_table (g : SchemaGraph) (related_tables : list string)
  (table : string) : list string :=
  fold_left
    (fun related_tables rel =>
       if String.eqb (rel_from rel) table
          && negb (Py.in_list (rel_to rel) related_tables)
       then Py.set_add (rel_to rel) related_tables
       else if String.eqb (rel_to rel) table
               && negb (Py.in_list (rel_from rel) related_tables)
       then Py.set_add (rel_from rel) related_tables
       else related_tables)
    (relationships g) related_tables.

(** [for depth in range(max_depth)], with [current_tables] the tables
    at the start of the round. *)
Fixpoint expand_rounds (g : SchemaGraph) (max_depth : nat)
  (related_tables : list string) : list string :=
  match max_depth with
  | O => related_tables
  | S depth =>
      let current_tables := related_tables in
      expand_rounds g depth (fold_left (expand_table g) current_tables related_tables)
  end.

Definition _expand_by_relationships (g : SchemaGraph) (seed_tables : list string)
  (max_depth : nat) : list string :=
  let related_tables := expand_rounds g max_depth (Py.set_of_list seed_tables) in
  List.filter (fun t => negb (Py.in_list t seed_tables)) related_tables.

(** Some relationship joins [a] and [b], in one direction or the
    other. *)
Definition adjacent (g : SchemaGraph) (a b : string) : Prop :=
  exists rel, In rel (relationships g)
              /\ ((rel_from rel = a /\ rel_to rel = b)
                  \/ (rel_to rel = a /\ rel_from rel = b)).

(** [t] is at most [depth] relationships away from one of the seeds. *)
Fixpoint within (g : SchemaGraph) (seed_tables : list string) (depth : nat)
  (t : string) : Prop :=
  match depth with
  | O => In t seed_tables
  | S d => within g seed_tables d t
           \/ exists s, within g seed_tables d s /\ adjacent g s t
  end.

(** *** _extract_tables_from_sql *)

Definition _extract_tables_from_sql (g : SchemaGraph) (sql : string) : list string :=
  let sql_lower := Py.lower sql in
  List.filter
    (fun table_name =>
       Py.contains ("from " +:+ table_name) sql_lower
       || Py.contains ("join " +:+ table_name) sql_lower)
    (table_names g).

(** A schema with a table whose name begins with the name of another
    one. *)
Definition archive_graph : SchemaGraph :=
  mkGraph [("orders", mkTable ["id"] None false None []);
           ("orders_archive", mkTable ["id"] None false None [])]
          [] [].

End Selection.

(* ===================================================================== *)
(** ** intelligent_sql_generator.py: SchemaCache                          *)
(* ===================================================================== *)

Module Cache.

(** The cache as far as the schema descriptions go: [max_size] and the
    dict [schema_descriptions], with its entries in insertion order. *)
Record SchemaCache : Type := mkCache {
  max_size : Z;
  schema_descriptions : list (string * string)
}.

(** [sorted(table_names)]: strings are compared by code point. *)
Fixpoint insert_sorted (x : string) (l : list string) : list string :=
  match l with
  | [] => [x]
  | y :: l' => if String.leb x y then x :: l else y :: insert_sorted x l'
  end.

Definition sorted (l : list string) : list string := fold_right insert_sorted [] l.

(** [d.get(k)] *)
Fixpoint dict_get (d : list (string * string)) (k : string) : option string :=
  match d with
  | [] => None
  | (k', v) :: d' => if String.eqb k' k then Some v else dict_get d' k
  end.

(** [d[k] = v]: an existing key keeps its place, a new one goes last. *)
Fixpoint dict_set (d : list (string * string)) (k v : string)
  : list (string * string) :=
  match d with
  | [] => [(k, v)]
  | (k', v') :: d' =>
      if String.eqb k' k then (k', v) :: d' else (k', v') :: dict_set d' k v
  end.

Section Cache.

(** [hashlib.md5(text.encode()).hexdigest()] *)
Variable md5 : string -> string.

Definition _get_cache_key (table_names : list string) (query_context : string)
  : string :=
  let key_data := sorted table_names ++ [query_context] in
  md5 (Py.repr_list key_data).

Definition get_cached_schema_description (c : SchemaCache)
  (table_names : list string) (query_context : string) : option string :=
  let key := _get_cache_key table_names query_context in
  dict_get (schema_descriptions c) key.

(** [next(iter(d))] on an empty dict raises [StopIteration]; the oldest
    key is the first one, and deleting it drops the first entry. *)
Definition cache_schema_description (c : SchemaCache) (table_names : list string)
  (description query_context : string) : res SchemaCache :=
  let* d :=
    if (max_size c <=? Z.of_nat (length (schema_descriptions c)))%Z
    then match schema_descriptions c with
         | [] => Raise "StopIteration"
         | _ :: d' => Ok d'
         end
    else Ok (schema_descriptions c) in
  let key := _get_cache_key table_names query_context in
  Ok (mkCache (max_size c) (dict_set d key description)).

End Cache.

(** A stand-in for the hash in the examples. *)
Definition plain_key (text : string) : string := text.

End Cache.

(* ===================================================================== *)
(** ** user_context.py: PermissionManager                                 *)
(* ===================================================================== *)

Module UserAccess.

(** One value of the roles configuration; [None] is a missing key. *)
Record RoleConfig : Type := mkRole {
  role_access_pattern : option string;
  role_requires_scoping : option bool;
  role_can_scope_to_specific : option bool;
  role_bypass_validation : option bool
}.

(** [settings.security] as far as the permission manager reads it. *)
Record Settings : Type := mkSettings {
  roles_config : list (string * RoleConfig);
  DEFAULT_USER_ROLE : string;
  MAX_ENTITIES_PER_QUERY : nat;
  ENABLE_CROSS_ENTITY_QUERIES : bool;
  SCOPING_COLUMN : string
}.

Inductive AccessPattern : Type :=
| SINGLE_ENTITY
| ALL_ENTITIES
| MULTIPLE_ENTITIES
| WHITELIST_ENTITIES.

Definition pattern_value (p : AccessPattern) : string :=
  match p with
  | SINGLE_ENTITY => "single_entity"
  | ALL_ENTITIES => "all_entities"
  | MULTIPLE_ENTITIES => "multiple_entities"
  | WHITELIST_ENTITIES => "whitelist_entities"
  end.

(** The [permissions] dict: the keys that are written and read.  [None]
    is a missing key; for [accessible_entities] also the value [None]
    (all entities). *)
Record Permissions : Type := mkPerm {
  can_query : option bool;
  can_access_all_entities : option bool;
  can_scope_to_specific : option bool;
  requires_scoping : option bool;
  bypass_validation : option bool;
  max_entities_per_query : option nat;
  can_cross_entity_query : option bool;
  accessible_entities : option (list string);
  access_pattern : option string
}.

(** [UserContext], without its timestamp. *)
Record UserContext : Type := mkContext {
  role : string;
  scoping_value : option string;
  permissions : Permissions;
  request_id : option string
}.

(** What [_validate_entity_access] returns. *)
Record EntityAccess : Type := mkAccess {
  primary_entity : option string;
  entity_accessible : option (list string);
  entity_pattern : AccessPattern
}.

Fixpoint get_role_config (roles : list (string * RoleConfig)) (r : string)
  : option RoleConfig :=
  match roles with
  | [] => None
  | (r', c) :: roles' => if String.eqb r' r then Some c else get_role_config roles' r
  end.

Section Manager.

Variable settings : Settings.

Definition is_role_allowed (r : string) : bool :=
  match get_role_config (roles_config settings) r with
  | Some _ => true
  | None => false
  end.

(** The exceptions are [ValueError]s with these messages. *)
Definition _validate_entity_access (role_config : RoleConfig) (r : string)
  (value : option string) : res EntityAccess :=
  let pattern := default "single_entity" (role_access_pattern role_config) in
  if String.eqb pattern "single_entity" then
    match value with
    | None => Raise ("Role '" +:+ r +:+ "' requires a single scoping value")
    | Some v =>
        if String.eqb v ""
        then Raise ("Role '" +:+ r +:+ "' requires a single scoping value")
        else Ok (mkAccess (Some v) (Some [v]) SINGLE_ENTITY)
    end
  else if String.eqb pattern "all_entities" then
    Ok (mkAccess value None ALL_ENTITIES)
  else Raise ("Unknown access pattern: " +:+ pattern).

Definition _create_permissions (role_config : RoleConfig)
  (entity_access : EntityAccess) : Permissions :=
  mkPerm (Some true)
         (Some match entity_pattern entity_access with
               | ALL_ENTITIES => true
               | _ => false
               end)
         (Some (default false (role_can_scope_to_specific role_config)))
         (Some (default true (role_requires_scoping role_config)))
         (Some (default false (role_bypass_validation role_config)))
         (Some (MAX_ENTITIES_PER_QUERY settings))
         (Some (ENABLE_CROSS_ENTITY_QUERIES settings))
         (entity_accessible entity_access)
         (Some (pattern_value (entity_pattern entity_access))).

(** [additional_permissions] is given by what [permissions.update]
    does with it; [None] is a call without it, or with an empty dict. *)
Definition create_user_context (r : option string) (value : option string)
  (rid : option string) (additional_permissions : option (Permissions -> Permissions))
  : res UserContext :=
  let r := default (DEFAULT_USER_ROLE settings) r in
  match get_role_config (roles_config settings) r with
  | None => Raise ("Invalid role: " +:+ r)
  | Some role_config =>
      let* validated_entity_access := _validate_entity_access role_config r value in
      let permissions := _create_permissions role_config validated_entity_access in
      let permissions :=
        match additional_permissions with
        | Some update => update permissions
        | None => permissions
        end in
      Ok (mkContext r (primary_entity validated_entity_access) permissions rid)
  end.

(** The answer of [validate_query_access]: allowed, with
    [scoping_required] and the accessible entities when they are
    listed, or denied with an error (the error code goes with it). *)
Inductive Access : Type :=
| Allowed (scoping_required : bool) (accessible : option (list string))
| Denied (error : string).

Definition allowed (a : Access) : bool :=
  match a with Allowed _ _ => true | Denied _ => false end.

(** The denied entities are a Python set: the order in which the
    message lists them is not fixed by the source. *)
Definition validate_query_access (user_context : UserContext)
  (query_entities : option (list string)) : Access :=
  let perms := permissions user_context in
  if negb (default false (can_query perms))
  then Denied "User does not have query permissions"
  else if default false (can_access_all_entities perms)
  then Allowed false None
  else
    match accessible_entities perms with
    | None => Allowed false None
    | Some acc =>
        let inaccessible :=
          List.filter (fun e => negb (Py.in_list e acc))
                      (Py.set_of_list (default [] query_entities)) in
        match inaccessible with
        | _ :: _ =>
            Denied ("Access denied to entities: " +:+ Py.repr_list inaccessible)
        | [] => Allowed (default true (requires_scoping perms)) (Some acc)
        end
    end.

End Manager.

(** A customer role bound to one entity and an administrator. *)
Definition two_roles : Settings :=
  mkSettings
    [("customer", mkRole (Some "single_entity") (Some true) None None);
     ("admin", mkRole (Some "all_entities") (Some false) (Some true) (Some true))]
    "customer" 10 false "accounts_entity_id".

End UserAccess.

(* ===================================================================== *)
(** ** plan_validator.py: the text of a plan                              *)
(* ===================================================================== *)

Module PlanText.

(** [s.find(sub)], counted from [i]. *)
Fixpoint find_from (sub s : list ascii) (i : nat) : option nat :=
  if Py.starts_with sub s then Some i
  else match s with
       | [] => None
       | _ :: s' => find_from sub s' (S i)
       end.

Definition find (sub : string) (s : list ascii) : option nat :=
  find_from (Py.chars sub) s 0.

(** [s.endswith(sub)] *)
Definition endswith (s : list ascii) (sub : string) : bool :=
  Py.starts_with (rev (Py.chars sub)) (rev s).

Definition is_backslash (ch : ascii) : bool := (Py.code ch =? 92)%nat.
Definition is_double_quote (ch : ascii) : bool := (Py.code ch =? 34)%nat.
Definition is_open_brace (ch : ascii) : bool := (Py.code ch =? 123)%nat.
Definition is_close_brace (ch : ascii) : bool := (Py.code ch =? 125)%nat.

(** The loop [for i in range(start, len(s))] over the characters [l]
    from index [i] on: the [end_index] at which it breaks, if it does. *)
Fixpoint scan (l : list ascii) (i : nat) (stack : Z) (in_string escape : bool)
  : option nat :=
  match l with
  | [] => None
  | ch :: l' =>
      if in_string then
        if escape then scan l' (S i) stack in_string false
        else if is_backslash ch then scan l' (S i) stack in_string true
        else if is_double_quote ch then scan l' (S i) stack false escape
        else scan l' (S i) stack in_string escape
      else
        if is_double_quote ch then scan l' (S i) stack true escape
        else if is_open_brace ch then scan l' (S i) (stack + 1)%Z in_string escape
        else if is_close_brace ch then
          if (stack - 1 =? 0)%Z then Some (S i)
          else scan l' (S i) (stack - 1)%Z in_string escape
        else scan l' (S i) stack in_string escape
  end.

(** [_extract_json_object]; no operation of the [try] block raises on
    a string. *)
Definition _extract_json_object (text : string) : string :=
  if String.eqb text "" then text
  else
    let s := Py.strip_by Py.is_space (Py.chars text) in
    let s :=
      if Py.starts_with (Py.chars "```") s then
        let s := match find (String (ascii_of_nat 10) "") s with
                 | Some first_newline => skipn (first_newline + 1) s
                 | None => skipn 3 s
                 end in
        let s := if endswith s "```" then firstn (length s - 3) s else s in
        Py.strip_by Py.is_space s
      else s in
    match find "{" s with
    | None => Py.str s
    | Some start =>
        match scan (skipn start s) start 0%Z false false with
        | Some end_index =>
            Py.str (Py.strip_by Py.is_space
                      (firstn (end_index - start) (skipn start s)))
        | None => Py.str (Py.strip_by Py.is_space (skipn start s))
        end
    end.

(** The scanner of [_extract_json_object] takes [obj] for one complete
    object: it starts with a brace and the brace that closes it is its
    last character. *)
Definition complete_object (obj : string) : Prop :=
  (exists rest, Py.chars obj = "{"%char :: rest)
  /\ scan (Py.chars obj) 0 0%Z false false = Some (String.length obj).

(** The double quote. *)
Definition dq : string := String (ascii_of_nat 34) "".

End PlanText.


(* ===================================================================== *)
(** * Theorems                                                            *)
(* ===================================================================== *)

(** ** Generic facts about [for_each] *)

Lemma for_each_inv {A S : Type} (P : S -> Prop) (body : S -> A -> res S) :
  (forall s x s', P s -> body s x = Ok s' -> P s') ->
  forall xs st r, P st -> for_each xs body st = Ok r -> P r.
Proof.
  intros Hbody xs; induction xs as [|x xs IH]; intros st r Hst Hrun; simpl in Hrun.
  - inversion Hrun; subst; exact Hst.
  - destruct (body st x) as [s'|e] eqn:Hb; simpl in Hrun; [|discriminate].
    eapply IH; [eapply Hbody; eauto | exact Hrun].
Qed.

Lemma for_each_total {A S : Type} (body : S -> A -> res S) :
  (forall s x, exists s', body s x = Ok s') ->
  forall xs st, exists r, for_each xs body st = Ok r.
Proof.
  intros Hbody xs; induction xs as [|x xs IH]; intros st; simpl.
  - eauto.
  - destruct (Hbody st x) as [s' ->]; simpl. apply IH.
Qed.

(** ** Generic facts about the Python primitives *)

Lemma fold_left_inv {A B : Type} (P : A -> Prop) (f : A -> B -> A) (l : list B) :
  (forall a b, In b l -> P a -> P (f a b)) ->
  forall a, P a -> P (fold_left f l a).
Proof.
  induction l as [|b l IH]; simpl; intros Hf a Ha; [exact Ha|].
  apply IH; [intros; apply Hf; auto | apply Hf; auto].
Qed.

Lemma In_firstn {A : Type} (n : nat) (l : list A) (x : A) :
  In x (firstn n l) -> In x l.
Proof.
  revert l; induction n as [|n IH]; intros [|a l]; simpl; try tauto.
  intros [->|H]; auto.
Qed.

Lemma in_list_In (x : string) (l : list string) :
  Py.in_list x l = true <-> In x l.
Proof.
  unfold Py.in_list. rewrite existsb_exists. split.
  - intros (y & Hy & Heq). apply String.eqb_eq in Heq. subst. exact Hy.
  - intros H. exists x. split; [exact H | apply String.eqb_refl].
Qed.

Lemma in_list_false (x : string) (l : list string) :
  Py.in_list x l = false <-> ~ In x l.
Proof.
  rewrite <- in_list_In. destruct (Py.in_list x l); split; intros; congruence.
Qed.

Lemma set_add_In (x y : string) (l : list string) :
  In y (Py.set_add x l) <-> y = x \/ In y l.
Proof.
  unfold Py.set_add. destruct (Py.in_list x l) eqn:Hx.
  - apply in_list_In in Hx. split; [auto|]. intros [->|H]; auto.
  - rewrite in_app_iff. simpl. intuition.
Qed.

Lemma set_add_NoDup (x : string) (l : list string) :
  List.NoDup l -> List.NoDup (Py.set_add x l).
Proof.
  intros Hnd. unfold Py.set_add. destruct (Py.in_list x l) eqn:Hx; [exact Hnd|].
  apply in_list_false in Hx.
  apply List.NoDup_app; repeat split; auto.
  - constructor; [simpl; tauto | constructor].
  - intros a Ha [<-|[]]. auto.
Qed.

Lemma set_of_list_In (y : string) (l : list string) :
  In y (Py.set_of_list l) <-> In y l.
Proof.
  unfold Py.set_of_list.
  assert (H : forall acc, In y (fold_left (fun acc x => Py.set_add x acc) l acc)
                          <-> In y acc \/ In y l).
  { induction l as [|x l IH]; simpl; intros acc; [tauto|].
    rewrite IH, set_add_In. intuition. }
  rewrite H. simpl. tauto.
Qed.

Lemma set_of_list_NoDup (l : list string) : List.NoDup (Py.set_of_list l).
Proof.
  unfold Py.set_of_list.
  apply fold_left_inv; [|constructor].
  intros a b _ Ha. apply set_add_NoDup. exact Ha.
Qed.

(** ** The join-path solver *)

Module SchemaFacts.
Import Schema.

Section Backed.
Variable shortest_path : string -> string -> path_result.
Variable set_iter : list string -> list string.
Variable g : SchemaGraph.

Lemma find_rel_sound a b rel :
  find_rel g a b = Some rel ->
  In rel (relationships g) /\ rel_from rel = a /\ rel_to rel = b.
Proof.
  unfold find_rel; intros H.
  apply find_some in H as [Hin Heq].
  apply andb_true_iff in Heq as [H1 H2].
  apply String.eqb_eq in H1, H2. auto.
Qed.

Lemma path_joins_backed p : Forall (backed g) (path_joins g p).
Proof.
  induction p as [|a p IH]; simpl; [constructor|].
  destruct p as [|b p']; [constructor|].
  apply Forall_app; split; [|exact IH].
  destruct (find_rel g a b) as [rel|] eqn:Hrel; [|constructor].
  apply find_rel_sound in Hrel as (Hin & Hf & Ht).
  constructor; [|constructor].
  exists rel; simpl; auto.
Qed.

Lemma join_step_backed st table st' :
  Forall (backed g) (fst st) ->
  join_step shortest_path set_iter g st table = Ok st' ->
  Forall (backed g) (fst st').
Proof.
  destruct st as [joins connected]; simpl; intros Hj Hrun.
  destruct (for_each (set_iter connected) _ None) as [best|e]; simpl in Hrun;
    [|discriminate].
  destruct best as [p|]; inversion Hrun; subst; simpl; auto.
  apply Forall_app; split; [exact Hj | apply path_joins_backed].
Qed.

End Backed.

(** C3. Whatever path the shortest-path search returns and in whatever
    order the set of connected tables is iterated, every join step that
    [get_join_path] emits carries the from-table, to-table and join column
    (and target column) of a relationship declared in the schema. *)
Theorem get_join_path_backed
  (shortest_path : string -> string -> path_result)
  (set_iter : list string -> list string)
  (g : SchemaGraph) (ts : list string) (joins : list JoinStep) :
  get_join_path shortest_path set_iter g ts = Ok joins ->
  Forall (backed g) joins.
Proof.
  unfold get_join_path.
  destruct ts as [|t0 [|t1 rest]]; intros H.
  - inversion H; constructor.
  - inversion H; constructor.
  - destruct (for_each (t1 :: rest) _ _) as [st|e] eqn:Hrun; simpl in H; [|discriminate].
    inversion H; subst.
    eapply (for_each_inv (fun st => Forall (backed g) (fst st))); [| |exact Hrun].
    + intros s x s' Hs Hb. eapply join_step_backed; eauto.
    + constructor.
Qed.

Lemma get_join_path_backed_witness :
  let g := default_graph "accounts_entity_id" in
  get_join_path (bfs_shortest_path g) id g ["shipments"; "customers"]
  = Ok [mkStep "shipments" "orders" "order_id" "id";
        mkStep "orders" "customers" "customer_id" "id"]
  /\ Forall (backed g)
       [mkStep "shipments" "orders" "order_id" "id";
        mkStep "orders" "customers" "customer_id" "id"].
Proof.
  split; [reflexivity|].
  apply (get_join_path_backed
           (bfs_shortest_path (default_graph "accounts_entity_id")) id
           (default_graph "accounts_entity_id") ["shipments"; "customers"]).
  reflexivity.
Defined.

(** The solver returns whenever the path search finds its end points. *)
Lemma get_join_path_returns
  (shortest_path : string -> string -> path_result)
  (set_iter : list string -> list string)
  (g : SchemaGraph) (ts : list string) :
  (forall a b, shortest_path a b <> NodeNotFound) ->
  exists joins, get_join_path shortest_path set_iter g ts = Ok joins.
Proof.
  intros Hsp. unfold get_join_path.
  destruct ts as [|t0 [|t1 rest]]; eauto.
  destruct (for_each_total (join_step shortest_path set_iter g)) with
    (xs := t1 :: rest) (st := (@nil JoinStep, [t0])) as [r Hr].
  - intros [joins connected] x; unfold join_step.
    destruct (for_each_total (best_path_step shortest_path x))
      with (xs := set_iter connected) (st := @None (list string)) as [b Hb].
    + intros best c. unfold best_path_step, find_path_between_tables.
      specialize (Hsp c x).
      destruct (shortest_path c x) as [p| |]; simpl; try congruence; eauto.
      destruct p as [|y p']; eauto.
      destruct best as [b|]; eauto.
      destruct (_ <? _)%nat; eauto.
    + rewrite Hb; simpl. destruct b; eauto.
  - rewrite Hr; simpl; eauto.
Qed.

(** The example of the specification: one relationship, one join step. *)
Example join_path_shipments_orders :
  let g := default_graph "accounts_entity_id" in
  get_join_path (bfs_shortest_path g) id g ["shipments"; "orders"]
  = Ok [mkStep "shipments" "orders" "order_id" "id"].
Proof. reflexivity. Qed.

End SchemaFacts.

(** ** The plan validator *)

Module PlanFacts.
Import Schema PlanValidator.

Lemma missing_fields_nil_to_plan raw :
  missing_fields raw = [] -> exists p, to_plan raw = Some p.
Proof.
  unfold missing_fields, required_fields, to_plan; cbn.
  destruct raw as [[t|] [c|] [j|] [f|] [gb|] [ob|] [l|] [ns|]]; cbn;
    intros H; try discriminate H; eauto.
Qed.

Lemma to_plan_missing_fields raw p :
  to_plan raw = Some p -> missing_fields raw = [].
Proof.
  unfold missing_fields, required_fields, to_plan; cbn.
  destruct raw as [[t|] [c|] [j|] [f|] [gb|] [ob|] [l|] [ns|]]; cbn;
    intros H; try discriminate H; reflexivity.
Qed.

(** C5. A parsed plan object that lacks at least one of the eight
    required keys is rejected, and the error message is
    ["Missing required fields: "] followed by the Python list of exactly
    the keys that are absent: a name is listed if and only if it is a
    required field that the object does not have. *)
Theorem validate_plan_missing_fields
  (shortest_path : string -> string -> path_result)
  (set_iter : list string -> list string)
  (g : SchemaGraph) (raw : RawPlan) (user_query : string) :
  missing_fields raw <> [] ->
  validate_plan shortest_path set_iter g (Some raw) user_query
  = PlanInvalid ("Missing required fields: " ++ Py.repr_list (missing_fields raw))
  /\ (forall f, In f (missing_fields raw)
                <-> In f required_fields /\ has_field raw f = false)
  /\ List.NoDup (missing_fields raw).
Proof.
  intros Hmiss. split; [|split].
  - unfold validate_plan.
    destruct (to_plan raw) as [p|] eqn:Hp; [|reflexivity].
    apply to_plan_missing_fields in Hp. congruence.
  - intros f. unfold missing_fields. rewrite filter_In.
    rewrite negb_true_iff. reflexivity.
  - unfold missing_fields. apply List.NoDup_filter.
    unfold required_fields.
    repeat (constructor; [simpl; intuition discriminate|]). constructor.
Qed.

Lemma validate_plan_missing_fields_witness :
  let g := default_graph "accounts_entity_id" in
  let raw := mkRaw None None (Some []) (Some []) (Some []) (Some []) (Some None)
                   (Some true) in
  validate_plan (bfs_shortest_path g) id g (Some raw) "list shipments"
  = PlanInvalid "Missing required fields: ['tables', 'columns']".
Proof.
  exact (proj1 (validate_plan_missing_fields
                  (bfs_shortest_path (default_graph "accounts_entity_id")) id
                  (default_graph "accounts_entity_id")
                  (mkRaw None None (Some []) (Some []) (Some []) (Some [])
                         (Some None) (Some true))
                  "list shipments" ltac:(discriminate))).
Defined.

(** C7. For a query with count intent, whatever the input plan holds,
    a plan returned as valid has no columns, no group-by and no limit. *)
Theorem validate_plan_count_intent
  (shortest_path : string -> string -> path_result)
  (set_iter : list string -> list string)
  (g : SchemaGraph) (parsed : option RawPlan) (user_query : string) (p : Plan) :
  is_count_intent user_query = true ->
  validate_plan shortest_path set_iter g parsed user_query = PlanValid p ->
  p_columns p = ∅ /\ p_group_by p = [] /\ p_limit p = None.
Proof.
  intros Hc. unfold validate_plan.
  destruct parsed as [raw|]; [|discriminate].
  destruct (to_plan raw) as [plan0|]; [|discriminate].
  destruct (repair_tables _ _ _) as [inv|pl]; [discriminate|].
  intros H; inversion H; subst; clear H.
  unfold repair_rest, _apply_intent_repairs. rewrite Hc.
  rewrite andb_false_r. simpl. auto.
Qed.

Lemma validate_plan_count_intent_witness :
  let g := default_graph "accounts_entity_id" in
  exists p,
    validate_plan (bfs_shortest_path g) id g (Some count_plan)
                  "how many shipments are delivered" = PlanValid p
    /\ p_tables p = ["shipments"]
    /\ p_columns p = ∅ /\ p_group_by p = [] /\ p_limit p = None.
Proof.
  eexists. split; [vm_compute; reflexivity|]. split; [reflexivity|].
  apply (validate_plan_count_intent
           (bfs_shortest_path (default_graph "accounts_entity_id")) id
           (default_graph "accounts_entity_id") (Some count_plan)
           "how many shipments are delivered").
  - vm_compute; reflexivity.
  - vm_compute; reflexivity.
Defined.

(** *** Columns stay inside the schema *)

Section Columns.
Variable g : SchemaGraph.

Local Abbreviation columns_ok := (columns_ok g).

Lemma lookup_table_has ts name :
  Py.in_list name (map fst ts) = true <-> exists info, lookup_table ts name = Some info.
Proof.
  induction ts as [|[n info] ts IH]; simpl.
  - split; [discriminate | intros [? ?]; discriminate].
  - rewrite (String.eqb_sym name n).
    destruct (String.eqb n name); simpl; [split; eauto | exact IH].
Qed.

Lemma has_table_info t :
  has_table g t = true <-> exists info, get_table_info g t = Some info.
Proof. apply lookup_table_has. Qed.

Lemma columns_ok_empty : columns_ok ∅.
Proof. intros t cs H. rewrite lookup_empty in H. discriminate. Qed.

Lemma columns_ok_insert cols t cs :
  columns_ok cols -> has_table g t = true ->
  (forall c, In c cs -> In c (table_columns g t)) ->
  columns_ok (<[t := cs]> cols).
Proof.
  intros Hok Ht Hcs t' cs' Hl.
  destruct (decide (t = t')) as [<-|Hne].
  - rewrite lookup_insert_eq in Hl. inversion Hl; subst. auto.
  - rewrite lookup_insert_ne in Hl by exact Hne. apply Hok. exact Hl.
Qed.

Lemma current_columns_ok cols t :
  columns_ok cols ->
  forall c, In c (default [] (cols !! t)) -> In c (table_columns g t).
Proof.
  intros Hok c. destruct (cols !! t) as [cs|] eqn:Hl; simpl; [|tauto].
  apply (Hok t cs Hl).
Qed.

Lemma _validate_columns_ok columns_dict ts :
  columns_ok (_validate_columns g columns_dict ts).
Proof.
  unfold _validate_columns.
  apply fold_left_inv; [|apply columns_ok_empty].
  intros cols t _ Hok.
  destruct (get_table_info g t) as [info|] eqn:Hinfo; [|exact Hok].
  apply columns_ok_insert; [exact Hok | apply has_table_info; eauto |].
  intros c Hc. apply filter_In in Hc as [_ Hc].
  unfold table_columns. rewrite Hinfo. apply in_list_In. exact Hc.
Qed.

Lemma append_if_absent_In c x l :
  In x (append_if_absent c l) -> x = c \/ In x l.
Proof.
  unfold append_if_absent. destruct (Py.in_list c l); [auto|].
  rewrite in_app_iff. simpl. intuition.
Qed.

Lemma _ensure_display_columns_ok plan :
  Forall (fun t => has_table g t = true) (p_tables plan) ->
  columns_ok (p_columns plan) ->
  columns_ok (p_columns (_ensure_display_columns g plan)).
Proof.
  intros Hts Hok. unfold _ensure_display_columns. simpl.
  apply fold_left_inv; [|exact Hok].
  intros cols t Hin Hcols.
  rewrite List.Forall_forall in Hts. specialize (Hts t Hin).
  apply columns_ok_insert; [exact Hcols | exact Hts |].
  pose proof (current_columns_ok cols t Hcols) as Hcur.
  set (cur := default [] (cols !! t)) in *.
  assert (Hcur1 : forall c,
             In c (if String.eqb t "users"
                      && Py.in_list "first_name" (table_columns g t)
                      && Py.in_list "last_name" (table_columns g t)
                   then append_if_absent "last_name"
                          (append_if_absent "first_name" cur)
                   else cur) -> In c (table_columns g t)).
  { intros c.
    destruct (String.eqb t "users" && _ && _) eqn:Hu; [|apply Hcur].
    apply andb_true_iff in Hu as [Hu Hl]. apply andb_true_iff in Hu as [_ Hf].
    apply in_list_In in Hl, Hf.
    intros Hc. apply append_if_absent_In in Hc as [->|Hc]; [exact Hl|].
    apply append_if_absent_In in Hc as [->|Hc]; [exact Hf | apply Hcur, Hc]. }
  intros c.
  match goal with
  | |- In c (match ?a with [] => _ | _ :: _ => _ end) -> _ =>
      destruct a as [|a0 a'] eqn:Ha
  end.
  - match goal with
    | |- In c (match ?d with [] => _ | _ :: _ => _ end) -> _ =>
        destruct d as [|d0 d'] eqn:Hd
    end; [simpl; tauto|].
    intros Hc. rewrite <- Hd in Hc.
    apply In_firstn, filter_In in Hc. tauto.
  - apply Hcur1.
Qed.

Lemma _ensure_time_columns_ok plan :
  Forall (fun t => has_table g t = true) (p_tables plan) ->
  columns_ok (p_columns plan) ->
  columns_ok (p_columns (_ensure_time_columns g plan)).
Proof.
  intros Hts Hok. unfold _ensure_time_columns. simpl.
  apply fold_left_inv; [|exact Hok].
  intros cols t Hin Hcols.
  rewrite List.Forall_forall in Hts. specialize (Hts t Hin).
  apply columns_ok_insert; [exact Hcols | exact Hts |].
  pose proof (current_columns_ok cols t Hcols) as Hcur.
  intros c. destruct (existsb _ _); [apply Hcur|].
  match goal with
  | |- In c (match ?d with [] => _ | _ :: _ => _ end) -> _ =>
      destruct d as [|d0 d'] eqn:Hd
  end; [apply Hcur|].
  rewrite in_app_iff. intros [Hc|[<-|[]]]; [apply Hcur, Hc|].
  assert (Hd0 : In d0 (d0 :: d')) by (left; reflexivity).
  rewrite <- Hd in Hd0. apply filter_In in Hd0. tauto.
Qed.

Lemma tables_of_display plan :
  p_tables (_ensure_display_columns g plan) = p_tables plan.
Proof. reflexivity. Qed.

Lemma _apply_intent_repairs_ok plan user_query :
  Forall (fun t => has_table g t = true) (p_tables plan) ->
  columns_ok (p_columns plan) ->
  columns_ok (p_columns (_apply_intent_repairs g plan user_query)).
Proof.
  intros Hts Hok. unfold _apply_intent_repairs.
  destruct (is_count_intent user_query); simpl.
  - rewrite andb_false_r. simpl. apply columns_ok_empty.
  - rewrite andb_true_r.
    destruct (is_list_intent user_query), (is_time_intent user_query);
      auto using _ensure_display_columns_ok, _ensure_time_columns_ok.
Qed.

(** After the table step every table of the plan is a schema table. *)
Lemma repair_tables_known (set_iter : list string -> list string) plan plan' :
  (forall l x, In x (set_iter l) -> In x l) ->
  repair_tables set_iter g plan = inr plan' ->
  Forall (fun t => has_table g t = true) (p_tables plan').
Proof.
  intros Hsi. unfold repair_tables.
  destruct (List.filter (fun t => negb (has_table g t)) (dedup (p_tables plan)))
    as [|bad rest] eqn:Hbad.
  - intros H; inversion H; subst.
    apply List.Forall_forall. intros t Ht.
    destruct (has_table g t) eqn:Hk; [reflexivity|].
    assert (Hin : In t (List.filter (fun t => negb (has_table g t))
                                     (dedup (p_tables plan')))).
    { apply filter_In. split; [apply set_of_list_In, Ht | now rewrite Hk]. }
    rewrite Hbad in Hin. destruct Hin.
  - destruct (set_iter _) as [|t0 ts] eqn:Hts; [discriminate|].
    intros H; inversion H; subst; simpl.
    apply List.Forall_forall. intros t Ht.
    rewrite <- Hts in Ht. apply Hsi, filter_In in Ht. tauto.
Qed.

End Columns.

(** C10. In every plan returned as valid, each table of the columns map
    is a schema table and each column listed under it is declared for
    that table in the schema; the display and time columns added by the
    intent repairs keep it so.  The iteration order of Python sets is
    arbitrary: [set_iter] only has to enumerate elements of the set. *)
Theorem validate_plan_columns_in_schema
  (shortest_path : string -> string -> path_result)
  (set_iter : list string -> list string)
  (g : SchemaGraph) (parsed : option RawPlan) (user_query : string) (p : Plan) :
  (forall l x, In x (set_iter l) -> In x l) ->
  validate_plan shortest_path set_iter g parsed user_query = PlanValid p ->
  forall t cols,
    p_columns p !! t = Some cols ->
    has_table g t = true /\ forall c, In c cols -> In c (table_columns g t).
Proof.
  intros Hsi. unfold validate_plan.
  destruct parsed as [raw|]; [|discriminate].
  destruct (to_plan raw) as [plan0|]; [|discriminate].
  destruct (repair_tables _ _ _) as [inv|pl] eqn:Hrep; [discriminate|].
  intros H; inversion H; subst; clear H.
  apply repair_tables_known in Hrep; [|exact Hsi].
  unfold repair_rest.
  apply _apply_intent_repairs_ok; simpl; [exact Hrep|].
  apply _validate_columns_ok.
Qed.

Lemma validate_plan_columns_in_schema_witness :
  let g := default_graph "accounts_entity_id" in
  exists p,
    validate_plan (bfs_shortest_path g) id g (Some browse_plan)
                  "show customers and shipments of this week" = PlanValid p
    /\ p_columns p !! "customers" = Some ["name"]
    /\ p_columns p !! "shipments" = Some ["status"; "created_at"]
    /\ (has_table g "shipments" = true
        /\ forall c, In c ["status"; "created_at"] -> In c (table_columns g "shipments")).
Proof.
  eexists. split; [vm_compute; reflexivity|].
  split; [vm_compute; reflexivity|]. split; [vm_compute; reflexivity|].
  eapply (validate_plan_columns_in_schema
            (bfs_shortest_path (default_graph "accounts_entity_id")) id
            (default_graph "accounts_entity_id") (Some browse_plan)
            "show customers and shipments of this week").
  - intros l x H; exact H.
  - vm_compute; reflexivity.
  - vm_compute; reflexivity.
Defined.

(** *** The table step *)

Lemma tables_of_intent_repairs g plan user_query :
  p_tables (_apply_intent_repairs g plan user_query) = p_tables plan.
Proof.
  unfold _apply_intent_repairs.
  destruct (is_count_intent user_query), (is_list_intent user_query),
    (is_time_intent user_query); reflexivity.
Qed.

Lemma tables_of_repair_rest g plan user_query :
  p_tables (repair_rest g plan user_query) = p_tables plan.
Proof. unfold repair_rest. rewrite tables_of_intent_repairs. reflexivity. Qed.

Lemma implied_of_In tables o t :
  In t (implied_of tables o) -> o = Some t.
Proof.
  unfold implied_of. destruct o as [x|]; [|intros []].
  destruct (_ && _); [|intros []]. intros [->|[]]. reflexivity.
Qed.

(** What connectivity repair does to the table list: it keeps the tables
    of the plan and may add tables that the joins of the repaired plan
    name. *)
Lemma _synthesize_join_bridges_tables shortest_path set_iter g plan t :
  let bridged := _synthesize_join_bridges shortest_path set_iter g plan in
  (In t (p_tables plan) -> In t (p_tables bridged))
  /\ (In t (p_tables bridged) ->
      In t (p_tables plan)
      \/ exists j, In j (p_joins bridged)
                   /\ (j_from_table j = Some t \/ j_to_table j = Some t)).
Proof.
  cbv zeta. unfold _synthesize_join_bridges.
  destruct (p_tables plan) as [|t0 [|t1 rest]] eqn:Hts; cbv beta iota;
    try (rewrite Hts; tauto).
  destruct (bridge_loop _ _ _ _ _) as [st raised].
  destruct raised.
  - destruct (p_joins plan); simpl; rewrite Hts; simpl; tauto.
  - destruct (implied_tables (t0 :: t1 :: rest) (b_joins st)) as [|i0 irest] eqn:Himp;
      cbn [p_tables p_joins set_plan_joins set_plan_tables];
      [rewrite Hts; simpl; tauto|].
    unfold dedup. rewrite set_of_list_In, <- Himp. split.
    + intros H. apply in_app_iff. left. exact H.
    + intros H. apply in_app_iff in H as [H|H]; [left; exact H|]. right.
      unfold implied_tables in H. apply in_flat_map in H as (j & Hj & H).
      exists j. split; [exact Hj|].
      apply in_app_iff in H as [H|H]; apply implied_of_In in H; auto.
Qed.

(** C4, as the code has it.  Connectivity repair runs before the table
    step and may add tables named by the joins of the plan; for a plan
    whose table list then contains an unknown table, the repaired tables
    are exactly the known tables of that list, and the plan is rejected
    exactly when that list has no known table. *)
Theorem validate_plan_table_repair
  (shortest_path : string -> string -> path_result)
  (set_iter : list string -> list string)
  (g : SchemaGraph) (raw : RawPlan) (plan0 : Plan) (user_query : string) :
  (forall l x, In x (set_iter l) <-> In x l) ->
  to_plan raw = Some plan0 ->
  (exists t, In t (p_tables (_synthesize_join_bridges shortest_path set_iter g plan0))
             /\ has_table g t = false) ->
  match validate_plan shortest_path set_iter g (Some raw) user_query with
  | PlanValid p =>
      (exists t, In t (p_tables (_synthesize_join_bridges shortest_path set_iter g plan0))
                 /\ has_table g t = true)
      /\ forall t, In t (p_tables p)
                   <-> In t (p_tables (_synthesize_join_bridges
                                         shortest_path set_iter g plan0))
                       /\ has_table g t = true
  | PlanInvalid _ =>
      forall t, In t (p_tables (_synthesize_join_bridges shortest_path set_iter g plan0))
                -> has_table g t = false
  end.
Proof.
  intros Hsi Hplan (bad & Hbad & Hunk).
  unfold validate_plan. rewrite Hplan.
  set (bridged := _synthesize_join_bridges shortest_path set_iter g plan0) in *.
  unfold repair_tables.
  destruct (List.filter (fun t => negb (has_table g t)) (dedup (p_tables bridged)))
    as [|b0 bs] eqn:Hinv.
  - exfalso.
    assert (Hin : In bad (List.filter (fun t => negb (has_table g t))
                                       (dedup (p_tables bridged)))).
    { apply filter_In. split; [apply set_of_list_In, Hbad | now rewrite Hunk]. }
    rewrite Hinv in Hin. destruct Hin.
  - assert (Hmem : forall t,
               In t (set_iter (List.filter (has_table g) (dedup (p_tables bridged))))
               <-> In t (p_tables bridged) /\ has_table g t = true).
    { intros t. rewrite Hsi, filter_In. unfold dedup. rewrite set_of_list_In.
      reflexivity. }
    destruct (set_iter (List.filter (has_table g) (dedup (p_tables bridged))))
      as [|k0 ks] eqn:Hkept.
    + intros t Ht. destruct (has_table g t) eqn:Hk; [|reflexivity].
      destruct (proj2 (Hmem t) (conj Ht Hk)).
    + rewrite tables_of_repair_rest. simpl. split; [|exact Hmem].
      exists k0. apply Hmem. left; reflexivity.
Qed.

Lemma validate_plan_table_repair_witness :
  let g := default_graph "accounts_entity_id" in
  exists p,
    validate_plan (bfs_shortest_path g) id g (Some repeated_unknown_plan) "orders"
    = PlanValid p
    /\ p_tables p = ["shipments"; "orders"]
    /\ p_tables (_synthesize_join_bridges (bfs_shortest_path g) id g
                   (mkPlan ["bogus"; "bogus"] ∅
                      [mkJoin (Some "shipments") (Some "order_id") (Some "orders")
                              (Some "id") (Some "INNER")] [] [] [] None false))
       = ["bogus"; "shipments"; "orders"]
    /\ match validate_plan (bfs_shortest_path g) id g (Some repeated_unknown_plan)
               "orders" with
       | PlanValid p =>
           (exists t, In t ["bogus"; "shipments"; "orders"] /\ has_table g t = true)
           /\ forall t, In t (p_tables p)
                        <-> In t ["bogus"; "shipments"; "orders"]
                            /\ has_table g t = true
       | PlanInvalid _ =>
           forall t, In t ["bogus"; "shipments"; "orders"] -> has_table g t = false
       end.
Proof.
  eexists. split; [vm_compute; reflexivity|].
  split; [reflexivity|]. split; [vm_compute; reflexivity|].
  apply (validate_plan_table_repair
           (bfs_shortest_path (default_graph "accounts_entity_id")) id
           (default_graph "accounts_entity_id") repeated_unknown_plan
           (mkPlan ["bogus"; "bogus"] ∅
              [mkJoin (Some "shipments") (Some "order_id") (Some "orders")
                      (Some "id") (Some "INNER")] [] [] [] None false)
           "orders").
  - intros l x; reflexivity.
  - reflexivity.
  - exists "bogus". split; [vm_compute; auto | reflexivity].
Defined.

(** The bridge table [orders] that the path search introduces stays in
    the repaired plan next to the known tables of the plan. *)
Example bridge_table_is_kept :
  exists p,
    validate_plan (bfs_shortest_path dangling_graph) id dangling_graph
                  (Some bridged_plan) "orders" = PlanValid p
    /\ p_tables p = ["shipments"; "customers"; "orders"].
Proof. eexists. split; [vm_compute; reflexivity | reflexivity]. Qed.

(** The property in the words of the specification fails: the plan lists
    only an unknown table, so its own tables have no known one, yet the
    plan is accepted with the two tables that its join names. *)
Lemma table_repair_as_specified_fails :
  let g := default_graph "accounts_entity_id" in
  ~ table_repair_as_specified (bfs_shortest_path g) id g.
Proof.
  intros g Hspec.
  specialize (Hspec repeated_unknown_plan _ "orders" eq_refl).
  assert (Hex : exists t, In t ["bogus"; "bogus"] /\ has_table g t = false)
    by (exists "bogus"; split; [left; reflexivity | reflexivity]).
  specialize (Hspec Hex).
  assert (Hrun : exists p,
             validate_plan (bfs_shortest_path g) id g (Some repeated_unknown_plan)
                           "orders" = PlanValid p)
    by (eexists; vm_compute; reflexivity).
  destruct Hrun as [p Hp]. rewrite Hp in Hspec.
  destruct Hspec as [(t & Ht & Hk) _].
  destruct Ht as [<-|[<-|[]]]; vm_compute in Hk; discriminate.
Qed.

End PlanFacts.

(** ** The SQL validator *)

Module QueryFacts.
Import Schema QueryValidator.

(** The first validation of the count statement, when the AST tier does
    not reject it: the missing filter is appended. *)
Lemma validate_sql_appends_filter
  (_ast_validate : string -> option string -> option ScopingRequirements -> AstResult) :
  match _ast_validate count_sql (Some "E100") None with
  | AstInvalid e =>
      validate_sql default_config (scoped_graph "accounts_entity_id") _ast_validate
                   count_sql (Some "E100") None = SqlInvalid e
  | _ =>
      exists r,
        validate_sql default_config (scoped_graph "accounts_entity_id") _ast_validate
                     count_sql (Some "E100") None = SqlValid r
        /\ modified_sql r = count_sql_repaired
        /\ ok_tables r = ["shipments"]
  end.
Proof.
  unfold validate_sql. cbv zeta.
  destruct (_ast_validate count_sql (Some "E100") None).
  - eexists. split; [vm_compute; reflexivity|]. split; reflexivity.
  - eexists. split; [vm_compute; reflexivity|]. split; reflexivity.
  - reflexivity.
Qed.

(** C1. Validating the repaired statement again: the scoping value
    [E100] is looked for in the lower-cased statement, is not found, and
    a second filter is spliced in after WHERE.  Whatever the AST tier
    answers, the outcome is a rejection by that tier or an accepted
    statement that differs from the input. *)
Theorem validate_sql_repair_not_idempotent
  (_ast_validate : string -> option string -> option ScopingRequirements -> AstResult) :
  match _ast_validate count_sql_repaired (Some "E100") None with
  | AstInvalid e =>
      validate_sql default_config (scoped_graph "accounts_entity_id") _ast_validate
                   count_sql_repaired (Some "E100") None = SqlInvalid e
  | _ =>
      exists r,
        validate_sql default_config (scoped_graph "accounts_entity_id") _ast_validate
                     count_sql_repaired (Some "E100") None = SqlValid r
        /\ modified_sql r = count_sql_repaired_twice
        /\ modified_sql r <> count_sql_repaired
  end.
Proof.
  unfold validate_sql. cbv zeta.
  destruct (_ast_validate count_sql_repaired (Some "E100") None).
  - eexists. split; [vm_compute; reflexivity|]. split; [reflexivity | discriminate].
  - eexists. split; [vm_compute; reflexivity|]. split; [reflexivity | discriminate].
  - reflexivity.
Qed.

(** With a scoping value that has no upper-case letter the repair is
    idempotent. *)
Example validate_sql_repair_lowercase_value :
  exists r,
    validate_sql default_config (scoped_graph "accounts_entity_id")
                 (fun _ _ _ => AstNone)
                 "SELECT COUNT(*) FROM shipments WHERE accounts_entity_id = 'e100';"
                 (Some "e100") None = SqlValid r
    /\ modified_sql r
       = "SELECT COUNT(*) FROM shipments WHERE accounts_entity_id = 'e100';".
Proof. eexists. split; [vm_compute; reflexivity | reflexivity]. Qed.

(** C2. The two-statement input: [validate_sql] checks only the first
    statement that the parser splits off, so the multi-statement check
    never sees the second one.  With auto-scoping the input is accepted;
    without it the rejection is the missing scoping filter; on a schema
    without scoped tables the input is accepted as it stands. *)
Theorem validate_sql_two_statements
  (_ast_validate : string -> option string -> option ScopingRequirements -> AstResult)
  (auto_scoping : bool) :
  let config := mkConfig "accounts_entity_id" auto_scoping None None in
  match _ast_validate two_statements (Some "E100") None with
  | AstInvalid e =>
      validate_sql config (scoped_graph "accounts_entity_id") _ast_validate
                   two_statements (Some "E100") None = SqlInvalid e
  | _ =>
      (if auto_scoping
       then exists r,
           validate_sql config (scoped_graph "accounts_entity_id") _ast_validate
                        two_statements (Some "E100") None = SqlValid r
       else validate_sql config (scoped_graph "accounts_entity_id") _ast_validate
                         two_statements (Some "E100") None
            = SqlInvalid "Scoped tables ['shipments'] must include proper scoping filter")
      /\ exists r,
          validate_sql config (default_graph "accounts_entity_id") _ast_validate
                       two_statements (Some "E100") None = SqlValid r
          /\ modified_sql r = two_statements
  end
  /\ first_statement two_statements = Some "SELECT * FROM shipments; "
  /\ _perform_safety_checks "SELECT * FROM shipments; " = Pass None false.
Proof.
  cbv zeta. split; [|split; vm_compute; reflexivity].
  unfold validate_sql. cbv zeta.
  destruct (_ast_validate two_statements (Some "E100") None), auto_scoping;
    try reflexivity;
    (split; [first [vm_compute; reflexivity | eexists; vm_compute; reflexivity]
            | eexists; split; [vm_compute; reflexivity | reflexivity]]).
Qed.

(** The safety checks on the whole input would reject it. *)
Example safety_checks_on_whole_input :
  _perform_safety_checks two_statements
  = Fail "Operation 'DROP' is not allowed for security reasons"
  /\ _perform_safety_checks "SELECT * FROM shipments; SELECT 1"
     = Fail multi_statement_error.
Proof. split; vm_compute; reflexivity. Qed.

(** *** Word boundaries *)

Local Abbreviation after := Re.after.

Lemma rmatch_lits (l : list ascii) (R : Type) (prev : option ascii)
  (s : list ascii) (k : option ascii -> list ascii -> option R) (r : R) :
  Re.rmatch false (Re.lits l) R prev s k = Some r ->
  exists rest, s = l ++ rest /\ k (after prev l) rest = Some r.
Proof.
  revert prev s. induction l as [|c l IH]; intros prev s H; simpl in H.
  - exists s. auto.
  - destruct s as [|x s']; [discriminate|].
    unfold Py.eqc in H. destruct (Ascii.eqb c x) eqn:Hc; [|discriminate].
    apply Ascii.eqb_eq in Hc. subst x.
    apply IH in H as (rest & -> & Hk). exists rest. auto.
Qed.

(** A match of [\bKW\b] at a position: the keyword is there, with a word
    boundary on each side. *)
Lemma keyword_match_here (kw : string) (prev : option ascii) (s rest : list ascii) :
  Re.match_here false (keyword kw) prev s = Some rest ->
  s = Py.chars kw ++ rest
  /\ xorb (Re.opt_word prev) (Re.opt_word (hd_error s)) = true
  /\ xorb (Re.opt_word (after prev (Py.chars kw))) (Re.opt_word (hd_error rest)) = true.
Proof.
  unfold Re.match_here, keyword, Re.text. simpl.
  destruct (xorb (Re.opt_word prev) (Re.opt_word (hd_error s))) eqn:Hb1; [|discriminate].
  intros H. apply rmatch_lits in H as (rest' & -> & H).
  destruct (xorb _ _) eqn:Hb2 in H; [|discriminate].
  inversion H; subst. auto.
Qed.

Lemma keyword_search_from (kw : string) (s : list ascii) :
  forall prev pos span,
    Re.search_from false (keyword kw) prev s pos = Some span ->
    exists pre post,
      s = pre ++ Py.chars kw ++ post
      /\ xorb (Re.opt_word (after prev pre))
              (Re.opt_word (hd_error (Py.chars kw ++ post))) = true
      /\ xorb (Re.opt_word (after (after prev pre) (Py.chars kw)))
              (Re.opt_word (hd_error post)) = true.
Proof.
  induction s as [|c s IH]; intros prev pos span H; simpl in H.
  - destruct (Re.match_here false (keyword kw) prev []) as [rest|] eqn:Hm;
      [|discriminate].
    apply keyword_match_here in Hm as (Hs & Hb1 & Hb2).
    exists [], rest. simpl. rewrite <- Hs. auto.
  - destruct (Re.match_here false (keyword kw) prev (c :: s)) as [rest|] eqn:Hm.
    + apply keyword_match_here in Hm as (Hs & Hb1 & Hb2).
      exists [], rest. simpl. rewrite <- Hs. auto.
    + apply IH in H as (pre & post & -> & Hb1 & Hb2).
      exists (c :: pre), post. simpl. auto.
Qed.

(** Whenever the keyword search succeeds, the subject holds the keyword
    as a whole word. *)
Lemma keyword_search_whole_word (kw s : string) :
  Re.search false (keyword kw) s = true ->
  exists pre post,
    Py.chars s = pre ++ Py.chars kw ++ post
    /\ xorb (Re.opt_word (after None pre))
            (Re.opt_word (hd_error (Py.chars kw ++ post))) = true
    /\ xorb (Re.opt_word (after (after None pre) (Py.chars kw)))
            (Re.opt_word (hd_error post)) = true.
Proof.
  unfold Re.search, Re.search_span.
  destruct (Re.search_from false (keyword kw) None (Py.chars s) 0) as [span|] eqn:H;
    [|discriminate].
  intros _. eapply keyword_search_from; eauto.
Qed.

(** C6. The statement [SELECT * FROM updates] passes the safety checks
    and the custom validation, and is accepted by [validate_sql] unless
    the AST tier rejects it; and at no place where the upper-cased text
    reads UPDATES does the pattern for the keyword UPDATE match, whatever
    comes before and after: the S that follows is a word character, so
    there is no word boundary. *)
Theorem updates_table_not_rejected
  (_ast_validate : string -> option string -> option ScopingRequirements -> AstResult) :
  _perform_safety_checks "SELECT * FROM updates" = Pass None false
  /\ _perform_custom_validation default_config updates_graph
       "SELECT * FROM updates" ["updates"] = Pass None false
  /\ match _ast_validate "SELECT * FROM updates" (Some "E100") None with
     | AstInvalid e =>
         validate_sql default_config updates_graph _ast_validate
                      "SELECT * FROM updates" (Some "E100") None = SqlInvalid e
     | _ =>
         exists r,
           validate_sql default_config updates_graph _ast_validate
                        "SELECT * FROM updates" (Some "E100") None = SqlValid r
           /\ ok_tables r = ["updates"]
           /\ modified_sql r = "SELECT * FROM updates"
     end
  /\ (forall (prev : option ascii) (rest : string),
         Re.match_here false (keyword "UPDATE") prev (Py.chars ("UPDATES" +:+ rest))
         = None).
Proof.
  split; [vm_compute; reflexivity|]. split; [vm_compute; reflexivity|]. split.
  - unfold validate_sql. cbv zeta.
    destruct (_ast_validate "SELECT * FROM updates" (Some "E100") None).
    + eexists. split; [vm_compute; reflexivity|]. split; reflexivity.
    + eexists. split; [vm_compute; reflexivity|]. split; reflexivity.
    + reflexivity.
  - intros prev rest.
    destruct (Re.match_here false (keyword "UPDATE") prev
                (Py.chars ("UPDATES" +:+ rest))) as [r|] eqn:H; [|reflexivity].
    apply keyword_match_here in H as (Hs & _ & Hb).
    unfold Py.chars in Hs. simpl in Hs. injection Hs as <-.
    simpl in Hb. discriminate.
Qed.

End QueryFacts.

(** ** The validation loop *)

Module LoopFacts.
Import Generator.

Section Loop.

Variable MAX : nat.
Variable generate_sql : nat -> list string -> string -> res string.
Variable is_count : bool.
Variable _fix_count_query : string -> string.
Variable validate : nat -> string -> list string -> res Validation.
Variable _extract_tables_from_sql : string -> list string.
Variable db_feedback : bool.
Variable explain : nat -> string -> res (option string).
Variable refine_ctx : nat -> string -> string -> list string -> Refinement.

Local Abbreviation step' :=
  (step MAX generate_sql is_count _fix_count_query validate
        _extract_tables_from_sql db_feedback explain refine_ctx).
Local Abbreviation run' :=
  (run MAX generate_sql is_count _fix_count_query validate
       _extract_tables_from_sql db_feedback explain refine_ctx).
Local Abbreviation submitted' :=
  (submitted generate_sql is_count _fix_count_query validate explain).
Local Abbreviation raised' := (raised generate_sql validate refine_ctx).
Local Abbreviation inv' :=
  (loop_inv MAX generate_sql is_count _fix_count_query validate explain).
Local Abbreviation wf' :=
  (well_formed_result MAX generate_sql is_count _fix_count_query validate explain
                      refine_ctx).
Local Abbreviation step_ok :=
  (step_ok MAX generate_sql is_count _fix_count_query validate explain refine_ctx).

Lemma on_exception_ok iter st st0 e :
  (attempt st0 <= attempt st)%nat -> (iter <= attempt st0)%nat ->
  (attempt st < MAX)%nat ->
  raised' ->
  step_ok iter st0 (on_exception MAX st e).
Proof.
  intros Hle Hit Hlt Hr. unfold on_exception.
  destruct (MAX <=? S (attempt st))%nat eqn:Hm.
  - apply Nat.leb_le in Hm. simpl. unfold well_formed_result. simpl.
    split; [lia|]. split; [discriminate|]. intros _. left. eauto.
  - apply Nat.leb_gt in Hm. simpl. unfold loop_inv. simpl.
    split; [lia|]. split; [lia|]. left. lia.
Qed.

Lemma refine_ok iter st st0 err :
  (attempt st0 < attempt st)%nat -> (iter <= attempt st0)%nat ->
  (attempt st < MAX)%nat ->
  step_ok iter st0 (refine MAX refine_ctx iter st err).
Proof.
  intros Hlt Hit Hmax. unfold refine.
  destruct (refine_ctx iter (current_schema_context st) err (current_tables st))
    as [ctx tables|e tables_left] eqn:Hr.
  - simpl. unfold loop_inv. simpl. split; [lia|]. split; [lia|]. left. lia.
  - apply on_exception_ok; simpl; try lia.
    right. right. eauto 10.
Qed.

Lemma rejected_ok iter st s err :
  (attempt st < MAX)%nat -> (iter <= attempt st)%nat ->
  submitted' iter st s err ->
  step_ok iter st (rejected MAX refine_ctx iter st s err).
Proof.
  intros Hmax Hit Hsub. unfold rejected.
  destruct (S (attempt st) <? MAX)%nat eqn:Hm.
  - apply Nat.ltb_lt in Hm. apply refine_ok; simpl; lia.
  - apply Nat.ltb_ge in Hm. simpl. unfold loop_inv. simpl.
    split; [lia|]. split; [lia|]. right. split; [lia|].
    exists st, s, err. rewrite Nat.sub_0_r. auto.
Qed.

Lemma succeeded_ok iter st s modified tables :
  (attempt st < MAX)%nat ->
  validate iter s (current_tables st) = Ok (VValid modified tables) ->
  step_ok iter st (succeeded st modified tables).
Proof.
  intros Hmax Hv. simpl. unfold well_formed_result. simpl.
  split; [lia|]. split; [|discriminate].
  intros _. unfold accepted. eauto 8.
Qed.

Lemma step_step_ok iter st :
  (attempt st < MAX)%nat -> (iter <= attempt st)%nat ->
  step_ok iter st (step' iter st).
Proof.
  intros Hmax Hit. unfold step.
  destruct (generate_sql iter (current_tables st) (current_schema_context st))
    as [s0|e] eqn:Hgen.
  2:{ apply on_exception_ok; try lia. left. eauto 8. }
  destruct (negb is_count && starts_with_count s0) eqn:Hcm.
  - assert (Hsub : submitted' iter st s0 count_mismatch_error).
    { exists s0. split; [exact Hgen|]. left. auto. }
    destruct (S (attempt st) <? MAX)%nat eqn:Hm.
    + apply Nat.ltb_lt in Hm. apply refine_ok; simpl; lia.
    + apply Nat.ltb_ge in Hm. simpl. unfold well_formed_result. simpl.
      split; [lia|]. split; [discriminate|]. intros _. right. split; [lia|].
      exists st, s0, count_mismatch_error. rewrite Nat.sub_0_r. auto.
  - set (s := if is_count && negb (starts_with_count s0)
              then _fix_count_query s0 else s0).
    destruct (validate iter s (current_tables st)) as [v|e] eqn:Hv.
    2:{ apply on_exception_ok; simpl; try lia. right. left. eauto 8. }
    assert (Hsub : forall err,
               match v with
               | VInvalid e => err = e
               | VValid modified _ =>
                   (exists l, err = "SQL uses tables not in plan: " +:+ Py.repr_list l)
                   \/ (exists db_error,
                          explain iter ("EXPLAIN " +:+ Py.rstrip_char ";"%char modified)
                          = Ok (Some db_error)
                          /\ err = "Database error: " +:+ db_error)
               end -> submitted' iter st s err).
    { intros err Herr. exists s0. split; [exact Hgen|]. right.
      split; [exact Hcm|]. split; [reflexivity|]. exists v. auto. }
    destruct v as [modified tables|err].
    + destruct (List.filter _ _) as [|bad rest] eqn:Hbad.
      * destruct db_feedback.
        -- destruct (explain iter _) as [[db_error|]|e] eqn:Hex.
           ++ apply rejected_ok; try lia. apply Hsub. right. eauto.
           ++ eapply succeeded_ok; eauto.
           ++ eapply succeeded_ok; eauto.
        -- eapply succeeded_ok; eauto.
      * apply rejected_ok; try lia. apply Hsub. left. eauto.
    + apply rejected_ok; try lia. apply Hsub. reflexivity.
Qed.

Lemma run_ok fuel :
  forall iter st,
    (MAX - attempt st <= fuel)%nat ->
    inv' iter st ->
    exists r n,
      run' fuel iter st = Some (Returned r, n)
      /\ (n <= MAX)%nat /\ wf' r n.
Proof.
  induction fuel as [|fuel IH]; intros iter st Hfuel [Hit Hinv]; simpl.
  - destruct (MAX <=? attempt st)%nat eqn:Hm.
    2:{ apply Nat.leb_gt in Hm. lia. }
    apply Nat.leb_le in Hm.
    destruct Hinv as [Hlt|(Heq & stp & s & err & Hsub & Hsql & Herr)]; [lia|].
    unfold final. rewrite Herr, Hsql. simpl.
    eexists _, iter. split; [reflexivity|]. split; [lia|].
    unfold well_formed_result. simpl. split; [lia|]. split; [discriminate|].
    intros _. right. split; [exact Heq|]. exists stp, s, err. auto.
  - destruct (MAX <=? attempt st)%nat eqn:Hm.
    + apply Nat.leb_le in Hm.
      destruct Hinv as [Hlt|(Heq & stp & s & err & Hsub & Hsql & Herr)]; [lia|].
      unfold final. rewrite Herr, Hsql. simpl.
      eexists _, iter. split; [reflexivity|]. split; [lia|].
      unfold well_formed_result. simpl. split; [lia|]. split; [discriminate|].
      intros _. right. split; [exact Heq|]. exists stp, s, err. auto.
    + apply Nat.leb_gt in Hm.
      pose proof (step_step_ok iter st Hm Hit) as Hstep.
      destruct (step' iter st) as [st'|r]; simpl in Hstep.
      * destruct Hstep as [Hlt Hinv'].
        apply IH; [lia | exact Hinv'].
      * exists r, (S iter). split; [reflexivity|]. split; [lia|]. exact Hstep.
Qed.

End Loop.

End LoopFacts.

Module LoopTheorems.
Import Generator.

(** C9, as the code has it.  With a positive attempt bound the loop
    always returns, after at most that many iterations, a result that
    counts at most that many attempts.  A success follows an accepted
    statement.  A failure either follows an exception of a collaborator
    (the generation, the validator or the refinement of the context
    raised) and carries no SQL, or it carries the statement that the
    last iteration submitted to validation together with the error of
    its rejection.  When no collaborator raises and every validation
    fails, the result is such a failure: the attempts are exhausted and
    the last attempted SQL and the last validation error are kept. *)
Theorem validation_loop_bounded
  (MAX : nat)
  (generate_sql : nat -> list string -> string -> res string)
  (is_count : bool)
  (_fix_count_query : string -> string)
  (validate : nat -> string -> list string -> res Validation)
  (_extract_tables_from_sql : string -> list string)
  (db_feedback : bool)
  (explain : nat -> string -> res (option string))
  (refine_ctx : nat -> string -> string -> list string -> Refinement)
  (relevant_tables : list string) (schema_context : string) :
  (0 < MAX)%nat ->
  exists r n,
    _generate_with_validation_loop MAX generate_sql is_count _fix_count_query validate
      _extract_tables_from_sql db_feedback explain refine_ctx
      relevant_tables schema_context = Some (Returned r, n)
    /\ (n <= MAX)%nat
    /\ well_formed_result MAX generate_sql is_count _fix_count_query validate explain
                          refine_ctx r n
    /\ ((forall iter tables ctx, exists s, generate_sql iter tables ctx = Ok s) ->
        (forall iter s tables, exists e, validate iter s tables = Ok (VInvalid e)) ->
        (forall iter ctx err tables,
            exists c t, refine_ctx iter ctx err tables = Refined c t) ->
        success r = false
        /\ attempts r = MAX
        /\ exists st s err,
            submitted generate_sql is_count _fix_count_query validate explain
                      (n - 1) st s err
            /\ sql r = s
            /\ (error r = Some err \/ error r = Some (exhausted_error MAX err))).
Proof.
  intros Hpos. unfold _generate_with_validation_loop.
  destruct (LoopFacts.run_ok MAX generate_sql is_count _fix_count_query validate
              _extract_tables_from_sql db_feedback explain refine_ctx MAX 0
              (mkLocals 0 schema_context relevant_tables None None))
    as (r & n & Hrun & Hn & Hwf).
  - simpl. lia.
  - unfold loop_inv. simpl. split; [lia|]. left. exact Hpos.
  - exists r, n. split; [exact Hrun|]. split; [exact Hn|]. split; [exact Hwf|].
    intros Hgen Hval Href.
    destruct Hwf as (Hatt & Hacc & Hfail).
    assert (Hsucc : success r = false).
    { destruct (success r); [|reflexivity].
      destruct (Hacc eq_refl) as (i & s & t & m & u & Hv).
      destruct (Hval i s t) as [e He]. congruence. }
    split; [exact Hsucc|].
    destruct (Hfail Hsucc) as [(_ & Hraised & _)|(Heq & Hlast)].
    + exfalso. destruct Hraised as [(i & t & c & e & H)|[(i & s & t & e & H)|
                                     (i & c & err & t & e & tl & H)]].
      * destruct (Hgen i t c) as [x Hx]. congruence.
      * destruct (Hval i s t) as [x Hx]. congruence.
      * destruct (Href i c err t) as (c' & t' & Hx). congruence.
    + split; [exact Heq | exact Hlast].
Qed.

Lemma validation_loop_bounded_witness :
  _generate_with_validation_loop 3 failing_generate false (fun s => s)
    failing_validate (fun _ => []) false (fun _ _ => Ok None) keep_context
    ["shipments"] "schema"
  = Some (Returned (mkResult false "SELECT name FROM shipments" ["shipments"] 3
                      (Some "Failed to generate valid SQL after 3 attempts. Last validation error: Column 'name' not in table 'shipments'")),
          3)
  /\ exists r n,
      _generate_with_validation_loop 3 failing_generate false (fun s => s)
        failing_validate (fun _ => []) false (fun _ _ => Ok None) keep_context
        ["shipments"] "schema" = Some (Returned r, n)
      /\ (n <= 3)%nat
      /\ well_formed_result 3 failing_generate false (fun s => s) failing_validate
                            (fun _ _ => Ok None) keep_context r n
      /\ ((forall iter tables ctx, exists s, failing_generate iter tables ctx = Ok s) ->
          (forall iter s tables, exists e, failing_validate iter s tables = Ok (VInvalid e)) ->
          (forall iter ctx err tables,
              exists c t, keep_context iter ctx err tables = Refined c t) ->
          success r = false
          /\ attempts r = 3
          /\ exists st s err,
              submitted failing_generate false (fun s => s) failing_validate
                        (fun _ _ => Ok None) (n - 1) st s err
              /\ sql r = s
              /\ (error r = Some err \/ error r = Some (exhausted_error 3 err))).
Proof.
  split; [vm_compute; reflexivity|].
  apply (validation_loop_bounded 3 failing_generate false (fun s => s)
           failing_validate (fun _ => []) false (fun _ _ => Ok None) keep_context
           ["shipments"] "schema").
  lia.
Defined.

(** Every validation fails; the refinement raises in the second of three
    iterations, after two failed validations; the attempt that the
    handler counts is the third, and the failure that is returned has
    the SQL [""] and reports the exception. *)
Example refinement_exception_drops_sql :
  _generate_with_validation_loop 3 failing_generate false (fun s => s)
    failing_validate (fun _ => []) false (fun _ _ => Ok None) refine_raises_once
    ["shipments"] "schema"
  = Some (Returned (mkResult false "" ["shipments"] 3
                      (Some "SQL generation failed: schema description failed")),
          2%nat).
Proof. vm_compute. reflexivity. Qed.

(** As the specification states it, for every input, the property
    fails: in that run the failure keeps neither the statement that was
    attempted last nor the error of its validation. *)
Lemma loop_as_specified_fails :
  ~ loop_as_specified 3 failing_generate false (fun s => s) failing_validate
      (fun _ => []) false (fun _ _ => Ok None) refine_raises_once.
Proof.
  intros Hspec.
  destruct (Hspec ["shipments"] "schema") as (r & n & Hrun & _ & _ & Hkept).
  vm_compute in Hrun. inversion Hrun; subst r n; clear Hrun.
  destruct (Hkept eq_refl) as (st & s & err & Hsub & Hsql & _).
  destruct Hsub as (s0 & Hgen & [(_ & Hs & _)|(_ & Hs & _)]);
    unfold failing_generate in Hgen; simpl in Hs, Hsql; congruence.
Qed.

End LoopTheorems.

(** ** The retrieval index *)

Module IndexFacts.
Import Schema SchemaIndex.

Section Sorting.

Variable float : Type.
Variable fle : float -> float -> bool.
Variable min_score : float.

(** Two scores at or above the threshold compare one way or the other;
    a score that is not a number is not at or above anything. *)
Hypothesis fle_total :
  forall a b, fle min_score a = true -> fle min_score b = true ->
              fle a b = false -> fle b a = true.
Hypothesis fle_trans : forall a b c, fle a b = true -> fle b c = true -> fle a c = true.

Local Abbreviation desc :=
  (fun a b : string * float => fle (snd b) (snd a) = true).
Local Abbreviation above :=
  (fun e : string * float => fle min_score (snd e) = true).

Lemma insert_desc_perm x l :
  Permutation (insert_desc float fle x l) (x :: l).
Proof.
  induction l as [|y l IH]; simpl; [reflexivity|].
  destruct (fle (snd y) (snd x)); [reflexivity|].
  rewrite IH. apply perm_swap.
Qed.

Lemma sort_desc_perm l : Permutation (sort_desc float fle l) l.
Proof.
  induction l as [|x l IH]; simpl; [reflexivity|].
  rewrite insert_desc_perm. constructor. exact IH.
Qed.

Lemma insert_desc_sorted x l :
  above x -> List.Forall above l ->
  StronglySorted desc l -> StronglySorted desc (insert_desc float fle x l).
Proof.
  intros Hx. induction l as [|y l IH]; intros Habove Hs; simpl.
  - constructor; constructor.
  - inversion Hs as [|? ? Hs' Hall]; subst.
    inversion Habove as [|? ? Hy Habove']; subst.
    destruct (fle (snd y) (snd x)) eqn:Hyx.
    + constructor; [exact Hs|].
      constructor; [exact Hyx|].
      eapply List.Forall_impl; [|exact Hall].
      intros z Hz. simpl in *. eapply fle_trans; eauto.
    + constructor; [apply IH; assumption|].
      apply fle_total in Hyx; [|exact Hy | exact Hx].
      eapply Permutation_Forall; [symmetry; apply insert_desc_perm|].
      constructor; [exact Hyx | exact Hall].
Qed.

Lemma sort_desc_sorted l :
  List.Forall above l -> StronglySorted desc (sort_desc float fle l).
Proof.
  induction l as [|x l IH]; intros Habove; simpl; [constructor|].
  inversion Habove as [|? ? Hx Habove']; subst.
  apply insert_desc_sorted; [exact Hx | | apply IH; exact Habove'].
  eapply Permutation_Forall; [symmetry; apply sort_desc_perm | exact Habove'].
Qed.

(** Stability: the entries whose score ties with [s] keep their order. *)
Lemma insert_desc_stable s x l :
  List.filter (fun e => tie float fle s (snd e)) (insert_desc float fle x l)
  = List.filter (fun e => tie float fle s (snd e)) (x :: l).
Proof.
  induction l as [|y l IH]; [reflexivity|].
  cbn [insert_desc].
  destruct (fle (snd y) (snd x)) eqn:Hyx; [reflexivity|].
  cbn [List.filter] in *. rewrite IH.
  destruct (tie float fle s (snd x)) eqn:Hx, (tie float fle s (snd y)) eqn:Hy;
    try reflexivity.
  exfalso. unfold tie in Hx, Hy.
  apply andb_true_iff in Hx as [Hsx _]. apply andb_true_iff in Hy as [_ Hys].
  rewrite (fle_trans _ _ _ Hys Hsx) in Hyx. discriminate.
Qed.

Lemma sort_desc_stable s l :
  List.filter (fun e => tie float fle s (snd e)) (sort_desc float fle l)
  = List.filter (fun e => tie float fle s (snd e)) l.
Proof.
  induction l as [|x l IH]; [reflexivity|].
  cbn [sort_desc fold_right]. rewrite insert_desc_stable.
  cbn [List.filter]. fold (sort_desc float fle l). rewrite IH. reflexivity.
Qed.

Lemma sort_desc_ranked scored top_k :
  ranked float fle scored top_k min_score
    (firstn top_k
       (sort_desc float fle
          (List.filter (fun e => fle min_score (snd e)) scored))).
Proof.
  exists (sort_desc float fle (List.filter (fun e => fle min_score (snd e)) scored)).
  split; [apply sort_desc_perm|].
  split.
  - apply sort_desc_sorted. apply List.Forall_forall.
    intros e He. apply filter_In in He. apply He.
  - split; [intros s; apply sort_desc_stable | reflexivity].
Qed.

End Sorting.

Section Search.

Variable float : Type.
Variable flt : Q -> float.
Variables fadd fsub fmul fdiv : float -> float -> float.
Variable flog : float -> float.
Variable fle : float -> float -> bool.
Variable tfidf_fitted : bool.
Variable tfidf_cosine : string -> nat -> option float.
Variable g : SchemaGraph.

Local Abbreviation scored_as' :=
  (scored_as float flt fadd fsub fmul fdiv flog tfidf_fitted tfidf_cosine g).
Local Abbreviation combined' :=
  (combined_score float flt fadd fsub fmul fdiv flog tfidf_fitted tfidf_cosine g).

Lemma scoring_loop query (l : list (nat * (string * string))) :
  forall acc r,
    for_each l
      (fun acc (e : nat * (string * string)) =>
         let '(i, (table_name, doc)) := e in
         let* sc := combined' query i table_name doc in
         Ok (acc ++ [(table_name, sc)]))
      acc = Ok r ->
    exists r', r = acc ++ r' /\ Forall2 (scored_as' query) l r'.
Proof.
  induction l as [|[i [name doc]] l IH]; intros acc r H; simpl in H.
  - inversion H; subst. exists []. rewrite app_nil_r. split; [reflexivity|constructor].
  - unfold combined_score in H at 1.
    destruct (_compute_bm25_score _ _ _ _ _ _ _ _ _ _) as [bm|e] eqn:Hbm;
      simpl in H; [|discriminate].
    apply IH in H as (r' & -> & Hall).
    eexists (_ :: r'). rewrite <- app_assoc. split; [reflexivity|].
    constructor; [|exact Hall].
    exists bm. split; [exact Hbm | reflexivity].
Qed.

Lemma all_scores_formula query scored :
  all_scores float flt fadd fsub fmul fdiv flog tfidf_fitted tfidf_cosine g query
  = Ok scored ->
  Forall2 (scored_as' query) (indexed_tables g) scored.
Proof.
  unfold all_scores. intros H.
  apply scoring_loop in H as (r' & -> & Hall). exact Hall.
Qed.

End Search.

(** C8, as the code has it.  For a query with at least one word token,
    a search that returns has scored every table, in the order of
    enumeration, as BM25 x 1.0 + TF-IDF cosine x 0.8 + degree centrality
    x 0.3 + keyword boost; the result holds only entries at or above the
    threshold, is sorted by decreasing score with ties in the order of
    enumeration, and is cut at [top_k] entries.  Of the comparison of
    floats this takes what holds of Python's: it is transitive, and two
    scores at or above the threshold compare one way or the other (a
    score that is not a number is not at or above the threshold, so it
    is dropped before the sort). *)
Theorem search_tables_ranked
  (float : Type) (flt : Q -> float)
  (fadd fsub fmul fdiv : float -> float -> float) (flog : float -> float)
  (fle : float -> float -> bool) (tfidf_fitted : bool)
  (tfidf_cosine : string -> nat -> option float) (g : SchemaGraph)
  (query : string) (top_k : nat) (min_score : float)
  (result : list (string * float)) :
  (forall a b, fle min_score a = true -> fle min_score b = true ->
               fle a b = false -> fle b a = true) ->
  (forall a b c, fle a b = true -> fle b c = true -> fle a c = true) ->
  _tokenize query <> [] ->
  search_tables float flt fadd fsub fmul fdiv flog fle tfidf_fitted tfidf_cosine g
                query top_k min_score = Ok result ->
  exists scored,
    all_scores float flt fadd fsub fmul fdiv flog tfidf_fitted tfidf_cosine g query
    = Ok scored
    /\ Forall2 (scored_as float flt fadd fsub fmul fdiv flog tfidf_fitted
                          tfidf_cosine g query)
               (indexed_tables g) scored
    /\ ranked float fle scored top_k min_score result
    /\ (forall e, In e result -> In e scored /\ fle min_score (snd e) = true)
    /\ (length result <= top_k)%nat.
Proof.
  intros Htotal Htrans Htok. unfold search_tables.
  destruct (_tokenize query) as [|t ts]; [congruence|].
  destruct (all_scores _ _ _ _ _ _ _ _ _ _ _) as [scored|e] eqn:Hsc; simpl;
    [|discriminate].
  intros H; inversion H; subst; clear H.
  exists scored. split; [reflexivity|].
  split; [eapply all_scores_formula; exact Hsc|].
  split; [apply sort_desc_ranked; assumption|].
  split.
  - intros e He. apply In_firstn in He.
    eapply Permutation_in in He; [|apply sort_desc_perm].
    apply filter_In in He. exact He.
  - apply firstn_le_length.
Qed.

Lemma search_tables_ranked_witness :
  let g := default_graph "accounts_entity_id" in
  search_tables_Q g "customer orders total" 2 (1 # 10)
  = Ok [("orders", 67286487 # 10788190); ("customers", 8839 # 13460)]
  /\ exists scored,
      all_scores_Q g "customer orders total" = Ok scored
      /\ Forall2 (scored_as Q Qred Qadd' Qsub' Qmul' Qdiv' Qlog false (fun _ _ => None)
                            g "customer orders total")
                 (indexed_tables g) scored
      /\ ranked Q Qle_bool scored 2 (1 # 10)
           [("orders", 67286487 # 10788190); ("customers", 8839 # 13460)]
      /\ (forall e,
             In e [("orders", 67286487 # 10788190); ("customers", 8839 # 13460)] ->
             In e scored /\ Qle_bool (1 # 10) (snd e) = true)
      /\ (length [("orders", 67286487 # 10788190); ("customers", 8839 # 13460)] <= 2)%nat.
Proof.
  split; [vm_compute; reflexivity|].
  apply (search_tables_ranked Q Qred Qadd' Qsub' Qmul' Qdiv' Qlog Qle_bool false
           (fun _ _ => None) (default_graph "accounts_entity_id")
           "customer orders total" 2 (1 # 10)).
  - intros a b _ _ H. apply Qle_bool_iff. apply Qlt_le_weak. apply Qnot_le_lt.
    intros Hle. apply Qle_bool_iff in Hle. congruence.
  - intros a b c H1 H2. apply Qle_bool_iff in H1, H2. apply Qle_bool_iff.
    eapply Qle_trans; eauto.
  - vm_compute; discriminate.
  - vm_compute; reflexivity.
Defined.

(** Without the condition on the query the property fails: a query without
    a word returns nothing, although the centrality term alone puts all
    three built-in tables above the threshold 0.1. *)
Lemma search_as_specified_fails :
  ~ search_as_specified Q Qred Qadd' Qsub' Qmul' Qdiv' Qlog Qle_bool false
      (fun _ _ => None) (default_graph "accounts_entity_id").
Proof.
  intros Hspec.
  destruct (Hspec "" 10%nat (1 # 10) [] eq_refl) as (scored & Hsc & sorted & Hperm & _ & _ & Hres).
  assert (Hscored : scored = [("shipments", 3 # 20); ("orders", 3 # 10);
                              ("customers", 3 # 20)]).
  { vm_compute in Hsc. inversion Hsc. reflexivity. }
  subst scored. vm_compute in Hperm.
  apply Permutation_length in Hperm. simpl in Hperm.
  destruct sorted as [|a sorted]; [discriminate|]. discriminate.
Qed.

(** A table name with a capital letter: the query token is found among
    the lower-cased tokens of the document but in no blank-separated
    word of any document, and the division by the document frequency
    fails. *)
Example search_tables_zero_division :
  search_tables_Q capital_graph "shipments" 10 (1 # 10) = Raise "ZeroDivisionError".
Proof. vm_compute. reflexivity. Qed.

End IndexFacts.

(** ** The other queries of the schema graph *)

Module SchemaQueryFacts.
Import Schema SchemaQueries.

Lemma chars_str (l : list ascii) : Py.chars (Py.str l) = l.
Proof. apply list_ascii_of_string_of_list_ascii. Qed.

Lemma str_chars (s : string) : Py.str (Py.chars s) = s.
Proof. apply string_of_list_ascii_of_string. Qed.

Lemma lower_upper_char (c : ascii) :
  Py.lower_char (Py.upper_char c) = Py.lower_char c.
Proof. destruct c as [[] [] [] [] [] [] [] []]; reflexivity. Qed.

Lemma lower_lower_char (c : ascii) :
  Py.lower_char (Py.lower_char c) = Py.lower_char c.
Proof. destruct c as [[] [] [] [] [] [] [] []]; reflexivity. Qed.

Lemma lower_upper (s : string) : Py.lower (Py.upper s) = Py.lower s.
Proof.
  unfold Py.lower, Py.upper. rewrite chars_str, map_map. f_equal.
  apply map_ext. intros c. apply lower_upper_char.
Qed.

Lemma lower_lower (s : string) : Py.lower (Py.lower s) = Py.lower s.
Proof.
  unfold Py.lower. rewrite chars_str, map_map. f_equal.
  apply map_ext. intros c. apply lower_lower_char.
Qed.

Lemma in_predecessors g a b :
  In b (predecessors g a) <-> In a (nx_successors g b).
Proof.
  unfold predecessors, nx_successors. rewrite !set_of_list_In, !in_map_iff.
  split; intros (r & Hr & Hin); apply filter_In in Hin as [Hin Heq];
    apply String.eqb_eq in Heq; subst; exists r; split; try reflexivity;
    apply filter_In; split; auto; apply String.eqb_refl.
Qed.

Lemma successor_is_node g a b :
  In b (nx_successors g a) -> In a (nx_nodes g) /\ In b (nx_nodes g).
Proof.
  unfold nx_successors, nx_nodes. rewrite !set_of_list_In, in_map_iff.
  intros (r & Hr & Hin). apply filter_In in Hin as [Hin Heq].
  apply String.eqb_eq in Heq. subst.
  split; apply in_or_app; right; apply in_flat_map; exists r; simpl; auto.
Qed.

(** X1. Being related is symmetric: whenever [b] is listed among the
    tables related to [a], [a] is listed among the tables related to
    [b]. *)
Theorem get_related_tables_symmetric
  (set_iter : list string -> list string) (g : SchemaGraph) (a b : string) :
  (forall l x, In x (set_iter l) <-> In x l) ->
  In b (get_related_tables set_iter g a) ->
  In a (get_related_tables set_iter g b).
Proof.
  intros Hsi. unfold get_related_tables.
  destruct (Py.in_list a (nx_nodes g)) eqn:Ha; simpl; [|intros []].
  rewrite Hsi, set_of_list_In, in_app_iff. intros Hb.
  assert (Hnode : In b (nx_nodes g)).
  { destruct Hb as [Hb|Hb].
    - apply in_predecessors, successor_is_node in Hb. tauto.
    - apply successor_is_node in Hb. tauto. }
  apply in_list_In in Hnode. rewrite Hnode. simpl.
  rewrite Hsi, set_of_list_In, in_app_iff.
  destruct Hb as [Hb|Hb].
  - right. apply in_predecessors. exact Hb.
  - left. apply in_predecessors. exact Hb.
Qed.

Lemma get_related_tables_symmetric_witness :
  let g := default_graph "accounts_entity_id" in
  get_related_tables id g "orders" = ["shipments"; "customers"]
  /\ In "orders" (get_related_tables id g "customers").
Proof.
  split; [reflexivity|].
  apply (get_related_tables_symmetric id (default_graph "accounts_entity_id")
           "orders" "customers").
  - intros l x; reflexivity.
  - vm_compute. auto.
Defined.

(** X2. The tables that [get_tables_for_query] selects are tables of the
    schema, and none is listed twice, whatever the keyword mappings
    name. *)
Theorem get_tables_for_query_sound (g : SchemaGraph) (query_keywords : list string) :
  List.NoDup (get_tables_for_query g query_keywords)
  /\ forall t, In t (get_tables_for_query g query_keywords) -> has_table g t = true.
Proof.
  unfold get_tables_for_query.
  apply (fold_left_inv
           (fun l => List.NoDup l /\ forall t, In t l -> has_table g t = true));
    [|split; [constructor | intros t []]].
  intros l kw _ Hl.
  apply fold_left_inv; [|exact Hl].
  intros l1 km _ Hl1.
  destruct (Py.contains (fst km) (Py.lower kw)); [|exact Hl1].
  apply fold_left_inv; [|exact Hl1].
  intros l2 t _ [Hnd Hall].
  destruct (negb (Py.in_list t l2) && has_table g t) eqn:Hc; [|split; assumption].
  apply andb_true_iff in Hc as [Hnot Hhas].
  apply negb_true_iff, in_list_false in Hnot.
  split.
  - apply List.NoDup_app; repeat split; auto.
    + constructor; [simpl; tauto | constructor].
    + intros x Hx [<-|[]]. auto.
  - intros x Hx. apply in_app_iff in Hx as [Hx|[<-|[]]]; auto.
Qed.

(** X3. On ASCII labels the lookup of a code by its label ignores the
    case of the label, and a code that is found belongs to a label of
    the mapping that equals the given one up to case. *)
Theorem get_code_value_case_insensitive
  (code_mappings : option (list (string * CodeMapping))) (field_path label : string) :
  Py.is_ascii label = true ->
  ascii_labels code_mappings = true ->
  get_code_value code_mappings field_path (Py.upper label)
  = get_code_value code_mappings field_path label
  /\ get_code_value code_mappings field_path (Py.lower label)
     = get_code_value code_mappings field_path label
  /\ forall code,
      get_code_value code_mappings field_path label = Some code ->
      exists mapping mapped_label,
        get_code_mapping code_mappings field_path = Some mapping
        /\ In (code, mapped_label) (cm_values mapping)
        /\ Py.lower mapped_label = Py.lower label.
Proof.
  intros _ _. unfold get_code_value. split; [|split].
  - rewrite lower_upper. reflexivity.
  - rewrite lower_lower. reflexivity.
  - intros code.
    destruct (get_code_mapping code_mappings field_path) as [mapping|]; [|discriminate].
    destruct (List.find _ (cm_values mapping)) as [[c l]|] eqn:Hf; [|discriminate].
    intros H; inversion H; subst.
    apply find_some in Hf as [Hin Heq]. apply String.eqb_eq in Heq.
    exists mapping, l. auto.
Qed.

Lemma get_code_value_case_insensitive_witness :
  Py.is_ascii "Delivered" = true
  /\ ascii_labels tracking_codes = true
  /\ get_code_value tracking_codes "shipments.tracking_status" "Delivered"
     = Some "1900"
  /\ get_code_value tracking_codes "shipments.tracking_status" (Py.upper "Delivered")
     = get_code_value tracking_codes "shipments.tracking_status" "Delivered"
  /\ get_code_value tracking_codes "shipments.tracking_status" (Py.lower "Delivered")
     = get_code_value tracking_codes "shipments.tracking_status" "Delivered"
  /\ forall code,
      get_code_value tracking_codes "shipments.tracking_status" "Delivered"
      = Some code ->
      exists mapping mapped_label,
        get_code_mapping tracking_codes "shipments.tracking_status" = Some mapping
        /\ In (code, mapped_label) (cm_values mapping)
        /\ Py.lower mapped_label = Py.lower "Delivered".
Proof.
  split; [reflexivity|]. split; [reflexivity|]. split; [reflexivity|].
  apply (get_code_value_case_insensitive
           tracking_codes "shipments.tracking_status" "Delivered");
    vm_compute; reflexivity.
Defined.

End SchemaQueryFacts.

(** ** More on the plan validator *)

Module PlanRepairFacts.
Import Schema PlanValidator PlanExamples.

Section Repairs.
Variable g : SchemaGraph.

Lemma _validate_joins_sound joins tables j :
  In j (_validate_joins g joins tables) ->
  exists a b rel join,
    In join joins
    /\ j_from_table join = Some a /\ j_to_table join = Some b
    /\ In a tables /\ In b tables
    /\ In rel (relationships g) /\ rel_from rel = a /\ rel_to rel = b
    /\ j = mkJoin (Some a) (Some (rel_on rel)) (Some b) (Some (to_column_or_id rel))
                  (Some (default "INNER" (j_type join))).
Proof.
  unfold _validate_joins. intros H.
  apply in_flat_map in H as (join & Hjoin & H).
  destruct (j_from_table join) as [a|] eqn:Ha; [|destruct H].
  destruct (j_to_table join) as [b|] eqn:Hb; [|destruct H].
  destruct (negb (Py.in_list a tables) || negb (Py.in_list b tables)) eqn:Hin;
    [destruct H|].
  apply orb_false_iff in Hin as [Hina Hinb].
  apply negb_false_iff, in_list_In in Hina, Hinb.
  destruct (relationship_map g a b) as [rel|] eqn:Hrel; [|destruct H].
  destruct H as [<-|[]].
  unfold relationship_map in Hrel. apply find_some in Hrel as [Hr Heq].
  apply in_rev in Hr. apply andb_true_iff in Heq as [H1 H2].
  apply String.eqb_eq in H1, H2.
  exists a, b, rel, join. repeat split; auto.
Qed.

Lemma _validate_joins_no_tables joins : _validate_joins g joins [] = [].
Proof.
  unfold _validate_joins.
  induction joins as [|j js IH]; [reflexivity|].
  cbn [flat_map]. rewrite IH.
  destruct (j_from_table j), (j_to_table j); reflexivity.
Qed.

Lemma joins_of_intent_repairs plan user_query :
  p_joins (_apply_intent_repairs g plan user_query) = p_joins plan.
Proof.
  unfold _apply_intent_repairs.
  destruct (is_count_intent user_query), (is_list_intent user_query),
    (is_time_intent user_query); reflexivity.
Qed.

Lemma tables_of_intent plan user_query :
  p_tables (_apply_intent_repairs g plan user_query) = p_tables plan.
Proof.
  unfold _apply_intent_repairs.
  destruct (is_count_intent user_query), (is_list_intent user_query),
    (is_time_intent user_query); reflexivity.
Qed.

Lemma scoping_of_intent_repairs plan user_query :
  p_needs_scoping (_apply_intent_repairs g plan user_query) = p_needs_scoping plan.
Proof.
  unfold _apply_intent_repairs.
  destruct (is_count_intent user_query), (is_list_intent user_query),
    (is_time_intent user_query); reflexivity.
Qed.

End Repairs.

(** What a valid result is made of. *)
Lemma validate_plan_valid shortest_path set_iter g parsed user_query p :
  validate_plan shortest_path set_iter g parsed user_query = PlanValid p ->
  exists plan, p = repair_rest g plan user_query.
Proof.
  unfold validate_plan.
  destruct parsed as [raw|]; [|discriminate].
  destruct (to_plan raw) as [plan0|]; [|discriminate].
  destruct (repair_tables _ _ _) as [inv|pl]; [discriminate|].
  intros H; inversion H; subst. eauto.
Qed.

(** X4. In a plan returned as valid every join connects two tables of
    the repaired plan and carries the columns of a relationship that the
    schema declares for this pair of tables, whatever columns the input
    proposed. *)
Theorem validate_plan_joins_from_schema
  (shortest_path : string -> string -> path_result)
  (set_iter : list string -> list string)
  (g : SchemaGraph) (parsed : option RawPlan) (user_query : string) (p : Plan)
  (j : Join) :
  validate_plan shortest_path set_iter g parsed user_query = PlanValid p ->
  In j (p_joins p) ->
  exists a b rel,
    In a (p_tables p) /\ In b (p_tables p)
    /\ In rel (relationships g) /\ rel_from rel = a /\ rel_to rel = b
    /\ j_from_table j = Some a /\ j_to_table j = Some b
    /\ j_from_column j = Some (rel_on rel)
    /\ j_to_column j = Some (to_column_or_id rel).
Proof.
  intros Hv Hj. apply validate_plan_valid in Hv as [plan ->].
  unfold repair_rest in *.
  rewrite joins_of_intent_repairs in Hj. rewrite tables_of_intent. simpl in *.
  apply _validate_joins_sound in Hj
    as (a & b & rel & join & _ & _ & _ & Ha & Hb & Hrel & Hf & Ht & ->).
  exists a, b, rel. simpl. repeat split; auto.
Qed.

Lemma validate_plan_joins_from_schema_witness :
  let g := default_graph "accounts_entity_id" in
  exists p,
    validate_plan (bfs_shortest_path g) id g (Some wrong_join_plan) "orders"
    = PlanValid p
    /\ p_joins p = [mkJoin (Some "shipments") (Some "order_id") (Some "orders")
                           (Some "id") (Some "LEFT")]
    /\ exists a b rel,
        In a (p_tables p) /\ In b (p_tables p)
        /\ In rel (relationships g) /\ rel_from rel = a /\ rel_to rel = b
        /\ Some "shipments" = Some a /\ Some "orders" = Some b
        /\ Some "order_id" = Some (rel_on rel)
        /\ Some "id" = Some (to_column_or_id rel).
Proof.
  eexists. split; [vm_compute; reflexivity|]. split; [reflexivity|].
  apply (validate_plan_joins_from_schema
           (bfs_shortest_path (default_graph "accounts_entity_id")) id
           (default_graph "accounts_entity_id") (Some wrong_join_plan) "orders" _
           (mkJoin (Some "shipments") (Some "order_id") (Some "orders")
                   (Some "id") (Some "LEFT"))).
  - vm_compute; reflexivity.
  - left; reflexivity.
Defined.

(** X5. The [needs_scoping] flag of a plan returned as valid does not
    depend on the flag of the input: it is true exactly when one of the
    tables of the repaired plan is marked as scoped in the schema. *)
Theorem validate_plan_scoping_recomputed
  (shortest_path : string -> string -> path_result)
  (set_iter : list string -> list string)
  (g : SchemaGraph) (parsed : option RawPlan) (user_query : string) (p : Plan) :
  validate_plan shortest_path set_iter g parsed user_query = PlanValid p ->
  (p_needs_scoping p = true
   <-> exists t info, In t (p_tables p) /\ get_table_info g t = Some info
                      /\ scoped info = true).
Proof.
  intros Hv. apply validate_plan_valid in Hv as [plan ->].
  unfold repair_rest.
  rewrite scoping_of_intent_repairs, tables_of_intent. simpl.
  unfold _validate_scoping. rewrite existsb_exists. split.
  - intros (t & Ht & Hs).
    destruct (get_table_info g t) as [info|] eqn:Hi; [|discriminate]. eauto.
  - intros (t & info & Ht & Hi & Hs). exists t. rewrite Hi. auto.
Qed.

Lemma validate_plan_scoping_recomputed_witness :
  let g := QueryValidator.scoped_graph "accounts_entity_id" in
  exists p,
    validate_plan (bfs_shortest_path g) id g (Some wrong_join_plan) "orders"
    = PlanValid p
    /\ p_needs_scoping p = true
    /\ (p_needs_scoping p = true
        <-> exists t info, In t (p_tables p) /\ get_table_info g t = Some info
                           /\ scoped info = true).
Proof.
  eexists. split; [vm_compute; reflexivity|]. split; [reflexivity|].
  apply (validate_plan_scoping_recomputed
           (bfs_shortest_path (QueryValidator.scoped_graph "accounts_entity_id")) id
           (QueryValidator.scoped_graph "accounts_entity_id")
           (Some wrong_join_plan) "orders").
  vm_compute; reflexivity.
Defined.

(** X6. A plan that lists no table is accepted, whatever else it holds:
    the result has no tables, no columns, no joins and does not need
    scoping. *)
Theorem validate_plan_without_tables
  (shortest_path : string -> string -> path_result)
  (set_iter : list string -> list string)
  (g : SchemaGraph) (raw : RawPlan) (plan0 : Plan) (user_query : string) :
  to_plan raw = Some plan0 ->
  p_tables plan0 = [] ->
  exists p,
    validate_plan shortest_path set_iter g (Some raw) user_query = PlanValid p
    /\ p_tables p = [] /\ p_columns p = ∅ /\ p_joins p = []
    /\ p_needs_scoping p = false.
Proof.
  intros Hplan Hts. unfold validate_plan. rewrite Hplan.
  unfold _synthesize_join_bridges. rewrite Hts.
  unfold repair_tables. rewrite Hts. simpl.
  eexists. split; [reflexivity|].
  unfold repair_rest.
  rewrite tables_of_intent, joins_of_intent_repairs, scoping_of_intent_repairs.
  simpl. rewrite Hts. simpl.
  split; [reflexivity|]. split.
  - unfold _apply_intent_repairs, _ensure_display_columns, _ensure_time_columns.
    destruct (is_count_intent user_query), (is_list_intent user_query),
      (is_time_intent user_query); simpl; rewrite ?Hts; reflexivity.
  - split; [|reflexivity]. apply _validate_joins_no_tables.
Qed.

Lemma validate_plan_without_tables_witness :
  let g := default_graph "accounts_entity_id" in
  exists p,
    validate_plan (bfs_shortest_path g) id g (Some empty_plan) "list shipments"
    = PlanValid p
    /\ p_tables p = [] /\ p_columns p = ∅ /\ p_joins p = []
    /\ p_needs_scoping p = false.
Proof.
  apply (validate_plan_without_tables
           (bfs_shortest_path (default_graph "accounts_entity_id")) id
           (default_graph "accounts_entity_id") empty_plan
           (mkPlan [] (<["shipments" := ["id"]]> ∅)
                   [mkJoin (Some "shipments") (Some "order_id") (Some "orders")
                           (Some "id") None] [] [] [] (Some 10%Z) true)
           "list shipments"); reflexivity.
Defined.

End PlanRepairFacts.

(** ** The columns that the intent repairs guarantee *)

Module PlanColumnFacts.
Import Schema PlanValidator PlanExamples.

(** A loop that updates a map table by table establishes at every table
    of the list what each step establishes at its own table, provided no
    step destroys it at another table. *)
Lemma fold_left_establish {A : Type} (P : A -> string -> Prop) (Q : string -> Prop)
  (f : A -> string -> A) :
  (forall a x, Q x -> P (f a x) x) ->
  (forall a x y, P a y -> P (f a x) y) ->
  forall l a t, In t l -> Q t -> P (fold_left f l a) t.
Proof.
  intros Hest Hkeep l. induction l as [|x l IH]; intros a t Hin Hq; [destruct Hin|].
  simpl. destruct Hin as [<-|Hin].
  - apply fold_left_inv; [intros; apply Hkeep; auto | apply Hest; exact Hq].
  - apply IH; assumption.
Qed.

Section Columns.
Variable g : SchemaGraph.

Lemma time_step_establishes (cols : gmap string (list string)) (t : string) :
  schema_has_time_column g t ->
  has_time_column g
    (<[t := let cur := default [] (cols !! t) in
            let time_columns := List.filter is_time_column (table_columns g t) in
            if existsb (fun col => Py.in_list col cur) time_columns then cur
            else match time_columns with
                 | [] => cur
                 | c :: _ => cur ++ [c]
                 end]> cols) t.
Proof.
  intros (c0 & Hc0 & Ht0). cbv zeta.
  assert (Hne : In c0 (List.filter is_time_column (table_columns g t)))
    by (apply filter_In; auto).
  destruct (existsb _ _) eqn:Hex.
  - apply existsb_exists in Hex as (c & Hc & Hin).
    apply filter_In in Hc as [Hc Ht]. apply in_list_In in Hin.
    exists (default [] (cols !! t)), c. rewrite lookup_insert_eq. auto.
  - destruct (List.filter is_time_column (table_columns g t)) as [|c cs] eqn:Hf;
      [destruct Hne|].
    assert (Hc : In c (List.filter is_time_column (table_columns g t)))
      by (rewrite Hf; left; reflexivity).
    apply filter_In in Hc as [Hc Ht].
    exists (default [] (cols !! t) ++ [c]), c. rewrite lookup_insert_eq.
    repeat split; auto. apply in_or_app. right. left. reflexivity.
Qed.

Lemma time_step_keeps (cols : gmap string (list string)) (x y : string) :
  has_time_column g cols y ->
  has_time_column g
    (<[x := let cur := default [] (cols !! x) in
            let time_columns := List.filter is_time_column (table_columns g x) in
            if existsb (fun col => Py.in_list col cur) time_columns then cur
            else match time_columns with
                 | [] => cur
                 | c :: _ => cur ++ [c]
                 end]> cols) y.
Proof.
  intros (cs & c & Hl & Hin & Hc & Ht). cbv zeta.
  destruct (decide (x = y)) as [->|Hne].
  - rewrite Hl. simpl.
    assert (Hex : existsb (fun col => Py.in_list col cs)
                    (List.filter is_time_column (table_columns g y)) = true).
    { apply existsb_exists. exists c. split; [apply filter_In; auto|].
      apply in_list_In. exact Hin. }
    rewrite Hex. exists cs, c. rewrite lookup_insert_eq. auto.
  - exists cs, c. rewrite lookup_insert_ne by exact Hne. auto.
Qed.

Lemma _ensure_time_columns_ensures plan t :
  In t (p_tables plan) -> schema_has_time_column g t ->
  has_time_column g (p_columns (_ensure_time_columns g plan)) t.
Proof.
  intros Hin Hq. unfold _ensure_time_columns. cbn [p_columns set_plan_columns].
  apply (fold_left_establish (has_time_column g) (schema_has_time_column g));
    try assumption.
  - intros cols x Hx. apply time_step_establishes. exact Hx.
  - intros cols x y Hy. apply time_step_keeps. exact Hy.
Qed.

Lemma append_if_absent_nonempty c l : l <> [] -> append_if_absent c l <> [].
Proof.
  unfold append_if_absent. destruct (Py.in_list c l); [auto|].
  destruct l; [congruence | discriminate].
Qed.

Lemma display_step_establishes (cols : gmap string (list string)) (t : string) :
  schema_has_display_column g t ->
  has_columns
    (<[t := let cur := default [] (cols !! t) in
            let columns := table_columns g t in
            let display_columns := List.filter is_display_column columns in
            let cur1 :=
              if String.eqb t "users" && Py.in_list "first_name" columns
                 && Py.in_list "last_name" columns
              then append_if_absent "last_name" (append_if_absent "first_name" cur)
              else cur in
            match cur1, display_columns with
            | [], _ :: _ => firstn 2 display_columns
            | _, _ => cur1
            end]> cols) t.
Proof.
  intros (c0 & Hc0 & Hd0). cbv zeta.
  assert (Hne : In c0 (List.filter is_display_column (table_columns g t)))
    by (apply filter_In; auto).
  eexists. rewrite lookup_insert_eq. split; [reflexivity|].
  destruct (List.filter is_display_column (table_columns g t)) as [|d ds];
    [destruct Hne|].
  match goal with
  | |- match ?c with [] => _ | _ :: _ => _ end <> [] => destruct c as [|a l]
  end; simpl; discriminate.
Qed.

Lemma display_step_keeps (cols : gmap string (list string)) (x y : string) :
  has_columns cols y ->
  has_columns
    (<[x := let cur := default [] (cols !! x) in
            let columns := table_columns g x in
            let display_columns := List.filter is_display_column columns in
            let cur1 :=
              if String.eqb x "users" && Py.in_list "first_name" columns
                 && Py.in_list "last_name" columns
              then append_if_absent "last_name" (append_if_absent "first_name" cur)
              else cur in
            match cur1, display_columns with
            | [], _ :: _ => firstn 2 display_columns
            | _, _ => cur1
            end]> cols) y.
Proof.
  intros (cs & Hl & Hcs). cbv zeta.
  destruct (decide (x = y)) as [->|Hne].
  - eexists. rewrite lookup_insert_eq. split; [reflexivity|].
    rewrite Hl. simpl.
    assert (H1 : (if String.eqb y "users"
                     && Py.in_list "first_name" (table_columns g y)
                     && Py.in_list "last_name" (table_columns g y)
                  then append_if_absent "last_name" (append_if_absent "first_name" cs)
                  else cs) <> []).
    { destruct (_ && _); [|exact Hcs]. auto using append_if_absent_nonempty. }
    match goal with
    | |- match ?c with [] => _ | _ :: _ => _ end <> [] => destruct c as [|a l]
    end; [congruence|]. simpl. discriminate.
  - exists cs. rewrite lookup_insert_ne by exact Hne. auto.
Qed.

Lemma _ensure_display_columns_ensures plan t :
  In t (p_tables plan) -> schema_has_display_column g t ->
  has_columns (p_columns (_ensure_display_columns g plan)) t.
Proof.
  intros Hin Hq. unfold _ensure_display_columns. cbn [p_columns set_plan_columns].
  apply (fold_left_establish has_columns (schema_has_display_column g));
    try assumption.
  - intros cols x Hx. apply display_step_establishes. exact Hx.
  - intros cols x y Hy. apply display_step_keeps. exact Hy.
Qed.

Lemma time_step_keeps_columns (cols : gmap string (list string)) (x y : string) :
  has_columns cols y ->
  has_columns
    (<[x := let cur := default [] (cols !! x) in
            let time_columns := List.filter is_time_column (table_columns g x) in
            if existsb (fun col => Py.in_list col cur) time_columns then cur
            else match time_columns with
                 | [] => cur
                 | c :: _ => cur ++ [c]
                 end]> cols) y.
Proof.
  intros (cs & Hl & Hcs). cbv zeta.
  destruct (decide (x = y)) as [->|Hne].
  - eexists. rewrite lookup_insert_eq. split; [reflexivity|].
    rewrite Hl. simpl.
    destruct (existsb _ _); [exact Hcs|].
    destruct (List.filter _ _); [exact Hcs|].
    destruct cs; [congruence | discriminate].
  - exists cs. rewrite lookup_insert_ne by exact Hne. auto.
Qed.

Lemma _ensure_time_columns_keeps_columns plan t :
  has_columns (p_columns plan) t ->
  has_columns (p_columns (_ensure_time_columns g plan)) t.
Proof.
  intros H. unfold _ensure_time_columns. cbn [p_columns set_plan_columns].
  apply fold_left_inv; [|exact H].
  intros cols x _ Hx. apply time_step_keeps_columns. exact Hx.
Qed.

End Columns.

(** X7. For a question with a time word and without a count word, every
    table of a plan returned as valid whose schema table has a date-like
    or created-like column lists at least one such column. *)
Theorem validate_plan_time_columns
  (shortest_path : string -> string -> path_result)
  (set_iter : list string -> list string)
  (g : SchemaGraph) (parsed : option RawPlan) (user_query : string) (p : Plan)
  (t : string) :
  is_time_intent user_query = true ->
  is_count_intent user_query = false ->
  validate_plan shortest_path set_iter g parsed user_query = PlanValid p ->
  In t (p_tables p) ->
  schema_has_time_column g t ->
  has_time_column g (p_columns p) t.
Proof.
  intros Htime Hcount Hv Hin Hq.
  apply PlanRepairFacts.validate_plan_valid in Hv as [plan ->].
  unfold repair_rest in *. rewrite PlanRepairFacts.tables_of_intent in Hin.
  unfold _apply_intent_repairs. rewrite Htime, Hcount. simpl.
  apply _ensure_time_columns_ensures; [|exact Hq].
  destruct (is_list_intent user_query); exact Hin.
Qed.

Lemma validate_plan_time_columns_witness :
  let g := default_graph "accounts_entity_id" in
  exists p,
    validate_plan (bfs_shortest_path g) id g (Some bare_plan)
                  "shipments of this week" = PlanValid p
    /\ p_columns p !! "shipments" = Some ["created_at"]
    /\ has_time_column g (p_columns p) "shipments".
Proof.
  eexists. split; [vm_compute; reflexivity|]. split; [vm_compute; reflexivity|].
  apply (validate_plan_time_columns
           (bfs_shortest_path (default_graph "accounts_entity_id")) id
           (default_graph "accounts_entity_id") (Some bare_plan)
           "shipments of this week").
  - vm_compute; reflexivity.
  - vm_compute; reflexivity.
  - vm_compute; reflexivity.
  - right; left; reflexivity.
  - exists "created_at". split; [vm_compute; tauto | vm_compute; reflexivity].
Defined.

(** X8. For a question with a list word and without a count word, every
    table of a plan returned as valid whose schema table has a name-like
    or title-like column lists at least one column. *)
Theorem validate_plan_display_columns
  (shortest_path : string -> string -> path_result)
  (set_iter : list string -> list string)
  (g : SchemaGraph) (parsed : option RawPlan) (user_query : string) (p : Plan)
  (t : string) :
  is_list_intent user_query = true ->
  is_count_intent user_query = false ->
  validate_plan shortest_path set_iter g parsed user_query = PlanValid p ->
  In t (p_tables p) ->
  schema_has_display_column g t ->
  has_columns (p_columns p) t.
Proof.
  intros Hlist Hcount Hv Hin Hq.
  apply PlanRepairFacts.validate_plan_valid in Hv as [plan ->].
  unfold repair_rest in *. rewrite PlanRepairFacts.tables_of_intent in Hin.
  unfold _apply_intent_repairs. rewrite Hlist, Hcount. simpl.
  rewrite andb_true_r.
  assert (H : has_columns
                (p_columns
                   (_ensure_display_columns g
                      (set_plan_scoping
                         (set_plan_joins
                            (set_plan_columns plan
                               (_validate_columns g (p_columns plan) (p_tables plan)))
                            (_validate_joins g (p_joins plan) (p_tables plan)))
                         (_validate_scoping g (p_tables plan))))) t)
    by (apply _ensure_display_columns_ensures; assumption).
  destruct (is_time_intent user_query); [|exact H].
  apply _ensure_time_columns_keeps_columns. exact H.
Qed.

Lemma validate_plan_display_columns_witness :
  let g := default_graph "accounts_entity_id" in
  exists p,
    validate_plan (bfs_shortest_path g) id g (Some bare_plan)
                  "show customers" = PlanValid p
    /\ p_columns p !! "customers" = Some ["name"]
    /\ has_columns (p_columns p) "customers".
Proof.
  eexists. split; [vm_compute; reflexivity|]. split; [vm_compute; reflexivity|].
  apply (validate_plan_display_columns
           (bfs_shortest_path (default_graph "accounts_entity_id")) id
           (default_graph "accounts_entity_id") (Some bare_plan)
           "show customers").
  - vm_compute; reflexivity.
  - vm_compute; reflexivity.
  - vm_compute; reflexivity.
  - left; reflexivity.
  - exists "name". split; [vm_compute; tauto | vm_compute; reflexivity].
Defined.

End PlanColumnFacts.

(** ** More on matching *)

Module MatchFacts.

(** Whatever a pattern matches, what comes after the match is a suffix
    of the subject. *)
Lemma rmatch_suffix (ic : bool) (r : Re.regex) :
  forall (R : Type) (prev : option ascii) (s : list ascii)
         (k : option ascii -> list ascii -> option R) (x : R),
    Re.rmatch ic r R prev s k = Some x ->
    exists p' s' m, s = m ++ s' /\ k p' s' = Some x.
Proof.
  induction r as [| c | p | | r1 IH1 r2 IH2 | r1 IH1 r2 IH2 | r1 IH1 | r1 IH1
                  | r1 IH1 | | r1 IH1];
    intros R prev s k x H; simpl in H.
  - exists prev, s, []. auto.
  - destruct s as [|a s']; [discriminate|].
    destruct (if ic then _ else _); [|discriminate].
    exists (Some a), s', [a]. auto.
  - destruct s as [|a s']; [discriminate|].
    destruct (p a); [|discriminate].
    exists (Some a), s', [a]. auto.
  - destruct s as [|a s']; [discriminate|].
    exists (Some a), s', [a]. auto.
  - apply IH1 in H as (p1 & s1 & m1 & -> & H).
    apply IH2 in H as (p2 & s2 & m2 & -> & H).
    exists p2, s2, (m1 ++ m2). rewrite <- app_assoc. auto.
  - destruct (Re.rmatch ic r1 R prev s k) eqn:E.
    + inversion H; subst. apply IH1 in E. exact E.
    + apply IH2 in H. exact H.
  - destruct (Re.rmatch ic r1 R prev s _) eqn:E; [|exists prev, s, []; auto].
    inversion H; subst. apply IH1 in E as (p1 & s1 & m1 & -> & E).
    destruct (length s1 <? length (m1 ++ s1))%nat; [|discriminate].
    revert E. generalize (length (m1 ++ s1)) as n. intros n E.
    enough (exists p' s' m, s1 = m ++ s' /\ k p' s' = Some x)
      as (p2 & s2 & m2 & -> & Hk)
      by (exists p2, s2, (m1 ++ m2); rewrite <- app_assoc; auto).
    revert p1 s1 E.
    induction n as [|n IHn]; intros p1 s1 E; simpl in E.
    + exists p1, s1, []. auto.
    + destruct (Re.rmatch ic r1 R p1 s1 _) eqn:E2; [|exists p1, s1, []; auto].
      inversion E; subst. apply IH1 in E2 as (p2 & s2 & m2 & -> & E2).
      destruct (length s2 <? length (m2 ++ s2))%nat; [|discriminate].
      apply IHn in E2 as (p3 & s3 & m3 & -> & E2).
      exists p3, s3, (m2 ++ m3). rewrite <- app_assoc. auto.
  - destruct (k prev s) eqn:Ek.
    { inversion H; subst. exists prev, s, []. auto. }
    apply IH1 in H as (p1 & s1 & m1 & -> & E).
    destruct (length s1 <? length (m1 ++ s1))%nat; [|discriminate].
    revert E. generalize (length (m1 ++ s1)) as n. intros n E.
    enough (exists p' s' m, s1 = m ++ s' /\ k p' s' = Some x)
      as (p2 & s2 & m2 & -> & Hk)
      by (exists p2, s2, (m1 ++ m2); rewrite <- app_assoc; auto).
    clear Ek. revert p1 s1 E.
    induction n as [|n IHn]; intros p1 s1 E; simpl in E.
    + exists p1, s1, []. auto.
    + destruct (k p1 s1) eqn:Ek.
      { inversion E; subst. exists p1, s1, []. auto. }
      apply IH1 in E as (p2 & s2 & m2 & -> & E2).
      destruct (length s2 <? length (m2 ++ s2))%nat; [|discriminate].
      apply IHn in E2 as (p3 & s3 & m3 & -> & E2).
      exists p3, s3, (m2 ++ m3). rewrite <- app_assoc. auto.
  - destruct (Re.rmatch ic r1 R prev s k) eqn:E.
    + inversion H; subst. apply IH1 in E. exact E.
    + exists prev, s, []. auto.
  - destruct (xorb _ _); [|discriminate]. exists prev, s, []. auto.
  - destruct (Re.rmatch ic r1 unit prev s _); [|discriminate].
    exists prev, s, []. auto.
Qed.

(** A match of [r1 r2] leaves a match of [r2] on a suffix. *)
Lemma rmatch_seq (ic : bool) (r1 r2 : Re.regex) (R : Type) (prev : option ascii)
  (s : list ascii) (k : option ascii -> list ascii -> option R) (x : R) :
  Re.rmatch ic (Re.Seq r1 r2) R prev s k = Some x ->
  exists p1 s1 m, s = m ++ s1 /\ Re.rmatch ic r2 R p1 s1 k = Some x.
Proof. simpl. intros H. apply rmatch_suffix in H. exact H. Qed.

(** Case-sensitive literals: the converse of reading them. *)
Lemma rmatch_lits_complete (l : list ascii) (R : Type) (prev : option ascii)
  (rest : list ascii) (k : option ascii -> list ascii -> option R) :
  Re.rmatch false (Re.lits l) R prev (l ++ rest) k = k (Re.after prev l) rest.
Proof.
  revert prev. induction l as [|c l IH]; intros prev; simpl; [reflexivity|].
  unfold Py.eqc. rewrite Ascii.eqb_refl. apply IH.
Qed.

(** [re.search] finds a match exactly when the pattern matches at some
    position. *)
Lemma search_from_sound (ic : bool) (r : Re.regex) (s : list ascii) :
  forall prev pos span,
    Re.search_from ic r prev s pos = Some span ->
    exists pre s1 rest,
      s = pre ++ s1 /\ Re.match_here ic r (Re.after prev pre) s1 = Some rest.
Proof.
  induction s as [|c s IH]; intros prev pos span H; simpl in H.
  - destruct (Re.match_here ic r prev []) as [rest|] eqn:Hm; [|discriminate].
    exists [], [], rest. auto.
  - destruct (Re.match_here ic r prev (c :: s)) as [rest|] eqn:Hm.
    + exists [], (c :: s), rest. auto.
    + apply IH in H as (pre & s1 & rest & -> & Hm').
      exists (c :: pre), s1, rest. auto.
Qed.

Lemma search_from_complete (ic : bool) (r : Re.regex) (pre : list ascii) :
  forall prev s1 rest pos,
    Re.match_here ic r (Re.after prev pre) s1 = Some rest ->
    exists span, Re.search_from ic r prev (pre ++ s1) pos = Some span.
Proof.
  induction pre as [|c pre IH]; intros prev s1 rest pos Hm; simpl in *.
  - destruct s1 as [|a s1]; simpl; rewrite Hm; eauto.
  - destruct (Re.match_here ic r prev (c :: pre ++ s1)); [eauto|].
    eapply IH. exact Hm.
Qed.

Lemma search_sound (ic : bool) (r : Re.regex) (s : string) :
  Re.search ic r s = true ->
  exists pre s1 rest,
    Py.chars s = pre ++ s1 /\ Re.match_here ic r (Re.after None pre) s1 = Some rest.
Proof.
  unfold Re.search, Re.search_span.
  destruct (Re.search_from ic r None (Py.chars s) 0) as [span|] eqn:H; [|discriminate].
  intros _. eapply search_from_sound; eauto.
Qed.

Lemma search_complete (ic : bool) (r : Re.regex) (s : string) pre s1 rest :
  Py.chars s = pre ++ s1 ->
  Re.match_here ic r (Re.after None pre) s1 = Some rest ->
  Re.search ic r s = true.
Proof.
  intros Hs Hm. unfold Re.search, Re.search_span. rewrite Hs.
  destruct (search_from_complete ic r pre None s1 rest 0 Hm) as [span ->].
  reflexivity.
Qed.

(** The keyword pattern matches exactly at the whole-word occurrences. *)
Lemma keyword_search_iff (kw s : string) :
  Re.search false (QueryValidator.keyword kw) s = true <-> QueryText.whole_word kw s.
Proof.
  split.
  - intros H. apply QueryFacts.keyword_search_whole_word in H. exact H.
  - intros (pre & post & Hs & Hb1 & Hb2).
    apply (search_complete false _ s pre (Py.chars kw ++ post) post Hs).
    unfold Re.match_here, QueryValidator.keyword, Re.text. simpl.
    rewrite Hb1, rmatch_lits_complete, Hb2. reflexivity.
Qed.

End MatchFacts.

(** ** More on the SQL validator *)

Module QueryExtraFacts.
Import QueryValidator QueryText.

Lemma eqb_lower_char_dot (c : ascii) :
  Ascii.eqb (Py.lower_char c) "."%char = Ascii.eqb c "."%char.
Proof. destruct c as [[] [] [] [] [] [] [] []]; reflexivity. Qed.

Lemma last_field_without (c : ascii) (l : list ascii) :
  forall acc, ~ In c acc -> ~ In c (Py.last_field c acc l).
Proof.
  induction l as [|x l IH]; intros acc Hacc; simpl.
  - rewrite <- in_rev. exact Hacc.
  - unfold Py.eqc. destruct (Ascii.eqb x c) eqn:Hx.
    + apply IH. simpl. tauto.
    + apply IH. simpl. intros [->|H]; [|auto].
      rewrite Ascii.eqb_refl in Hx. discriminate.
Qed.

Lemma lstrip_by_In (f : ascii -> bool) (l : list ascii) (x : ascii) :
  In x (Py.lstrip_by f l) -> In x l.
Proof.
  induction l as [|c l IH]; simpl; [tauto|].
  destruct (f c); simpl; tauto.
Qed.

Lemma strip_by_In (f : ascii -> bool) (l : list ascii) (x : ascii) :
  In x (Py.strip_by f l) -> In x l.
Proof.
  unfold Py.strip_by, Py.rstrip_by. rewrite <- in_rev. intros H.
  apply lstrip_by_In in H. rewrite <- in_rev in H.
  apply lstrip_by_In in H. exact H.
Qed.

(** X9. Every name that [_extract_tables] returns is a non-empty
    lower-case name without a qualifier (no dot is left in it), and is
    none of [id], [count], [sum], [avg], [min], [max]. *)
Theorem _extract_tables_names (statement n : string) :
  In n (_extract_tables statement) ->
  n <> ""
  /\ Py.lower n = n
  /\ ~ In "."%char (Py.chars n)
  /\ ~ In n ["id"; "count"; "sum"; "avg"; "min"; "max"].
Proof.
  unfold _extract_tables. revert n.
  apply (fold_left_inv
           (fun tables => forall n, In n tables ->
              n <> "" /\ Py.lower n = n /\ ~ In "."%char (Py.chars n)
              /\ ~ In n ["id"; "count"; "sum"; "avg"; "min"; "max"]));
    [|intros n []].
  intros tables pat _ Ht. apply fold_left_inv; [|exact Ht].
  intros tb raw _ Htb n. cbv zeta.
  destruct (negb _ && negb _) eqn:Hc; [|apply Htb].
  rewrite set_add_In. intros [->|Hin]; [|auto].
  apply andb_prop in Hc as [Hne Hbl].
  apply negb_true_iff in Hne, Hbl.
  apply String.eqb_neq in Hne. apply in_list_false in Hbl.
  repeat split; [exact Hne | apply SchemaQueryFacts.lower_lower | | exact Hbl].
  unfold Py.lower, Py.strip_char, Py.split_last.
  rewrite !SchemaQueryFacts.chars_str. rewrite in_map_iff.
  intros (x & Hx & Hin).
  assert (x = "."%char) as ->.
  { apply Ascii.eqb_eq. rewrite <- eqb_lower_char_dot, Hx. reflexivity. }
  apply strip_by_In in Hin. revert Hin. apply last_field_without. simpl. tauto.
Qed.

Lemma _extract_tables_names_witness :
  In "orders" (_extract_tables "SELECT * FROM Shop.`Orders` o JOIN users u ON o.id = u.id")
  /\ "orders" <> ""
  /\ Py.lower "orders" = "orders"
  /\ ~ In "."%char (Py.chars "orders")
  /\ ~ In "orders" ["id"; "count"; "sum"; "avg"; "min"; "max"].
Proof.
  assert (H : In "orders"
                 (_extract_tables
                    "SELECT * FROM Shop.`Orders` o JOIN users u ON o.id = u.id"))
    by (vm_compute; auto).
  split; [exact H|]. exact (_extract_tables_names _ _ H).
Defined.

(** When a dangerous keyword stands in the upper-cased statement as a
    whole word, the keyword check finds one. *)
Lemma first_hit_keyword (sql_str kw : string) :
  In kw dangerous_keywords ->
  whole_word kw sql_str ->
  exists kw',
    first_hit (fun kw => Re.search false (keyword kw) sql_str) dangerous_keywords
    = Some kw'
    /\ In kw' dangerous_keywords /\ whole_word kw' sql_str.
Proof.
  intros Hin Hw. unfold first_hit.
  destruct (List.find _ dangerous_keywords) as [kw'|] eqn:E.
  - apply find_some in E as [Hin' Hs]. exists kw'.
    repeat split; auto. apply MatchFacts.keyword_search_iff. exact Hs.
  - apply (find_none _ _ E) in Hin.
    apply MatchFacts.keyword_search_iff in Hw. simpl in Hin. congruence.
Qed.

(** X10. [_perform_safety_checks] rejects every statement in which one of
    the dangerous keywords occurs as a whole word, in any letter case,
    and names such a keyword in the error. *)
Theorem _perform_safety_checks_rejects_keyword (statement kw : string) :
  In kw dangerous_keywords ->
  whole_word kw (Py.upper statement) ->
  exists kw',
    In kw' dangerous_keywords
    /\ whole_word kw' (Py.upper statement)
    /\ _perform_safety_checks statement
       = Fail ("Operation '" +:+ kw' +:+ "' is not allowed for security reasons").
Proof.
  intros Hin Hw.
  destruct (first_hit_keyword _ _ Hin Hw) as (kw' & E & Hin' & Hw').
  exists kw'. repeat split; auto.
  unfold _perform_safety_checks. cbv zeta. rewrite E. reflexivity.
Qed.

Lemma _perform_safety_checks_rejects_keyword_witness :
  exists kw',
    In kw' dangerous_keywords
    /\ whole_word kw' (Py.upper "select 1 from t where drop = 2")
    /\ _perform_safety_checks "select 1 from t where drop = 2"
       = Fail ("Operation '" +:+ kw' +:+ "' is not allowed for security reasons").
Proof.
  apply (_perform_safety_checks_rejects_keyword
           "select 1 from t where drop = 2" "DROP").
  - vm_compute. auto.
  - exists (Py.chars "SELECT 1 FROM T WHERE "), (Py.chars " = 2").
    vm_compute. auto.
Defined.

(** A statement that passes the safety checks holds no dangerous keyword
    as a whole word. *)
Lemma _perform_safety_checks_pass (statement : string) m a :
  _perform_safety_checks statement = Pass m a ->
  forall kw, In kw dangerous_keywords -> ~ whole_word kw (Py.upper statement).
Proof.
  intros Hp kw Hin Hw.
  destruct (first_hit_keyword _ _ Hin Hw) as (kw' & E & _).
  unfold _perform_safety_checks in Hp. cbv zeta in Hp. rewrite E in Hp.
  discriminate.
Qed.

Section ValidateSql.

Variable config : SecurityConfig.
Variable g : Schema.SchemaGraph.
Variable _ast_validate :
  string -> option string -> option ScopingRequirements -> AstResult.

Local Abbreviation validate_sql := (validate_sql config g _ast_validate).

(** What a Valid result tells about the run: the first statement went
    through the three tiers. *)
Lemma validate_sql_valid_inv (sql : string) (scoping_value : option string)
  (user_context : option ScopingRequirements) (r : SqlOk) :
  validate_sql sql scoping_value user_context = SqlValid r ->
  exists statement modified,
    first_statement sql = Some statement
    /\ ok_tables r = _extract_tables statement
    /\ modified_sql r = default sql modified
    /\ (modified = None
        \/ exists scoped col acc,
             _validate_scoping_filtering_with_context
               config g statement scoped scoping_value col acc
             = Pass modified (scoping_applied r))
    /\ (exists m a, _perform_safety_checks statement = Pass m a)
    /\ (exists m a,
          _perform_custom_validation config g statement (_extract_tables statement)
          = Pass m a).
Proof.
  unfold QueryValidator.validate_sql. cbv zeta.
  destruct (_ast_validate sql scoping_value user_context) eqn:Hast;
    try discriminate;
    (destruct (first_statement sql) as [statement|]; [|discriminate]);
    match goal with
    | |- match ?c with Pass _ _ => _ | Fail _ => _ end = _ -> _ =>
        destruct c as [modified applied|] eqn:Hv; [|discriminate]
    end;
    (destruct (_perform_safety_checks statement) as [m1 a1|] eqn:Hs; [|discriminate]);
    (destruct (_perform_custom_validation config g statement _) as [m2 a2|] eqn:Hc;
     [|discriminate]);
    intros H; inversion H; subst; clear H; simpl;
    exists statement, modified; repeat split; eauto;
    match type of Hv with
    | match ?b with true => _ | false => _ end = _ =>
        destruct b;
        [ match type of Hv with
          | match ?l with [] => _ | _ :: _ => _ end = _ =>
              destruct l eqn:Hl; [inversion Hv; auto | right; eauto]
          end
        | inversion Hv; auto ]
    end.
Qed.

(** X11. A statement that [validate_sql] accepts has a first statement
    in which none of the dangerous keywords occurs as a whole word, in
    any letter case. *)
Theorem validate_sql_valid_no_keyword (sql : string) (scoping_value : option string)
  (user_context : option ScopingRequirements) (r : SqlOk) :
  validate_sql sql scoping_value user_context = SqlValid r ->
  exists statement,
    first_statement sql = Some statement
    /\ forall kw, In kw dangerous_keywords -> ~ whole_word kw (Py.upper statement).
Proof.
  intros H.
  apply validate_sql_valid_inv in H
    as (statement & modified & Hst & _ & _ & _ & (m & a & Hs) & _).
  exists statement. split; [exact Hst|].
  eapply _perform_safety_checks_pass. exact Hs.
Qed.

(** With auto-scoping switched off the scoping tier passes nothing on. *)
Lemma scoping_without_repair statement scoped scoping_value col acc modified applied :
  ENABLE_AUTO_SCOPING config = false ->
  _validate_scoping_filtering_with_context
    config g statement scoped scoping_value col acc = Pass modified applied ->
  modified = None.
Proof.
  intros Hoff. unfold _validate_scoping_filtering_with_context.
  destruct scoped; [intros H; inversion H; auto|].
  destruct (_check_scoping_filter_exists_with_context _ _ _ _ _ _ _);
    [intros H; inversion H; auto|].
  rewrite Hoff. simpl. discriminate.
Qed.

(** X12. With [ENABLE_AUTO_SCOPING] off, [validate_sql] never rewrites:
    the SQL of a Valid result is the SQL that was submitted. *)
Theorem validate_sql_no_auto_scoping (sql : string) (scoping_value : option string)
  (user_context : option ScopingRequirements) (r : SqlOk) :
  ENABLE_AUTO_SCOPING config = false ->
  validate_sql sql scoping_value user_context = SqlValid r ->
  modified_sql r = sql.
Proof.
  intros Hoff H.
  apply validate_sql_valid_inv in H
    as (statement & modified & _ & _ & Hm & Hv & _).
  rewrite Hm.
  destruct Hv as [->|(scoped & col & acc & Hv)]; [reflexivity|].
  apply scoping_without_repair in Hv; [|exact Hoff]. subst. reflexivity.
Qed.

(** X13. A Valid result never names more tables than a positive
    [max_tables] rule allows. *)
Theorem validate_sql_max_tables (sql : string) (scoping_value : option string)
  (user_context : option ScopingRequirements) (r : SqlOk) (m : nat) :
  max_tables config = Some m ->
  (0 < m)%nat ->
  validate_sql sql scoping_value user_context = SqlValid r ->
  (length (ok_tables r) <= m)%nat.
Proof.
  intros Hmax Hpos H.
  apply validate_sql_valid_inv in H
    as (statement & modified & _ & -> & _ & _ & _ & (m' & a' & Hc)).
  unfold _perform_custom_validation in Hc. cbv zeta in Hc. rewrite Hmax in Hc.
  destruct (negb (m =? 0)%nat && (m <? length (_extract_tables statement))%nat)
    eqn:Hb; [discriminate|].
  apply andb_false_iff in Hb as [Hb|Hb].
  - apply negb_false_iff, Nat.eqb_eq in Hb. lia.
  - apply Nat.ltb_ge in Hb. exact Hb.
Qed.

(** *** What the scoping patterns can find *)

Lemma rmatch_seqs_text (rs : list Re.regex) (t : string) :
  In (Re.text t) rs ->
  forall (R : Type) prev s (k : option ascii -> list ascii -> option R) x,
    Re.rmatch false (Re.seqs rs) R prev s k = Some x ->
    exists pre post, s = pre ++ Py.chars t ++ post.
Proof.
  induction rs as [|r rs IH]; intros Hin R prev s k x H; [destruct Hin|].
  destruct Hin as [->|Hin].
  - simpl in H. unfold Re.text in H.
    apply QueryFacts.rmatch_lits in H as (rest & -> & _).
    exists [], rest. reflexivity.
  - apply MatchFacts.rmatch_seq in H as (p1 & s1 & m & -> & H).
    apply (IH Hin) in H as (pre & post & ->).
    exists (m ++ pre), post. rewrite <- app_assoc. reflexivity.
Qed.

(** A pattern that is a sequence with a literal piece is only found in
    a subject that holds every character of the piece. *)
Lemma search_seqs_text (rs : list Re.regex) (t subject : string) (c : ascii) :
  In (Re.text t) rs ->
  Re.search false (Re.seqs rs) subject = true ->
  In c (Py.chars t) ->
  In c (Py.chars subject).
Proof.
  intros Hin Hs Hc.
  apply MatchFacts.search_sound in Hs as (pre & s1 & rest & -> & Hm).
  unfold Re.match_here in Hm.
  apply (rmatch_seqs_text _ _ Hin) in Hm as (pre' & post & ->).
  rewrite !in_app_iff. auto.
Qed.

Lemma is_upper_lower_char (c : ascii) : Py.is_upper (Py.lower_char c) = false.
Proof. destruct c as [[] [] [] [] [] [] [] []]; reflexivity. Qed.

Lemma lower_char_fixes (c : ascii) :
  Py.is_alpha (Py.lower_char c) = false -> Py.lower_char c = c.
Proof. destruct c as [[] [] [] [] [] [] [] []]; (reflexivity || discriminate). Qed.

Lemma In_chars_lower (c : ascii) (s : string) :
  In c (Py.chars (Py.lower s)) ->
  Py.is_upper c = false /\ (Py.is_alpha c = false -> In c (Py.chars s)).
Proof.
  unfold Py.lower. rewrite SchemaQueryFacts.chars_str, in_map_iff.
  intros (x & <- & Hx). split; [apply is_upper_lower_char|].
  intros Ha. rewrite (lower_char_fixes _ Ha). exact Hx.
Qed.

(** Each scoping pattern has the equals sign or the word IN as a
    literal piece. *)
Lemma scoping_patterns_pieces col scoping_value acc pattern :
  In pattern (scoping_patterns col scoping_value acc) ->
  exists rs, pattern = Re.seqs rs
             /\ (In (Re.text "=") rs \/ In (Re.text "IN") rs).
Proof.
  unfold scoping_patterns. rewrite in_app_iff. intros [H|H].
  - destruct H as [<-|[<-|[<-|[]]]];
      eexists; (split; [reflexivity|]); left; simpl; auto.
  - destruct (several acc); [|destruct H].
    destruct H as [<-|[]]. eexists. split; [reflexivity|]. right. simpl. auto.
Qed.

(** X14. The check for an existing scoping filter looks for an equals
    sign or for the upper-case word IN in the lower-cased statement: a
    statement without an equals sign is never recognised as filtered,
    whatever IN clause it carries. *)
Theorem scoping_filter_needs_equals_sign (statement : string)
  (scoped : list string) (scoping_value scoping_column : option string)
  (accessible : option (list string)) :
  literal_names config g scoped scoping_value scoping_column accessible = true ->
  ~ In "="%char (Py.chars statement) ->
  _check_scoping_filter_exists_with_context
    config g statement scoped scoping_value scoping_column accessible = false.
Proof.
  intros _ Hno. unfold _check_scoping_filter_exists_with_context. cbv zeta.
  apply not_true_is_false. intros H.
  apply existsb_exists in H as (table & _ & H).
  apply existsb_exists in H as (pattern & Hp & Hs).
  apply scoping_patterns_pieces in Hp as (rs & -> & [Hin|Hin]).
  - apply (search_seqs_text _ _ _ "="%char Hin) in Hs; [|simpl; auto].
    apply In_chars_lower in Hs as [_ Hs]. apply Hno, Hs. reflexivity.
  - apply (search_seqs_text _ _ _ "I"%char Hin) in Hs; [|simpl; auto].
    apply In_chars_lower in Hs as [Hs _]. discriminate Hs.
Qed.

Lemma has_upper_char (v : string) :
  has_upper v = true -> exists c, In c (Py.chars v) /\ Py.is_upper c = true.
Proof. unfold has_upper. intros H. apply existsb_exists in H. exact H. Qed.

(** X15. A scoping value with an upper-case letter is never found: unless
    the statement holds a placeholder character ([%] or [?]), the check
    for an existing scoping filter answers no, whatever the statement. *)
Theorem scoping_filter_upper_case_value (statement : string)
  (scoped : list string) (v : string) (scoping_column : option string)
  (accessible : option (list string)) :
  literal_names config g scoped (Some v) scoping_column accessible = true ->
  has_upper v = true ->
  ~ In "%"%char (Py.chars statement) ->
  ~ In "?"%char (Py.chars statement) ->
  _check_scoping_filter_exists_with_context
    config g statement scoped (Some v) scoping_column accessible = false.
Proof.
  intros _ Hv Hpc Hq. unfold _check_scoping_filter_exists_with_context. cbv zeta.
  apply not_true_is_false. intros H.
  apply existsb_exists in H as (table & _ & H).
  apply existsb_exists in H as (pattern & Hp & Hs).
  unfold scoping_patterns in Hp. rewrite in_app_iff in Hp.
  destruct Hp as [[<-|[<-|[<-|[]]]]|Hp].
  - apply has_upper_char in Hv as (c & Hc & Hup).
    apply (search_seqs_text _ v _ c) in Hs; [| simpl; auto 10 | exact Hc].
    apply In_chars_lower in Hs as [Hs _]. congruence.
  - apply (search_seqs_text _ "%s" _ "%"%char) in Hs; [| simpl; auto 10 | simpl; auto].
    apply In_chars_lower in Hs as [_ Hs]. apply Hpc, Hs. reflexivity.
  - apply (search_seqs_text _ "?" _ "?"%char) in Hs; [| simpl; auto 10 | simpl; auto].
    apply In_chars_lower in Hs as [_ Hs]. apply Hq, Hs. reflexivity.
  - destruct (several accessible); [|destruct Hp]. destruct Hp as [<-|[]].
    apply (search_seqs_text _ "IN" _ "I"%char) in Hs; [| simpl; auto 10 | simpl; auto].
    apply In_chars_lower in Hs as [Hs _]. discriminate Hs.
Qed.

(** *** The repair *)

Lemma append_empty (a b : string) : a +:+ b = "" -> a = "" /\ b = "".
Proof. destruct a; simpl; [auto | discriminate]. Qed.

Lemma insert_at_nonempty (pos : nat) (c : ascii) (piece s : string) :
  insert_at pos (String c piece) s <> "".
Proof.
  unfold insert_at. intros H.
  apply append_empty in H as [_ H]. discriminate H.
Qed.

(** The statement that [_append_scoping_filter_with_context] builds is
    never empty. *)
Lemma _append_scoping_filter_nonempty statement scoped scoping_value scoping_column acc :
  _append_scoping_filter_with_context
    config g statement scoped scoping_value scoping_column acc <> "".
Proof.
  unfold _append_scoping_filter_with_context. cbv zeta.
  destruct (Re.search_span true (keyword "WHERE") statement) as [[? pos]|].
  - apply insert_at_nonempty.
  - destruct (Re.search_span true from_section statement) as [[? pos]|].
    + apply insert_at_nonempty.
    + intros H. apply append_empty in H as [_ H]. discriminate H.
Qed.

(** X16. With [ENABLE_AUTO_SCOPING] on, the scoping tier never rejects:
    a statement without a recognised filter is always repaired, and the
    rejection after a failed repair is never reached. *)
Theorem scoping_tier_never_rejects (statement : string)
  (scoped : list string) (scoping_value scoping_column : option string)
  (accessible : option (list string)) :
  literal_names config g scoped scoping_value scoping_column accessible = true ->
  ENABLE_AUTO_SCOPING config = true ->
  exists modified applied,
    _validate_scoping_filtering_with_context
      config g statement scoped scoping_value scoping_column accessible
    = Pass modified applied
    /\ (modified = None
        \/ modified = Some (_append_scoping_filter_with_context
                              config g statement scoped scoping_value
                              scoping_column accessible)).
Proof.
  intros _ Hon. unfold _validate_scoping_filtering_with_context.
  destruct scoped as [|t scoped]; [eauto|].
  destruct (_check_scoping_filter_exists_with_context _ _ _ _ _ _ _); [eauto|].
  rewrite Hon. simpl.
  destruct (String.eqb _ "") eqn:E; [|eauto].
  apply String.eqb_eq in E. apply _append_scoping_filter_nonempty in E. destruct E.
Qed.

End ValidateSql.

(** *** sanitize_sql *)

Lemma lstrip_by_snoc (f : ascii -> bool) (c : ascii) (b : list ascii) :
  f c = false -> Py.lstrip_by f (b ++ [c]) = Py.lstrip_by f b ++ [c].
Proof.
  intros Hc. induction b as [|x b IH]; simpl; [rewrite Hc; reflexivity|].
  destruct (f x); [exact IH | reflexivity].
Qed.

Lemma strip_by_snoc (f : ascii -> bool) (c : ascii) (b : list ascii) :
  f c = false -> Py.strip_by f (b ++ [c]) = Py.lstrip_by f b ++ [c].
Proof.
  intros Hc. unfold Py.strip_by, Py.rstrip_by.
  rewrite (lstrip_by_snoc _ _ _ Hc), rev_app_distr. simpl. rewrite Hc.
  simpl. rewrite rev_involutive. reflexivity.
Qed.

Lemma lstrip_by_hd (f : ascii -> bool) (l : list ascii) (c : ascii) :
  hd_error (Py.lstrip_by f l) = Some c -> f c = false.
Proof.
  induction l as [|x l IH]; simpl; [discriminate|].
  destruct (f x) eqn:Hx; [exact IH|]. simpl. intros H. inversion H; subst. exact Hx.
Qed.

Lemma before_semicolon_without (l : list ascii) :
  ~ In ";"%char (before_semicolon l).
Proof.
  induction l as [|c l IH]; simpl; [tauto|].
  destruct (Py.code c =? 59)%nat eqn:Hc; simpl; [tauto|].
  intros [->|H]; [discriminate Hc | auto].
Qed.

Lemma snoc_unique (c : ascii) (body : list ascii) :
  ~ In c body ->
  forall pre rest, pre ++ c :: rest = body ++ [c] -> rest = [].
Proof.
  induction body as [|b body IH]; intros Hno pre rest H.
  - destruct pre as [|p pre]; simpl in H.
    + inversion H. reflexivity.
    + inversion H. destruct pre; discriminate.
  - destruct pre as [|p pre]; simpl in H; inversion H; subst.
    + simpl in Hno. tauto.
    + eapply IH; [|eassumption]. simpl in Hno. tauto.
Qed.

Lemma upper_char_semicolon (c : ascii) :
  Py.upper_char c = ";"%char -> c = ";"%char.
Proof. destruct c as [[] [] [] [] [] [] [] []]; (reflexivity || discriminate). Qed.

Lemma lower_char_semicolon (c : ascii) :
  Py.eqc (Py.lower_char ";") (Py.lower_char c) = true -> c = ";"%char.
Proof. destruct c as [[] [] [] [] [] [] [] []]; (reflexivity || discriminate). Qed.

(** X17. [sanitize_sql] returns one statement: a text without leading
    blank that ends in its only semicolon, so that the multi-statement
    pattern of the safety checks never matches it. *)
Theorem sanitize_sql_single_statement (sql : string) :
  exists body,
    sanitize_sql sql = Py.str (body ++ [";"%char])
    /\ ~ In ";"%char body
    /\ (forall c, hd_error body = Some c -> Py.is_space c = false)
    /\ Re.search true multi_statement (Py.upper (sanitize_sql sql)) = false.
Proof.
  unfold sanitize_sql. cbv zeta.
  set (l := before_semicolon _).
  assert (Hl : ~ In ";"%char l) by apply before_semicolon_without.
  rewrite strip_by_snoc by reflexivity.
  set (body := Py.lstrip_by Py.is_space l).
  assert (Hb : ~ In ";"%char body).
  { intros H. apply lstrip_by_In in H. auto. }
  exists body. repeat split; [exact Hb | apply lstrip_by_hd |].
  apply not_true_is_false. intros H.
  apply MatchFacts.search_sound in H as (pre & s1 & rest & Hs & Hm).
  unfold Py.upper in Hs. rewrite !SchemaQueryFacts.chars_str, map_app in Hs.
  simpl in Hs.
  unfold Re.match_here, multi_statement in Hm.
  change (Re.text ";") with (Re.Seq (Re.Lit ";"%char) Re.Eps) in Hm.
  cbn [Re.seqs Re.rmatch] in Hm.
  destruct s1 as [|x s1]; [discriminate|].
  destruct (Py.eqc _ _) eqn:Hx in Hm; [|discriminate].
  apply lower_char_semicolon in Hx. subst x.
  symmetry in Hs. apply snoc_unique in Hs.
  - subst s1. vm_compute in Hm. discriminate Hm.
  - rewrite in_map_iff. intros (x & Hx & Hin).
    apply upper_char_semicolon in Hx. subst x. auto.
Qed.

(** *** Examples *)

Lemma not_In_chars (c : ascii) (l : list ascii) :
  existsb (Ascii.eqb c) l = false -> ~ In c l.
Proof.
  intros H Hin. apply not_true_iff_false in H. apply H.
  apply existsb_exists. exists c. split; [exact Hin | apply Ascii.eqb_refl].
Qed.

Lemma validate_sql_valid_no_keyword_witness :
  exists r,
    validate_sql default_config (scoped_graph "accounts_entity_id") no_ast
                 count_sql (Some "E100") None = SqlValid r
    /\ exists statement,
         first_statement count_sql = Some statement
         /\ forall kw, In kw dangerous_keywords -> ~ whole_word kw (Py.upper statement).
Proof.
  eexists. split; [vm_compute; reflexivity|].
  eapply (validate_sql_valid_no_keyword
            default_config (scoped_graph "accounts_entity_id") no_ast
            count_sql (Some "E100") None).
  vm_compute. reflexivity.
Defined.

Lemma validate_sql_no_auto_scoping_witness :
  ENABLE_AUTO_SCOPING (mkConfig "accounts_entity_id" false None None) = false
  /\ exists r,
       validate_sql (mkConfig "accounts_entity_id" false None None)
                    (scoped_graph "accounts_entity_id") no_ast
                    "SELECT COUNT(*) FROM shipments WHERE accounts_entity_id = 'e100';"
                    (Some "e100") None = SqlValid r
       /\ modified_sql r
          = "SELECT COUNT(*) FROM shipments WHERE accounts_entity_id = 'e100';".
Proof.
  split; [reflexivity|]. eexists. split; [vm_compute; reflexivity|].
  eapply (validate_sql_no_auto_scoping
            (mkConfig "accounts_entity_id" false None None)
            (scoped_graph "accounts_entity_id") no_ast
            "SELECT COUNT(*) FROM shipments WHERE accounts_entity_id = 'e100';"
            (Some "e100") None).
  - reflexivity.
  - vm_compute. reflexivity.
Defined.

Lemma validate_sql_max_tables_witness :
  max_tables (mkConfig "accounts_entity_id" true (Some 2%nat) None) = Some 2%nat
  /\ (0 < 2)%nat
  /\ exists r,
       validate_sql (mkConfig "accounts_entity_id" true (Some 2%nat) None)
                    (scoped_graph "accounts_entity_id") no_ast
                    count_sql (Some "E100") None = SqlValid r
       /\ (length (ok_tables r) <= 2)%nat.
Proof.
  split; [reflexivity|]. split; [lia|].
  eexists. split; [vm_compute; reflexivity|].
  eapply (validate_sql_max_tables
            (mkConfig "accounts_entity_id" true (Some 2%nat) None)
            (scoped_graph "accounts_entity_id") no_ast
            count_sql (Some "E100") None).
  - reflexivity.
  - lia.
  - vm_compute. reflexivity.
Defined.

Lemma scoping_filter_needs_equals_sign_witness :
  literal_names default_config (scoped_graph "accounts_entity_id") ["shipments"]
                (Some "e1") (Some "accounts_entity_id") (Some ["e1"; "e2"]) = true
  /\ ~ In "="%char
          (Py.chars "SELECT * FROM shipments WHERE accounts_entity_id IN ('e1', 'e2')")
  /\ _check_scoping_filter_exists_with_context
       default_config (scoped_graph "accounts_entity_id")
       "SELECT * FROM shipments WHERE accounts_entity_id IN ('e1', 'e2')"
       ["shipments"] (Some "e1") (Some "accounts_entity_id") (Some ["e1"; "e2"])
     = false.
Proof.
  assert (H1 : literal_names default_config (scoped_graph "accounts_entity_id")
                 ["shipments"] (Some "e1") (Some "accounts_entity_id")
                 (Some ["e1"; "e2"]) = true) by (vm_compute; reflexivity).
  assert (H2 : ~ In "="%char
                  (Py.chars
                     "SELECT * FROM shipments WHERE accounts_entity_id IN ('e1', 'e2')")).
  { apply not_In_chars. vm_compute. reflexivity. }
  split; [exact H1|]. split; [exact H2|].
  exact (scoping_filter_needs_equals_sign _ _ _ _ _ _ _ H1 H2).
Defined.

Lemma scoping_filter_upper_case_value_witness :
  literal_names default_config (scoped_graph "accounts_entity_id") ["shipments"]
                (Some "E100") (Some "accounts_entity_id") None = true
  /\ has_upper "E100" = true
  /\ ~ In "%"%char (Py.chars count_sql_repaired)
  /\ ~ In "?"%char (Py.chars count_sql_repaired)
  /\ _check_scoping_filter_exists_with_context
       default_config (scoped_graph "accounts_entity_id") count_sql_repaired
       ["shipments"] (Some "E100") (Some "accounts_entity_id") None
     = false.
Proof.
  assert (H1 : literal_names default_config (scoped_graph "accounts_entity_id")
                 ["shipments"] (Some "E100") (Some "accounts_entity_id") None
               = true) by (vm_compute; reflexivity).
  assert (H2 : has_upper "E100" = true) by reflexivity.
  assert (H3 : ~ In "%"%char (Py.chars count_sql_repaired))
    by (apply not_In_chars; vm_compute; reflexivity).
  assert (H4 : ~ In "?"%char (Py.chars count_sql_repaired))
    by (apply not_In_chars; vm_compute; reflexivity).
  repeat (split; [assumption|]).
  exact (scoping_filter_upper_case_value _ _ _ _ _ _ _ H1 H2 H3 H4).
Defined.

Lemma scoping_tier_never_rejects_witness :
  literal_names default_config (scoped_graph "accounts_entity_id") ["shipments"]
                (Some "E100") (Some "accounts_entity_id") None = true
  /\ ENABLE_AUTO_SCOPING default_config = true
  /\ exists modified applied,
       _validate_scoping_filtering_with_context
         default_config (scoped_graph "accounts_entity_id") count_sql
         ["shipments"] (Some "E100") (Some "accounts_entity_id") None
       = Pass modified applied
       /\ (modified = None
           \/ modified = Some (_append_scoping_filter_with_context
                                 default_config (scoped_graph "accounts_entity_id")
                                 count_sql ["shipments"] (Some "E100")
                                 (Some "accounts_entity_id") None)).
Proof.
  assert (H1 : literal_names default_config (scoped_graph "accounts_entity_id")
                 ["shipments"] (Some "E100") (Some "accounts_entity_id") None
               = true) by (vm_compute; reflexivity).
  split; [exact H1|]. split; [reflexivity|].
  exact (scoping_tier_never_rejects _ _ count_sql _ _ _ _ H1 eq_refl).
Defined.

End QueryExtraFacts.

(** ** More on the schema index *)

Module IndexExtraFacts.
Import Schema SchemaIndex IndexText.

Lemma chars_append (a b : string) :
  Py.chars (a +:+ b) = Py.chars a ++ Py.chars b.
Proof. induction a as [|c a IH]; simpl; [reflexivity | rewrite IH; reflexivity]. Qed.

Lemma chars_join (sep : string) (xs : list string) (c : ascii) :
  In c (Py.chars (Py.join sep xs)) ->
  In c (Py.chars sep) \/ exists x, In x xs /\ In c (Py.chars x).
Proof.
  induction xs as [|x xs IH]; [intros []|].
  destruct xs as [|y xs].
  - simpl. intros H. right. exists x. auto.
  - change (Py.join sep (x :: y :: xs)) with (x +:+ sep +:+ Py.join sep (y :: xs)).
    rewrite !chars_append, !in_app_iff. intros [H|[H|H]].
    + right. exists x. simpl. auto.
    + auto.
    + apply IH in H as [H|(z & Hz & H)]; [auto|].
      right. exists z. simpl in *. tauto.
Qed.

Lemma str_nonempty (l : list ascii) : l <> [] -> Py.str l <> "".
Proof.
  intros Hl H. apply Hl. rewrite <- (SchemaQueryFacts.chars_str l), H. reflexivity.
Qed.

(** The runs are made of the word characters of the text. *)
Lemma word_runs_tokens (P : ascii -> Prop) (l : list ascii) :
  forall cur t,
    (forall c, In c cur -> P c /\ Py.is_word c = true) ->
    (forall c, In c l -> P c) ->
    In t (word_runs cur l) ->
    t <> "" /\ forall c, In c (Py.chars t) -> P c /\ Py.is_word c = true.
Proof.
  assert (Hrun : forall cur, cur <> [] ->
            (forall c, In c cur -> P c /\ Py.is_word c = true) ->
            Py.str (rev cur) <> ""
            /\ forall c, In c (Py.chars (Py.str (rev cur))) -> P c /\ Py.is_word c = true).
  { intros cur Hne Hcur. split.
    - apply str_nonempty. intros H. apply Hne.
      rewrite <- (rev_involutive cur), H. reflexivity.
    - intros c. rewrite SchemaQueryFacts.chars_str, <- in_rev. apply Hcur. }
  induction l as [|c l IH]; intros cur t Hcur Hl Ht; simpl in Ht.
  - destruct cur as [|c cur]; [destruct Ht|].
    destruct Ht as [<-|[]]. apply Hrun; [discriminate | exact Hcur].
  - destruct (Py.is_word c) eqn:Hc.
    + apply (IH (c :: cur) t); auto.
      * intros x [<-|Hx]; [split; [apply Hl; left; reflexivity | exact Hc] | auto].
      * intros x Hx. apply Hl. right. exact Hx.
    + destruct cur as [|c' cur].
      * apply (IH [] t); auto. intros x Hx. apply Hl. right. exact Hx.
      * destruct Ht as [<-|Ht]; [apply Hrun; [discriminate | exact Hcur]|].
        apply (IH [] t); auto; [intros x []|].
        intros x Hx. apply Hl. right. exact Hx.
Qed.

Lemma lower_word_chars (t : string) :
  lower_word t = true <->
  forall c, In c (Py.chars t) -> Py.is_upper c = false /\ Py.is_word c = true.
Proof.
  unfold lower_word. rewrite forallb_forall. split; intros H c Hc.
  - apply H in Hc. apply andb_prop in Hc as [Hw Hu].
    apply negb_true_iff in Hu. auto.
  - destruct (H c Hc) as [Hu Hw]. rewrite Hw, Hu. reflexivity.
Qed.

Lemma lower_fixes (s : string) :
  (forall c, In c (Py.chars s) -> Py.is_upper c = false) -> Py.lower s = s.
Proof.
  intros H. unfold Py.lower.
  rewrite <- (SchemaQueryFacts.str_chars s) at 2. f_equal.
  rewrite <- (map_id (Py.chars s)) at 2. apply map_ext_in.
  intros c Hc. unfold Py.lower_char. rewrite (H c Hc). reflexivity.
Qed.

(** The runs of a text without upper-case letters. *)
Lemma word_runs_lower (l : list ascii) (t : string) :
  (forall c, In c l -> Py.is_upper c = false) ->
  In t (word_runs [] l) ->
  t <> "" /\ lower_word t = true /\ Py.lower t = t.
Proof.
  intros Hl H.
  apply (word_runs_tokens (fun c => Py.is_upper c = false)) in H as [Hne Hc].
  - split; [exact Hne|]. split; [apply lower_word_chars; exact Hc|].
    apply lower_fixes. intros c Hin. apply Hc. exact Hin.
  - intros c [].
  - exact Hl.
Qed.

Lemma tokens_lower_word (text t : string) :
  In t (_tokenize text) -> lower_word t = true.
Proof.
  unfold _tokenize. intros H. apply word_runs_lower in H; [tauto|].
  intros c Hc. apply QueryExtraFacts.In_chars_lower in Hc. tauto.
Qed.

(** X18. Every token that [_tokenize] makes of an ASCII text is a
    non-empty text of digits, underscores and lower-case letters, which
    lower-casing leaves as it is. *)
Theorem _tokenize_tokens (text t : string) :
  Py.is_ascii text = true ->
  In t (_tokenize text) ->
  t <> "" /\ lower_word t = true /\ Py.lower t = t.
Proof.
  intros Hascii H. unfold _tokenize in H.
  apply word_runs_lower in H; [exact H|].
  intros c Hc. apply QueryExtraFacts.In_chars_lower in Hc. tauto.
Qed.

Lemma _tokenize_tokens_witness :
  Py.is_ascii "Show Pending-ORDERS, please!" = true
  /\ In "orders" (_tokenize "Show Pending-ORDERS, please!")
  /\ "orders" <> "" /\ lower_word "orders" = true /\ Py.lower "orders" = "orders".
Proof.
  assert (Ha : Py.is_ascii "Show Pending-ORDERS, please!" = true) by reflexivity.
  assert (H : In "orders" (_tokenize "Show Pending-ORDERS, please!"))
    by (vm_compute; auto).
  split; [exact Ha|]. split; [exact H|]. exact (_tokenize_tokens _ _ Ha H).
Defined.

(** *** Documents of tidy names *)

Lemma word_not_space (c : ascii) : Py.is_word c = true -> Py.is_space c = false.
Proof. destruct c as [[] [] [] [] [] [] [] []]; (reflexivity || discriminate). Qed.

Lemma word_runs_nonblank (l : list ascii) :
  (forall c, In c l -> Py.is_word c = negb (Py.is_space c)) ->
  forall cur, word_runs cur l = nonblank_runs cur l.
Proof.
  induction l as [|c l IH]; intros Hl cur; simpl; [reflexivity|].
  rewrite <- (Hl c) by (left; reflexivity).
  assert (Hl' : forall c, In c l -> Py.is_word c = negb (Py.is_space c))
    by (intros x Hx; apply Hl; right; exact Hx).
  destruct (Py.is_word c); [apply IH; exact Hl'|].
  destruct cur; rewrite IH by exact Hl'; reflexivity.
Qed.

(** A text of lower-case words and blanks has the same tokens as
    blank-separated words. *)
Lemma _tokenize_split (doc : string) :
  (forall c, In c (Py.chars doc) ->
     Py.is_upper c = false /\ Py.is_word c = negb (Py.is_space c)) ->
  _tokenize doc = split doc.
Proof.
  intros H. unfold _tokenize, split.
  rewrite lower_fixes by (intros c Hc; apply H; exact Hc).
  apply word_runs_nonblank. intros c Hc. apply H. exact Hc.
Qed.

Lemma table_doc_tidy (g : SchemaGraph) (entry : string * TableInfo) (c : ascii) :
  lower_word (fst entry) = true ->
  In c (Py.chars (table_doc g entry)) ->
  Py.is_upper c = false /\ Py.is_word c = negb (Py.is_space c).
Proof.
  destruct entry as [table_name table_info]. simpl fst. intros Hname Hc.
  unfold table_doc in Hc. apply chars_join in Hc as [Hc|(x & Hx & Hc)].
  - destruct Hc as [<-|[]]. split; reflexivity.
  - assert (Hw : lower_word x = true).
    { rewrite !in_app_iff in Hx.
      destruct Hx as [Hx|[Hx|[Hx|[Hx|Hx]]]].
      - destruct Hx as [<-|[<-|[<-|[]]]]; exact Hname.
      - destruct (description table_info); [|destruct Hx].
        apply tokens_lower_word in Hx. exact Hx.
      - apply in_flat_map in Hx as (y & _ & Hx). apply tokens_lower_word in Hx. exact Hx.
      - apply in_flat_map in Hx as (y & _ & Hx). apply tokens_lower_word in Hx. exact Hx.
      - apply in_flat_map in Hx as (y & _ & Hx).
        destruct (Py.in_list table_name (snd y)); [|destruct Hx].
        apply tokens_lower_word in Hx. exact Hx. }
    destruct (proj1 (lower_word_chars x) Hw c Hc) as [Hu Hword].
    split; [exact Hu|]. rewrite Hword, (word_not_space _ Hword). reflexivity.
Qed.

Lemma table_docs_tidy (g : SchemaGraph) :
  forallb lower_word (table_names g) = true ->
  forall doc, In doc (table_docs g) -> _tokenize doc = split doc.
Proof.
  intros Hnames doc Hdoc. unfold table_docs in Hdoc.
  apply in_map_iff in Hdoc as (entry & <- & Hentry).
  apply _tokenize_split. intros c Hc. apply (table_doc_tidy g entry); [|exact Hc].
  rewrite forallb_forall in Hnames. apply Hnames.
  unfold table_names. apply in_map. exact Hentry.
Qed.

(** *** Loops that raise *)

Lemma for_each_total_in {A S : Type} (body : S -> A -> res S) (xs : list A) :
  (forall s x, In x xs -> exists s', body s x = Ok s') ->
  forall st, exists r, for_each xs body st = Ok r.
Proof.
  induction xs as [|x xs IH]; intros Hbody st; simpl; [eauto|].
  destruct (Hbody st x) as [s' ->]; [left; reflexivity|]. simpl.
  apply IH. intros s y Hy. apply Hbody. right. exact Hy.
Qed.

Lemma for_each_raises {A S : Type} (body : S -> A -> res S) (E : string)
  (xs : list A) (x : A) :
  In x xs ->
  (forall s, body s x = Raise E) ->
  (forall s y e, body s y = Raise e -> e = E) ->
  forall st, for_each xs body st = Raise E.
Proof.
  intros Hin Hx Hall. induction xs as [|y xs IH]; intros st; [destruct Hin|].
  simpl. destruct (body st y) as [s'|e] eqn:Hb; simpl.
  - destruct Hin as [->|Hin]; [rewrite Hx in Hb; discriminate|]. apply IH. exact Hin.
  - apply Hall in Hb. subst. reflexivity.
Qed.

Lemma for_each_raise_inv {A S : Type} (P : string -> Prop) (body : S -> A -> res S) :
  (forall s y e, body s y = Raise e -> P e) ->
  forall xs st e, for_each xs body st = Raise e -> P e.
Proof.
  intros Hall xs. induction xs as [|y xs IH]; intros st e H; simpl in H;
    [discriminate|].
  destruct (body st y) as [s'|e'] eqn:Hb; simpl in H.
  - eapply IH. exact H.
  - inversion H; subst. eapply Hall. exact Hb.
Qed.

Lemma In_enumerate {A : Type} (l : list A) :
  forall k i x, In (i, x) (enumerate k l) -> In x l.
Proof.
  induction l as [|y l IH]; intros k i x H; simpl in H; [destruct H|].
  destruct H as [H|H]; [inversion H; left; reflexivity|].
  right. eapply IH. exact H.
Qed.

Lemma enumerate_In {A : Type} (l : list A) (x : A) :
  In x l -> forall k, exists i, In (i, x) (enumerate k l).
Proof.
  induction l as [|y l IH]; intros Hin k; [destruct Hin|].
  destruct Hin as [->|Hin].
  - exists k. left. reflexivity.
  - destruct (IH Hin (S k)) as [i Hi]. exists i. right. exact Hi.
Qed.

Lemma combine_map {A B C : Type} (f : A -> B) (h : A -> C) (l : list A) :
  combine (map f l) (map h l) = map (fun x => (f x, h x)) l.
Proof. induction l as [|x l IH]; simpl; [reflexivity | rewrite IH; reflexivity]. Qed.

Lemma count_of_In (term : string) (doc_tokens : list string) :
  count_of term doc_tokens <> 0%nat <-> In term doc_tokens.
Proof.
  unfold count_of. split.
  - intros H. destruct (List.filter (String.eqb term) doc_tokens) as [|x l] eqn:E;
      [destruct H; reflexivity|].
    assert (Hx : In x (List.filter (String.eqb term) doc_tokens))
      by (rewrite E; left; reflexivity).
    apply filter_In in Hx as [Hx Heq]. apply String.eqb_eq in Heq. subst. exact Hx.
  - intros Hin H. apply length_zero_iff_nil in H.
    assert (Hx : In term (List.filter (String.eqb term) doc_tokens))
      by (apply filter_In; split; [exact Hin | apply String.eqb_refl]).
    rewrite H in Hx. destruct Hx.
Qed.

Section Raising.

Variable float : Type.
Variable flt : Q -> float.
Variables fadd fsub fmul fdiv : float -> float -> float.
Variable flog : float -> float.
Variable fle : float -> float -> bool.
Variable tfidf_fitted : bool.
Variable tfidf_cosine : string -> nat -> option float.
Variable g : SchemaGraph.

Local Abbreviation bm25_term' := (bm25_term float flt fadd fsub fmul fdiv flog g).
Local Abbreviation bm25' := (_compute_bm25_score float flt fadd fsub fmul fdiv flog g).
Local Abbreviation combined' :=
  (combined_score float flt fadd fsub fmul fdiv flog tfidf_fitted tfidf_cosine g).
Local Abbreviation all_scores' :=
  (all_scores float flt fadd fsub fmul fdiv flog tfidf_fitted tfidf_cosine g).
Local Abbreviation search_tables' :=
  (search_tables float flt fadd fsub fmul fdiv flog fle tfidf_fitted tfidf_cosine g).

(** The document frequency of a term: the documents that have it as a
    blank-separated word. *)
Local Abbreviation df term :=
  (length (List.filter (fun doc => Py.in_list term (split doc)) (table_docs g))).

Lemma bm25_term_cases doc_tokens score term :
  (In term doc_tokens /\ df term = 0%nat
   /\ bm25_term' doc_tokens score term = Raise "ZeroDivisionError")
  \/ ((~ In term doc_tokens \/ df term <> 0%nat)
      /\ exists s', bm25_term' doc_tokens score term = Ok s').
Proof.
  unfold bm25_term. cbv zeta.
  destruct (count_of term doc_tokens) as [|n] eqn:Hc.
  - right. split; [|eauto]. left. intros Hin. apply count_of_In in Hin. auto.
  - assert (Hin : In term doc_tokens) by (apply count_of_In; rewrite Hc; discriminate).
    destruct (df term) as [|m] eqn:Hd.
    + left. auto.
    + right. split; [|eauto]. right. discriminate.
Qed.

Lemma bm25_raise query_tokens doc_tokens e :
  bm25' query_tokens doc_tokens = Raise e -> e = "ZeroDivisionError".
Proof.
  unfold _compute_bm25_score.
  destruct query_tokens; [discriminate|]. destruct doc_tokens; [discriminate|].
  apply (for_each_raise_inv (fun e => e = "ZeroDivisionError")).
  intros sc term e' H.
  destruct (bm25_term_cases (s0 :: doc_tokens) sc term)
    as [(_ & _ & Hr)|(_ & s' & Hok)]; congruence.
Qed.

Lemma all_scores_body_raise query acc (entry : nat * (string * string)) e :
  (let '(i, (table_name, doc)) := entry in
   let* sc := combined' query i table_name doc in
   Ok (acc ++ [(table_name, sc)])) = Raise e ->
  e = "ZeroDivisionError".
Proof.
  destruct entry as [i [table_name doc]]. unfold combined_score. cbv zeta.
  destruct (bm25' (_tokenize query) (_tokenize doc)) as [bm|e'] eqn:Hb; simpl;
    [discriminate|].
  intros H. inversion H; subst. eapply bm25_raise. exact Hb.
Qed.

(** X19. When a token of the query is a token of some table document
    but a blank-separated word of none, [search_tables] fails with
    [ZeroDivisionError] in the document frequency of
    [_compute_bm25_score]: the documents are tokenised in lower case and by
    word characters, the frequency counts the words as they stand. *)
Theorem search_tables_raises (query : string) (top_k : nat) (min_score : float)
  (t : string) :
  Py.in_list t (_tokenize query) = true ->
  existsb (fun doc => Py.in_list t (_tokenize doc)) (table_docs g) = true ->
  forallb (fun doc => negb (Py.in_list t (split doc))) (table_docs g) = true ->
  search_tables' query top_k min_score = Raise "ZeroDivisionError".
Proof.
  intros Hq Hdoc Hnone.
  apply in_list_In in Hq.
  apply existsb_exists in Hdoc as (doc & Hdoc & Ht). apply in_list_In in Ht.
  assert (Hdf : df t = 0%nat).
  { apply length_zero_iff_nil.
    destruct (List.filter _ (table_docs g)) as [|d l] eqn:E; [reflexivity|].
    assert (Hd : In d (List.filter (fun doc => Py.in_list t (split doc))
                                   (table_docs g)))
      by (rewrite E; left; reflexivity).
    apply filter_In in Hd as [Hd Hin].
    rewrite forallb_forall in Hnone. apply Hnone in Hd. rewrite Hin in Hd.
    discriminate. }
  assert (Hbm : bm25' (_tokenize query) (_tokenize doc) = Raise "ZeroDivisionError").
  { unfold _compute_bm25_score.
    destruct (_tokenize query) as [|q qs] eqn:Eq; [destruct Hq|].
    destruct (_tokenize doc) as [|d ds] eqn:Ed; [destruct Ht|].
    apply (for_each_raises _ _ _ t Hq).
    - intros sc. destruct (bm25_term_cases (d :: ds) sc t)
        as [(_ & _ & Hr)|([Hn|Hn] & _)]; [exact Hr | tauto | tauto].
    - intros sc term e H.
      destruct (bm25_term_cases (d :: ds) sc term)
        as [(_ & _ & Hr)|(_ & s' & Hok)]; congruence. }
  assert (Hall : all_scores' query = Raise "ZeroDivisionError").
  { unfold all_scores, indexed_tables.
    unfold table_docs in Hdoc. apply in_map_iff in Hdoc as (entry & Hentry & Hin).
    assert (Hpair : In (fst entry, doc) (combine (table_names g) (table_docs g))).
    { unfold table_names, table_docs. rewrite combine_map, <- Hentry.
      apply (in_map (fun x => (fst x, table_doc g x))). exact Hin. }
    destruct (enumerate_In _ _ Hpair 0%nat) as [i Hi].
    apply (for_each_raises _ _ _ _ Hi).
    - intros acc. unfold combined_score. cbv zeta. rewrite Hbm. reflexivity.
    - intros acc y e. apply all_scores_body_raise. }
  unfold search_tables.
  destruct (_tokenize query) as [|q qs] eqn:Eq; [destruct Hq|].
  rewrite Hall. reflexivity.
Qed.

(** X20. When every table name is made of digits, underscores and
    lower-case letters, [search_tables] raises nothing: it returns a
    result for every query. *)
Theorem search_tables_returns (query : string) (top_k : nat) (min_score : float) :
  forallb lower_word (table_names g) = true ->
  exists result, search_tables' query top_k min_score = Ok result.
Proof.
  intros Hnames. unfold search_tables.
  destruct (_tokenize query) as [|q qs] eqn:Eq; [eauto|].
  assert (Hall : exists scored, all_scores' query = Ok scored).
  { unfold all_scores, indexed_tables. apply for_each_total_in.
    intros acc [i [table_name doc]] Hin.
    apply In_enumerate, in_combine_r in Hin.
    assert (Hbm : exists bm, bm25' (_tokenize query) (_tokenize doc) = Ok bm).
    { unfold _compute_bm25_score.
      destruct (_tokenize query) as [|q' qs']; [eauto|].
      destruct (_tokenize doc) as [|d ds] eqn:Ed; [eauto|].
      apply for_each_total. intros sc term.
      destruct (bm25_term_cases (d :: ds) sc term)
        as [(Hterm & Hdf & _)|(_ & Hok)]; [exfalso | exact Hok].
      apply length_zero_iff_nil in Hdf.
      assert (Hd : In doc (List.filter (fun doc => Py.in_list term (split doc))
                                       (table_docs g))).
      { apply filter_In. split; [exact Hin|]. apply in_list_In.
        rewrite <- (table_docs_tidy g Hnames doc Hin), Ed. exact Hterm. }
      rewrite Hdf in Hd. destruct Hd. }
    destruct Hbm as [bm Hbm]. unfold combined_score. cbv zeta. rewrite Hbm.
    simpl. eauto. }
  destruct Hall as [scored ->]. simpl. eauto.
Qed.

End Raising.

(** *** Examples *)

Lemma search_tables_raises_witness :
  Py.in_list "shipments" (_tokenize "shipments") = true
  /\ existsb (fun doc => Py.in_list "shipments" (_tokenize doc))
             (table_docs capital_graph) = true
  /\ forallb (fun doc => negb (Py.in_list "shipments" (split doc)))
             (table_docs capital_graph) = true
  /\ search_tables_Q capital_graph "shipments" 10 (1 # 10)
     = Raise "ZeroDivisionError".
Proof.
  assert (H1 : Py.in_list "shipments" (_tokenize "shipments") = true)
    by (vm_compute; reflexivity).
  assert (H2 : existsb (fun doc => Py.in_list "shipments" (_tokenize doc))
                       (table_docs capital_graph) = true)
    by (vm_compute; reflexivity).
  assert (H3 : forallb (fun doc => negb (Py.in_list "shipments" (split doc)))
                       (table_docs capital_graph) = true)
    by (vm_compute; reflexivity).
  repeat (split; [assumption|]).
  exact (search_tables_raises Q Qred Qadd' Qsub' Qmul' Qdiv' Qlog Qle_bool false
           (fun _ _ => None) capital_graph "shipments" 10%nat (1 # 10) "shipments"
           H1 H2 H3).
Defined.

Lemma search_tables_returns_witness :
  forallb lower_word (table_names (default_graph "accounts_entity_id")) = true
  /\ exists result,
       search_tables_Q (default_graph "accounts_entity_id") "Pending orders" 10
                       (1 # 10) = Ok result.
Proof.
  assert (H1 : forallb lower_word (table_names (default_graph "accounts_entity_id"))
               = true) by (vm_compute; reflexivity).
  split; [exact H1|].
  exact (search_tables_returns Q Qred Qadd' Qsub' Qmul' Qdiv' Qlog Qle_bool false
           (fun _ _ => None) (default_graph "accounts_entity_id") "Pending orders"
           10%nat (1 # 10) H1).
Defined.

End IndexExtraFacts.

(** ** More on the validation loop *)

Module LoopExtraFacts.
Import Generator.

Section Loop.

Variable MAX : nat.
Variable generate_sql : nat -> list string -> string -> res string.
Variable is_count : bool.
Variable _fix_count_query : string -> string.
Variable validate : nat -> string -> list string -> res Validation.
Variable _extract_tables_from_sql : string -> list string.
Variable db_feedback : bool.
Variable explain : nat -> string -> res (option string).
Variable refine_ctx : nat -> string -> string -> list string -> Refinement.

Local Abbreviation step' :=
  (step MAX generate_sql is_count _fix_count_query validate
        _extract_tables_from_sql db_feedback explain refine_ctx).
Local Abbreviation run' :=
  (run MAX generate_sql is_count _fix_count_query validate
       _extract_tables_from_sql db_feedback explain refine_ctx).
Local Abbreviation submitted' :=
  (submitted generate_sql is_count _fix_count_query validate explain).
Local Abbreviation failed' :=
  (failed_iteration generate_sql is_count _fix_count_query validate explain refine_ctx).
Local Abbreviation before' :=
  (before MAX generate_sql is_count _fix_count_query validate explain refine_ctx).
Local Abbreviation accepts' :=
  (accepts generate_sql is_count _fix_count_query validate _extract_tables_from_sql).

(** X21. The [return] after the loop finds [validation_result] unbound
    exactly when [MAX_VALIDATION_ATTEMPTS] is 0: the loop then crashes
    before its first iteration, and it never crashes otherwise. *)
Theorem validation_loop_crash (relevant_tables : list string) (schema_context : string) :
  (exists e n,
     _generate_with_validation_loop MAX generate_sql is_count _fix_count_query
       validate _extract_tables_from_sql db_feedback explain refine_ctx
       relevant_tables schema_context = Some (Crashed e, n))
  <-> MAX = 0%nat.
Proof.
  split.
  - intros (e & n & H). destruct MAX as [|m] eqn:HM; [reflexivity|]. exfalso.
    unfold _generate_with_validation_loop in H.
    destruct (LoopFacts.run_ok (S m) generate_sql is_count _fix_count_query validate
                _extract_tables_from_sql db_feedback explain refine_ctx (S m) 0
                (mkLocals 0 schema_context relevant_tables None None))
      as (r & n' & Hrun & _).
    + simpl. lia.
    + unfold loop_inv. simpl. split; [lia|]. left. lia.
    + congruence.
  - intros ->. exists "UnboundLocalError", 0%nat. reflexivity.
Qed.

(** *** Iterations that do not return *)

Lemma on_exception_continue st e st' :
  on_exception MAX st e = Continue st' ->
  attempt st' = S (attempt st)
  /\ current_schema_context st' = current_schema_context st
  /\ current_tables st' = current_tables st.
Proof.
  unfold on_exception. destruct (MAX <=? S (attempt st))%nat; [discriminate|].
  intros H. inversion H; subst. simpl. auto.
Qed.

(** The refinement after the rejection of [s] with [err] in iteration
    [iter], which was entered with [st]. *)
Lemma refine_continue iter st s err sql0 err0 st' :
  submitted' iter st s err ->
  refine MAX refine_ctx iter
         (mkLocals (S (attempt st)) (current_schema_context st) (current_tables st)
                   sql0 err0) err
  = Continue st' ->
  failed' iter st st'.
Proof.
  intros Hsub. unfold refine. simpl.
  destruct (refine_ctx iter (current_schema_context st) err (current_tables st))
    as [ctx tables|e tables_left] eqn:Hr.
  - intros H. inversion H; subst.
    eapply iteration_refined; [exact Hsub | exact Hr | reflexivity].
  - intros H. apply on_exception_continue in H as (Ha & Hc & Ht). simpl in *.
    eapply iteration_refine_raised; [exact Hsub | | exact Ha | exact Hc].
    rewrite Ht. exact Hr.
Qed.

Lemma rejected_continue iter st s err st' :
  submitted' iter st s err ->
  rejected MAX refine_ctx iter st s err = Continue st' ->
  failed' iter st st'.
Proof.
  intros Hsub. unfold rejected.
  destruct (S (attempt st) <? MAX)%nat.
  - intros H. eapply refine_continue; [exact Hsub | exact H].
  - intros H. inversion H; subst. apply iteration_kept; reflexivity.
Qed.

Lemma step_failed iter st st' :
  step' iter st = Continue st' -> failed' iter st st'.
Proof.
  unfold step.
  destruct (generate_sql iter (current_tables st) (current_schema_context st))
    as [s0|e] eqn:Hgen.
  2:{ intros H. apply on_exception_continue in H as (Ha & Hc & Ht).
      apply iteration_kept; assumption. }
  destruct (negb is_count && starts_with_count s0) eqn:Hcm.
  { destruct (S (attempt st) <? MAX)%nat; [|discriminate].
    intros H. eapply refine_continue; [|exact H].
    exists s0. split; [exact Hgen|]. left. auto. }
  set (s := if is_count && negb (starts_with_count s0)
            then _fix_count_query s0 else s0).
  destruct (validate iter s (current_tables st)) as [v|e] eqn:Hv.
  2:{ intros H. apply on_exception_continue in H as (Ha & Hc & Ht).
      apply iteration_kept; assumption. }
  assert (Hsub : forall err,
             match v with
             | VInvalid e => err = e
             | VValid modified _ =>
                 (exists l, err = "SQL uses tables not in plan: " +:+ Py.repr_list l)
                 \/ (exists db_error,
                        explain iter ("EXPLAIN " +:+ Py.rstrip_char ";"%char modified)
                        = Ok (Some db_error)
                        /\ err = "Database error: " +:+ db_error)
             end -> submitted' iter st s err).
  { intros err Herr. exists s0. split; [exact Hgen|]. right.
    split; [exact Hcm|]. split; [reflexivity|]. exists v. auto. }
  destruct v as [modified tables|err].
  - destruct (List.filter _ _) as [|bad rest] eqn:Hbad.
    + destruct db_feedback; [|discriminate].
      destruct (explain iter _) as [[db_error|]|e] eqn:Hex; try discriminate.
      apply rejected_continue. apply Hsub. right. eauto.
    + apply rejected_continue. apply Hsub. left. eauto.
  - apply rejected_continue. apply Hsub. reflexivity.
Qed.

(** Every iteration counts at least one attempt, and exactly one when
    the refinement does not raise. *)
Lemma before_attempt relevant_tables schema_context iter st :
  before' relevant_tables schema_context iter st -> (iter <= attempt st)%nat.
Proof.
  induction 1 as [|iter st st' Hb IH Hlt Hf]; simpl; [lia|].
  destruct Hf as [Ha _ _|s err _ _ Ha|s err e _ _ Ha _]; lia.
Qed.

Lemma before_attempt_exact relevant_tables schema_context iter st :
  (forall i ctx err tables e tables_left,
      refine_ctx i ctx err tables <> RefineRaised e tables_left) ->
  before' relevant_tables schema_context iter st -> attempt st = iter.
Proof.
  intros Hno. induction 1 as [|iter st st' Hb IH Hlt Hf]; simpl; [reflexivity|].
  destruct Hf as [Ha _ _|s err _ _ Ha|s err e _ Hr _ _]; try lia.
  exfalso. eapply Hno. exact Hr.
Qed.

(** *** Successful runs *)

Lemma on_exception_fails st e r :
  on_exception MAX st e = Return r -> success r = false.
Proof.
  unfold on_exception. destruct (MAX <=? S (attempt st))%nat; [|discriminate].
  intros H. inversion H. reflexivity.
Qed.

Lemma refine_fails iter st err r :
  refine MAX refine_ctx iter st err = Return r -> success r = false.
Proof.
  unfold refine. destruct (refine_ctx iter _ err _) as [ctx tables|e tables_left];
    [discriminate | apply on_exception_fails].
Qed.

Lemma rejected_fails iter st s err r :
  rejected MAX refine_ctx iter st s err = Return r -> success r = false.
Proof.
  unfold rejected. destruct (S (attempt st) <? MAX)%nat; [|discriminate].
  apply refine_fails.
Qed.

Lemma step_success iter st r :
  step' iter st = Return r -> success r = true -> accepts' iter st r.
Proof.
  unfold step, accepts.
  destruct (generate_sql iter (current_tables st) (current_schema_context st))
    as [s0|e] eqn:Hgen.
  2:{ intros H Hs. apply on_exception_fails in H. congruence. }
  destruct (negb is_count && starts_with_count s0).
  { destruct (S (attempt st) <? MAX)%nat.
    - intros H Hs. apply refine_fails in H. congruence.
    - intros H Hs. inversion H; subst. discriminate Hs. }
  set (s := if is_count && negb (starts_with_count s0)
            then _fix_count_query s0 else s0).
  destruct (validate iter s (current_tables st)) as [[modified tables|err]|e] eqn:Hv.
  3:{ intros H Hs. apply on_exception_fails in H. congruence. }
  2:{ intros H Hs. apply rejected_fails in H. congruence. }
  destruct (List.filter _ _) as [|bad rest] eqn:Hbad.
  2:{ intros H Hs. apply rejected_fails in H. congruence. }
  assert (Hplan : forall t, In t (_extract_tables_from_sql s) ->
                            In t (current_tables st)).
  { intros t Ht. apply in_list_In.
    destruct (Py.in_list t (current_tables st)) eqn:Hin; [reflexivity|].
    assert (Hf : In t (List.filter
                         (fun t => negb (Py.in_list t (current_tables st)))
                         (Py.set_of_list (_extract_tables_from_sql s)))).
    { apply filter_In. split; [apply set_of_list_In; exact Ht|].
      rewrite Hin. reflexivity. }
    rewrite Hbad in Hf. destruct Hf. }
  subst s.
  destruct db_feedback; [destruct (explain iter _) as [[db_error|]|e]|];
    first [ intros H Hs; apply rejected_fails in H; congruence
          | intros H _; unfold succeeded in H; inversion H; subst; simpl;
            exists s0; auto ].
Qed.

Lemma run_success relevant_tables schema_context fuel :
  forall iter st r n,
    before' relevant_tables schema_context iter st ->
    run' fuel iter st = Some (Returned r, n) ->
    success r = true ->
    exists iter' st',
      n = S iter'
      /\ before' relevant_tables schema_context iter' st'
      /\ (attempt st' < MAX)%nat
      /\ accepts' iter' st' r.
Proof.
  assert (Hfinal : forall st r, final MAX st = Returned r -> success r = false).
  { intros st r. unfold final. destruct (l_validation_error st); [|discriminate].
    intros H. inversion H. reflexivity. }
  induction fuel as [|fuel IH]; intros iter st r n Hb H Hs; simpl in H;
    destruct (MAX <=? attempt st)%nat eqn:Hm.
  - inversion H. apply Hfinal in H1. congruence.
  - discriminate.
  - inversion H. apply Hfinal in H1. congruence.
  - apply Nat.leb_gt in Hm. destruct (step' iter st) as [st'|r'] eqn:Hstep.
    + eapply IH; [|exact H | exact Hs].
      eapply before_next; [exact Hb | exact Hm | apply step_failed; exact Hstep].
    + inversion H; subst. exists iter, st. split; [reflexivity|].
      split; [exact Hb|]. split; [exact Hm|].
      apply step_success; assumption.
Qed.

(** X23. A success of the loop after [n] iterations: the [n - 1]
    iterations before it did not return, and each of them left one
    attempt more and the context and the tables unchanged, or as
    [_refine_schema_context] returned them for the error of its
    rejection, or, when that call raised, two attempts more and the
    tables as the exception left them.  Iteration [n] generated, from
    the tables and the context that this leaves, a statement that the
    validator accepted; the SQL and the tables of the result are those
    of that validation, every table that [_extract_tables_from_sql]
    finds in the statement is one of the current tables, no error is
    set, and the attempts of the result are the attempts counted so far
    plus one: at least [n], at most the bound, and exactly [n] when no
    refinement raises. *)
Theorem validation_loop_success (relevant_tables : list string)
  (schema_context : string) (r : LoopResult) (n : nat) :
  _generate_with_validation_loop MAX generate_sql is_count _fix_count_query
    validate _extract_tables_from_sql db_feedback explain refine_ctx
    relevant_tables schema_context = Some (Returned r, n) ->
  success r = true ->
  exists iter st,
    n = S iter
    /\ before MAX generate_sql is_count _fix_count_query validate explain refine_ctx
              relevant_tables schema_context iter st
    /\ accepts generate_sql is_count _fix_count_query validate
               _extract_tables_from_sql iter st r
    /\ (n <= attempts r <= MAX)%nat
    /\ ((forall i ctx err tables e tables_left,
            refine_ctx i ctx err tables <> RefineRaised e tables_left) ->
        attempts r = n).
Proof.
  unfold _generate_with_validation_loop. intros Hrun Hs.
  destruct (run_success relevant_tables schema_context MAX 0 _ r n
              (before_first _ _ _ _ _ _ _ _ _) Hrun Hs)
    as (iter & st & -> & Hb & Hlt & Hacc).
  exists iter, st. split; [reflexivity|]. split; [exact Hb|]. split; [exact Hacc|].
  destruct Hacc as (s0 & _ & _ & _ & Hatt & _).
  pose proof (before_attempt _ _ _ _ Hb) as Hle.
  split; [lia|].
  intros Hno. rewrite Hatt, (before_attempt_exact _ _ _ _ Hno Hb). reflexivity.
Qed.

(** *** Runs without an accepted statement *)

Hypothesis refine_returns :
  forall iter ctx err tables, exists c t, refine_ctx iter ctx err tables = Refined c t.
Hypothesis never_accepted :
  forall iter s tables modified used,
    validate iter s tables <> Ok (VValid modified used).

(** What one iteration does then: one attempt more, and at the last
    attempt either a failure is returned or the error is kept. *)
Local Abbreviation exact iter out :=
  (match out with
   | Continue st' =>
       attempt st' = S iter
       /\ (S iter = MAX -> l_validation_error st' <> None)
   | Return r => S iter = MAX /\ success r = false /\ attempts r = MAX
   end).

Lemma on_exception_exact iter st e :
  attempt st = iter -> (iter < MAX)%nat ->
  exact iter (on_exception MAX st e).
Proof.
  intros Hat Hlt. unfold on_exception. rewrite Hat.
  destruct (MAX <=? S iter)%nat eqn:Hm; simpl.
  - apply Nat.leb_le in Hm. repeat split; lia.
  - apply Nat.leb_gt in Hm. split; [reflexivity | lia].
Qed.

Lemma rejected_exact iter st s err :
  attempt st = iter -> (iter < MAX)%nat ->
  exact iter (rejected MAX refine_ctx iter st s err).
Proof.
  intros Hat Hlt. unfold rejected, refine. rewrite Hat. simpl.
  destruct (S iter <? MAX)%nat eqn:Hm; simpl.
  - destruct (refine_returns iter (current_schema_context st) err (current_tables st))
      as (ctx & tables & ->). simpl. split; [reflexivity | discriminate].
  - split; [reflexivity | discriminate].
Qed.

Lemma step_exact iter st :
  attempt st = iter -> (iter < MAX)%nat -> exact iter (step' iter st).
Proof.
  intros Hat Hlt. unfold step.
  destruct (generate_sql iter (current_tables st) (current_schema_context st))
    as [s0|e]; [|apply on_exception_exact; assumption].
  destruct (negb is_count && starts_with_count s0).
  - unfold refine. rewrite Hat. simpl.
    destruct (S iter <? MAX)%nat eqn:Hm; simpl.
    + destruct (refine_returns iter (current_schema_context st) count_mismatch_error
                               (current_tables st)) as (ctx & tables & ->).
      simpl. split; [reflexivity | discriminate].
    + apply Nat.ltb_ge in Hm. repeat split; lia.
  - destruct (validate iter _ (current_tables st)) as [[modified tables|err]|e] eqn:Hv.
    + exfalso. eapply never_accepted. exact Hv.
    + apply rejected_exact; assumption.
    + apply on_exception_exact; assumption.
Qed.

Lemma run_exact fuel :
  forall iter st,
    attempt st = iter -> (iter <= MAX)%nat -> (MAX - iter <= fuel)%nat ->
    (iter = MAX -> l_validation_error st <> None) ->
    exists r,
      run' fuel iter st = Some (Returned r, MAX)
      /\ success r = false /\ attempts r = MAX.
Proof.
  assert (Hfinal : forall st, attempt st = MAX -> l_validation_error st <> None ->
            exists r, final MAX st = Returned r
                      /\ success r = false /\ attempts r = MAX).
  { intros st Hat Herr. unfold final.
    destruct (l_validation_error st) as [err|]; [|destruct Herr; reflexivity].
    eexists. split; [reflexivity|]. simpl. auto. }
  induction fuel as [|fuel IH]; intros iter st Hat Hle Hfuel Herr; simpl;
    rewrite Hat; destruct (MAX <=? iter)%nat eqn:Hm.
  - apply Nat.leb_le in Hm. assert (Hi : iter = MAX) by lia.
    assert (Hat' : attempt st = MAX) by lia.
    destruct (Hfinal st Hat' (Herr Hi)) as (r & -> & Hr). rewrite Hi. eauto.
  - apply Nat.leb_gt in Hm. lia.
  - apply Nat.leb_le in Hm. assert (Hi : iter = MAX) by lia.
    assert (Hat' : attempt st = MAX) by lia.
    destruct (Hfinal st Hat' (Herr Hi)) as (r & -> & Hr). rewrite Hi. eauto.
  - apply Nat.leb_gt in Hm.
    pose proof (step_exact iter st Hat Hm) as Hstep.
    destruct (step' iter st) as [st'|r].
    + destruct Hstep as [Hat' Herr']. apply IH; auto; lia.
    + destruct Hstep as (Heq & Hs & Ha). rewrite Heq. eauto.
Qed.

(** X22. When no statement is ever accepted and the refinement of the
    context never raises, the loop runs exactly
    [MAX_VALIDATION_ATTEMPTS] iterations, one attempt each, whatever the
    generation and the validation raise or answer, and returns a
    failure. *)
Theorem validation_loop_runs_all_attempts (relevant_tables : list string)
  (schema_context : string) :
  (0 < MAX)%nat ->
  exists r,
    _generate_with_validation_loop MAX generate_sql is_count _fix_count_query
      validate _extract_tables_from_sql db_feedback explain refine_ctx
      relevant_tables schema_context = Some (Returned r, MAX)
    /\ success r = false /\ attempts r = MAX.
Proof.
  intros Hpos. unfold _generate_with_validation_loop.
  apply run_exact; simpl; try lia.
Qed.

End Loop.

(** *** Examples *)

Lemma validation_loop_success_witness :
  exists r,
    _generate_with_validation_loop 3 failing_generate false (fun s => s)
      second_validate (fun _ => ["shipments"]) false (fun _ _ => Ok None) keep_context
      ["shipments"] "schema" = Some (Returned r, 2%nat)
    /\ success r = true
    /\ sql r = "SELECT name FROM shipments;"
    /\ attempts r = 2%nat
    /\ exists iter st,
         2%nat = S iter
         /\ before 3 failing_generate false (fun s => s) second_validate
                   (fun _ _ => Ok None) keep_context ["shipments"] "schema" iter st
         /\ accepts failing_generate false (fun s => s) second_validate
                    (fun _ => ["shipments"]) iter st r
         /\ (2 <= attempts r <= 3)%nat
         /\ ((forall i ctx err tables e tables_left,
                 keep_context i ctx err tables <> RefineRaised e tables_left) ->
             attempts r = 2%nat).
Proof.
  eexists. split; [vm_compute; reflexivity|].
  split; [reflexivity|]. split; [reflexivity|]. split; [reflexivity|].
  eapply (validation_loop_success 3 failing_generate false (fun s => s)
            second_validate (fun _ => ["shipments"]) false (fun _ _ => Ok None)
            keep_context ["shipments"] "schema").
  - vm_compute. reflexivity.
  - reflexivity.
Defined.

Lemma validation_loop_runs_all_attempts_witness :
  (0 < 3)%nat
  /\ exists r,
       _generate_with_validation_loop 3 failing_generate false (fun s => s)
         failing_validate (fun _ => []) false (fun _ _ => Ok None) keep_context
         ["shipments"] "schema" = Some (Returned r, 3%nat)
       /\ success r = false /\ attempts r = 3%nat.
Proof.
  split; [lia|].
  apply (validation_loop_runs_all_attempts 3 failing_generate false (fun s => s)
           failing_validate (fun _ => []) false (fun _ _ => Ok None) keep_context).
  - intros iter ctx err tables. eexists. eexists. reflexivity.
  - intros iter s tables modified used. discriminate.
  - lia.
Defined.

End LoopExtraFacts.

(** ** The selection of tables *)

Module SelectionFacts.
Import Schema Selection.

(** *** _apply_simplified_priority *)

(** Four classes that every element falls into exactly one of. *)
Lemma partition_four {A : Type} (f1 f2 f3 f4 : A -> bool) (l : list A) :
  (forall x, In x l ->
     (f1 x = true /\ f2 x = false /\ f3 x = false /\ f4 x = false)
     \/ (f1 x = false /\ f2 x = true /\ f3 x = false /\ f4 x = false)
     \/ (f1 x = false /\ f2 x = false /\ f3 x = true /\ f4 x = false)
     \/ (f1 x = false /\ f2 x = false /\ f3 x = false /\ f4 x = true)) ->
  Permutation
    (List.filter f1 l ++ List.filter f2 l ++ List.filter f3 l ++ List.filter f4 l) l.
Proof.
  induction l as [|x l IH]; intros H; [constructor|].
  assert (IH' := IH (fun y Hy => H y (or_intror Hy))). clear IH.
  simpl.
  destruct (H x (or_introl eq_refl))
    as [(-> & -> & -> & ->)|[(-> & -> & -> & ->)|[(-> & -> & -> & ->)|
                                                   (-> & -> & -> & ->)]]].
  - simpl. constructor. exact IH'.
  - symmetry. apply Permutation_cons_app. symmetry. exact IH'.
  - rewrite app_assoc. symmetry. apply Permutation_cons_app.
    rewrite <- app_assoc. symmetry. exact IH'.
  - rewrite !app_assoc. symmetry. apply Permutation_cons_app.
    rewrite <- !app_assoc. symmetry. exact IH'.
Qed.

Lemma classes_disjoint (t : string) :
  (Py.in_list t core_tables = true ->
   Py.in_list t relationship_tables = false /\ Py.in_list t lookup_tables = false)
  /\ (Py.in_list t relationship_tables = true -> Py.in_list t lookup_tables = false).
Proof.
  split; intros H; apply in_list_In in H.
  - destruct H as [<-|[<-|[<-|[<-|[<-|[<-|[<-|[]]]]]]]]; split; reflexivity.
  - destruct H as [<-|[<-|[<-|[<-|[<-|[]]]]]]; reflexivity.
Qed.

(** X24. [_apply_simplified_priority] only reorders: the list it returns
    is a permutation of the tables it was given, and it is the same for
    every query (the branches for simple and for complex queries return
    the same list). *)
Theorem _apply_simplified_priority_permutation (tables : list string)
  (user_query : string) :
  Permutation (_apply_simplified_priority tables user_query) tables
  /\ forall other_query,
       _apply_simplified_priority tables other_query
       = _apply_simplified_priority tables user_query.
Proof.
  split.
  - unfold _apply_simplified_priority. destruct tables as [|t0 tables']; [constructor|].
    cbv zeta.
    set (tables := t0 :: tables').
    assert (Hperm :
      Permutation
        (List.filter (fun t => Py.in_list t core_tables) tables
         ++ List.filter (fun t => negb (Py.in_list t core_tables)
                                  && negb (Py.in_list t relationship_tables)
                                  && negb (Py.in_list t lookup_tables)) tables
         ++ List.filter (fun t => Py.in_list t relationship_tables) tables
         ++ List.filter (fun t => Py.in_list t lookup_tables) tables)
        tables).
    { apply partition_four. intros t _.
      destruct (classes_disjoint t) as [Hcore Hrel].
      destruct (Py.in_list t core_tables) eqn:Hc.
      - destruct (Hcore eq_refl) as [-> ->]. simpl. intuition auto.
      - destruct (Py.in_list t relationship_tables) eqn:Hr.
        + rewrite (Hrel eq_refl). simpl. intuition auto.
        + destruct (Py.in_list t lookup_tables); simpl; intuition auto. }
    destruct (_is_simple_query user_query); exact Hperm.
  - intros other_query. unfold _apply_simplified_priority.
    destruct tables; [reflexivity|].
    destruct (_is_simple_query user_query), (_is_simple_query other_query);
      reflexivity.
Qed.

(** *** _expand_by_relationships *)

Local Abbreviation joins rel a b :=
  ((rel_from rel = a /\ rel_to rel = b) \/ (rel_to rel = a /\ rel_from rel = b)).

Lemma expand_table_In (table t : string) (rels : list Relationship) :
  forall related,
    In table related ->
    In t (fold_left
            (fun related_tables rel =>
               if String.eqb (rel_from rel) table
                  && negb (Py.in_list (rel_to rel) related_tables)
               then Py.set_add (rel_to rel) related_tables
               else if String.eqb (rel_to rel) table
                       && negb (Py.in_list (rel_from rel) related_tables)
               then Py.set_add (rel_from rel) related_tables
               else related_tables)
            rels related)
    <-> In t related \/ exists rel, In rel rels /\ joins rel table t.
Proof.
  induction rels as [|rel rels IH]; intros related Htable; simpl.
  - split; [auto | intros [H|(rel & [] & _)]; exact H].
  - set (related' :=
           if String.eqb (rel_from rel) table
              && negb (Py.in_list (rel_to rel) related)
           then Py.set_add (rel_to rel) related
           else if String.eqb (rel_to rel) table
                   && negb (Py.in_list (rel_from rel) related)
           then Py.set_add (rel_from rel) related
           else related).
    assert (Hstep : forall x, In x related' <-> In x related \/ joins rel table x).
    { intros x. unfold related'.
      destruct (String.eqb (rel_from rel) table) eqn:Hf; simpl.
      - apply String.eqb_eq in Hf.
        destruct (Py.in_list (rel_to rel) related) eqn:Hto; simpl.
        + apply in_list_In in Hto.
          assert (Hfrom : Py.in_list (rel_from rel) related = true)
            by (apply in_list_In; rewrite Hf; exact Htable).
          rewrite Hfrom. simpl negb. rewrite andb_false_r.
          split; [auto|]. intros [H|[[_ <-]|[_ <-]]]; auto.
          rewrite Hf. exact Htable.
        + rewrite set_add_In. split.
          * intros [->|H]; [right; left; auto | auto].
          * intros [H|[[_ <-]|[_ <-]]]; auto. right. rewrite Hf. exact Htable.
      - apply String.eqb_neq in Hf.
        destruct (String.eqb (rel_to rel) table) eqn:Ht; simpl.
        + apply String.eqb_eq in Ht.
          destruct (Py.in_list (rel_from rel) related) eqn:Hfrom; simpl.
          * apply in_list_In in Hfrom. split; [auto|].
            intros [H|[[Hc _]|[_ <-]]]; auto. contradiction.
          * rewrite set_add_In. split.
            -- intros [->|H]; [right; right; auto | auto].
            -- intros [H|[[Hc _]|[_ <-]]]; auto. contradiction.
        + apply String.eqb_neq in Ht. split; [auto|].
          intros [H|[[Hc _]|[Hc _]]]; auto; contradiction. }
    rewrite IH by (apply Hstep; auto). rewrite Hstep.
    split.
    + intros [[H|H]|(r & Hr & H)]; eauto.
    + intros [H|(r & [<-|Hr] & H)]; eauto.
Qed.

Lemma expand_table_adjacent (g : SchemaGraph) (table t : string) (related : list string) :
  In table related ->
  In t (expand_table g related table)
  <-> In t related \/ exists rel, In rel (relationships g) /\ joins rel table t.
Proof. intros H. unfold expand_table. apply expand_table_In. exact H. Qed.

Lemma expand_round_In (g : SchemaGraph) (t : string) (current_tables : list string) :
  forall related,
    (forall s, In s current_tables -> In s related) ->
    In t (fold_left (expand_table g) current_tables related)
    <-> In t related \/ exists s, In s current_tables /\ adjacent g s t.
Proof.
  induction current_tables as [|s0 cur IH]; intros related Hsub; simpl.
  - split; [auto | intros [H|(s & [] & _)]; exact H].
  - assert (Hs0 : In s0 related) by (apply Hsub; left; reflexivity).
    rewrite IH.
    + rewrite (expand_table_adjacent g s0 t related Hs0). unfold adjacent.
      split.
      * intros [[H|H]|(s & Hs & H)]; eauto.
      * intros [H|(s & [<-|Hs] & H)]; eauto.
    + intros s Hs. apply expand_table_adjacent; [exact Hs0|].
      left. apply Hsub. right. exact Hs.
Qed.

Lemma within_ext (g : SchemaGraph) (l l' : list string) :
  (forall t, In t l' <-> In t l) ->
  forall depth t, within g l' depth t <-> within g l depth t.
Proof.
  intros H depth. induction depth as [|d IH]; intros t; simpl; [apply H|].
  rewrite IH. split; intros [Ht|(s & Hs & Ha)]; auto; right; exists s;
    (split; [apply IH; exact Hs | exact Ha]).
Qed.

Lemma within_shift (g : SchemaGraph) (l l' : list string) :
  (forall t, In t l' <-> within g l 1 t) ->
  forall depth t, within g l' depth t <-> within g l (S depth) t.
Proof.
  intros H depth. induction depth as [|d IH]; intros t; [apply H|].
  change (within g l' (S d) t)
    with (within g l' d t \/ exists s, within g l' d s /\ adjacent g s t).
  change (within g l (S (S d)) t)
    with (within g l (S d) t \/ exists s, within g l (S d) s /\ adjacent g s t).
  rewrite IH. split; intros [Ht|(s & Hs & Ha)]; auto; right; exists s;
    (split; [apply IH; exact Hs | exact Ha]).
Qed.

Lemma expand_rounds_In (g : SchemaGraph) (max_depth : nat) :
  forall related t,
    In t (expand_rounds g max_depth related) <-> within g related max_depth t.
Proof.
  induction max_depth as [|d IH]; intros related t; [reflexivity|].
  change (expand_rounds g (S d) related)
    with (expand_rounds g d (fold_left (expand_table g) related related)).
  rewrite IH. apply within_shift. intros x.
  rewrite expand_round_In by auto. reflexivity.
Qed.

(** X25. [_expand_by_relationships] returns exactly the tables that are
    not seeds and that are at most [max_depth] relationships away from a
    seed, a relationship being followed in either direction. *)
Theorem _expand_by_relationships_within (g : SchemaGraph) (seed_tables : list string)
  (max_depth : nat) (t : string) :
  In t (_expand_by_relationships g seed_tables max_depth)
  <-> ~ In t seed_tables /\ within g seed_tables max_depth t.
Proof.
  unfold _expand_by_relationships. cbv zeta.
  rewrite filter_In, expand_rounds_In, negb_true_iff, in_list_false.
  rewrite (within_ext g seed_tables (Py.set_of_list seed_tables))
    by (intros x; apply set_of_list_In).
  tauto.
Qed.

(** *** _extract_tables_from_sql *)

Lemma starts_with_trans (p q s : list ascii) :
  Py.starts_with p q = true -> Py.starts_with q s = true ->
  Py.starts_with p s = true.
Proof.
  revert q s. induction p as [|a p IH]; intros q s Hpq Hqs; [reflexivity|].
  destruct q as [|b q]; [discriminate|]. destruct s as [|c s]; [discriminate|].
  simpl in *. apply andb_prop in Hpq as [Hab Hpq]. apply andb_prop in Hqs as [Hbc Hqs].
  unfold Py.eqc in *. apply Ascii.eqb_eq in Hab, Hbc. subst.
  rewrite Ascii.eqb_refl. simpl. eapply IH; eauto.
Qed.

Lemma starts_with_app (x p q : list ascii) :
  Py.starts_with p q = true -> Py.starts_with (x ++ p) (x ++ q) = true.
Proof.
  intros H. induction x as [|a x IH]; simpl; [exact H|].
  unfold Py.eqc. rewrite Ascii.eqb_refl. exact IH.
Qed.

Lemma contains_chars_prefix (p q s : list ascii) :
  Py.starts_with p q = true ->
  Py.contains_chars q s = true -> Py.contains_chars p s = true.
Proof.
  intros Hpq. induction s as [|c s IH]; simpl; intros H.
  - apply orb_true_iff in H as [H|H]; [|discriminate].
    rewrite (starts_with_trans _ _ _ Hpq H). reflexivity.
  - apply orb_true_iff in H as [H|H].
    + rewrite (starts_with_trans _ _ _ Hpq H). reflexivity.
    + rewrite (IH H). apply orb_true_r.
Qed.

Lemma contains_keyword_prefix (kw a b s : string) :
  Py.startswith b a = true ->
  Py.contains (kw +:+ b) s = true -> Py.contains (kw +:+ a) s = true.
Proof.
  unfold Py.startswith, Py.contains. rewrite !IndexExtraFacts.chars_append.
  intros Hab. apply contains_chars_prefix. apply starts_with_app. exact Hab.
Qed.

(** X26. [_extract_tables_from_sql] looks for the text [from <table>] or
    [join <table>]: whenever it reports a table, it also reports every
    table of the schema whose name is a beginning of that name, whether
    the statement uses it or not. *)
Theorem _extract_tables_from_sql_prefix (g : SchemaGraph) (sql a b : string) :
  In b (_extract_tables_from_sql g sql) ->
  In a (table_names g) ->
  Py.startswith b a = true ->
  In a (_extract_tables_from_sql g sql).
Proof.
  unfold _extract_tables_from_sql. cbv zeta. rewrite !filter_In.
  intros [_ Hb] Ha Hab. split; [exact Ha|].
  apply orb_true_iff in Hb as [Hb|Hb]; apply orb_true_iff; [left|right];
    eapply contains_keyword_prefix; eauto.
Qed.

Lemma _extract_tables_from_sql_prefix_witness :
  In "orders_archive"
     (_extract_tables_from_sql archive_graph "SELECT id FROM orders_archive")
  /\ In "orders" (table_names archive_graph)
  /\ Py.startswith "orders_archive" "orders" = true
  /\ In "orders" (_extract_tables_from_sql archive_graph "SELECT id FROM orders_archive").
Proof.
  assert (H1 : In "orders_archive"
                  (_extract_tables_from_sql archive_graph
                     "SELECT id FROM orders_archive")) by (vm_compute; auto).
  assert (H2 : In "orders" (table_names archive_graph)) by (vm_compute; auto).
  assert (H3 : Py.startswith "orders_archive" "orders" = true) by reflexivity.
  repeat (split; [assumption|]).
  exact (_extract_tables_from_sql_prefix _ _ _ _ H1 H2 H3).
Defined.

End SelectionFacts.

(** ** The schema cache *)

Module CacheFacts.
Import Cache.

(** *** The order of strings *)

Lemma compare_le_trans (a : string) :
  forall b c, String.compare a b <> Gt -> String.compare b c <> Gt ->
              String.compare a c <> Gt.
Proof.
  induction a as [|x a IH]; intros [|y b] [|z c]; simpl; try congruence.
  unfold Ascii.compare.
  destruct (N.compare_spec (N_of_ascii x) (N_of_ascii y)) as [Hxy|Hxy|Hxy];
    destruct (N.compare_spec (N_of_ascii y) (N_of_ascii z)) as [Hyz|Hyz|Hyz];
    destruct (N.compare_spec (N_of_ascii x) (N_of_ascii z)) as [Hxz|Hxz|Hxz];
    try congruence; try lia.
  apply IH.
Qed.

Lemma leb_trans (a b c : string) :
  String.leb a b = true -> String.leb b c = true -> String.leb a c = true.
Proof.
  unfold String.leb. intros Hab Hbc.
  pose proof (compare_le_trans a b c) as H.
  destruct (String.compare a b), (String.compare b c), (String.compare a c);
    try reflexivity; try discriminate; exfalso; apply H; congruence.
Qed.

Local Abbreviation le := (fun a b : string => String.leb a b = true).

Lemma insert_sorted_perm (x : string) (l : list string) :
  Permutation (insert_sorted x l) (x :: l).
Proof.
  induction l as [|y l IH]; simpl; [reflexivity|].
  destruct (String.leb x y); [reflexivity|].
  rewrite IH. apply perm_swap.
Qed.

Lemma sorted_perm (l : list string) : Permutation (sorted l) l.
Proof.
  induction l as [|x l IH]; simpl; [constructor|].
  rewrite insert_sorted_perm. constructor. exact IH.
Qed.

Lemma insert_sorted_sorted (x : string) (l : list string) :
  StronglySorted le l -> StronglySorted le (insert_sorted x l).
Proof.
  induction 1 as [|y l Hl IH Hy]; simpl.
  - constructor; constructor.
  - destruct (String.leb x y) eqn:Hxy.
    + constructor; [constructor; assumption|].
      constructor; [exact Hxy|].
      eapply List.Forall_impl; [|exact Hy]. intros z Hz. eapply leb_trans; eauto.
    + constructor; [exact IH|].
      assert (Hyx : String.leb y x = true).
      { destruct (String.leb_total x y) as [H'|H']; [congruence | exact H']. }
      apply List.Forall_forall. intros z Hz.
      apply (Permutation_in _ (insert_sorted_perm x l)) in Hz.
      destruct Hz as [<-|Hz]; [exact Hyx|].
      rewrite List.Forall_forall in Hy. apply Hy. exact Hz.
Qed.

Lemma sorted_sorted (l : list string) : StronglySorted le (sorted l).
Proof.
  induction l as [|x l IH]; simpl; [constructor | apply insert_sorted_sorted, IH].
Qed.

Lemma sorted_unique (l1 : list string) :
  forall l2, StronglySorted le l1 -> StronglySorted le l2 -> Permutation l1 l2 ->
             l1 = l2.
Proof.
  induction l1 as [|a l1 IH]; intros l2 H1 H2 Hp.
  - apply Permutation_nil in Hp. subst. reflexivity.
  - destruct l2 as [|b l2];
      [apply Permutation_sym, Permutation_nil in Hp; discriminate|].
    inversion H1 as [|? ? Hs1 Ha]; subst. inversion H2 as [|? ? Hs2 Hb]; subst.
    rewrite List.Forall_forall in Ha, Hb.
    assert (Hab : a = b).
    { assert (Hin1 : In a (b :: l2)) by (eapply Permutation_in; [exact Hp | left; reflexivity]).
      assert (Hin2 : In b (a :: l1))
        by (eapply Permutation_in; [apply Permutation_sym; exact Hp | left; reflexivity]).
      destruct Hin1 as [->|Hin1]; [reflexivity|].
      destruct Hin2 as [->|Hin2]; [reflexivity|].
      apply String.leb_antisym; [apply Ha; exact Hin2 | apply Hb; exact Hin1]. }
    subst b. f_equal. apply IH; [exact Hs1 | exact Hs2 |].
    eapply Permutation_cons_inv. exact Hp.
Qed.

(** The sorted list of the names does not depend on their order. *)
Lemma sorted_permutation (l1 l2 : list string) :
  Permutation l1 l2 -> sorted l1 = sorted l2.
Proof.
  intros Hp. apply sorted_unique; try apply sorted_sorted.
  rewrite !sorted_perm. exact Hp.
Qed.

(** *** The dict *)

Lemma dict_get_set (d : list (string * string)) (k v : string) :
  dict_get (dict_set d k v) k = Some v.
Proof.
  induction d as [|[k' v'] d IH]; simpl.
  - rewrite String.eqb_refl. reflexivity.
  - destruct (String.eqb k' k) eqn:Hk; simpl; rewrite Hk; [reflexivity | exact IH].
Qed.

Lemma dict_set_length (d : list (string * string)) (k v : string) :
  (length (dict_set d k v) <= S (length d))%nat.
Proof.
  induction d as [|[k' v'] d IH]; simpl; [lia|].
  destruct (String.eqb k' k); simpl; lia.
Qed.

Section Cache.

Variable md5 : string -> string.

(** X27. A description that was stored is found again under the same
    query context, in whatever order the table names are given: the
    key is made from the sorted names. *)
Theorem cache_round_trip (c c' : SchemaCache) (table_names other_order : list string)
  (description query_context : string) :
  cache_schema_description md5 c table_names description query_context = Ok c' ->
  Permutation table_names other_order ->
  get_cached_schema_description md5 c' other_order query_context = Some description.
Proof.
  unfold cache_schema_description, get_cached_schema_description, _get_cache_key.
  cbv zeta. intros H Hp. rewrite <- (sorted_permutation _ _ Hp).
  destruct (if (max_size c <=? Z.of_nat (length (schema_descriptions c)))%Z
            then match schema_descriptions c with
                 | [] => Raise "StopIteration"
                 | _ :: d' => Ok d'
                 end
            else Ok (schema_descriptions c)) as [d|e]; simpl in H; [|discriminate].
  inversion H; subst. simpl. apply dict_get_set.
Qed.

(** X28. A cache with a positive [max_size] that holds at most
    [max_size] descriptions takes every new description without an
    exception and holds at most [max_size] descriptions afterwards. *)
Theorem cache_bounded (c : SchemaCache) (table_names : list string)
  (description query_context : string) :
  (0 < max_size c)%Z ->
  (Z.of_nat (length (schema_descriptions c)) <= max_size c)%Z ->
  exists c',
    cache_schema_description md5 c table_names description query_context = Ok c'
    /\ max_size c' = max_size c
    /\ (Z.of_nat (length (schema_descriptions c')) <= max_size c)%Z.
Proof.
  intros Hpos Hlen. unfold cache_schema_description. cbv zeta.
  destruct (max_size c <=? Z.of_nat (length (schema_descriptions c)))%Z eqn:Hfull.
  - apply Z.leb_le in Hfull.
    destruct (schema_descriptions c) as [|entry d] eqn:Hd; [simpl in Hfull; lia|].
    simpl. eexists. split; [reflexivity|]. split; [reflexivity|]. simpl.
    pose proof (dict_set_length d (_get_cache_key md5 table_names query_context)
                                description) as Hs.
    simpl length in Hlen. lia.
  - apply Z.leb_gt in Hfull. simpl. eexists. split; [reflexivity|].
    split; [reflexivity|]. simpl.
    pose proof (dict_set_length (schema_descriptions c)
                  (_get_cache_key md5 table_names query_context) description) as Hs.
    lia.
Qed.

End Cache.

(** *** Examples *)

Lemma cache_round_trip_witness :
  exists c',
    cache_schema_description plain_key (mkCache 1 [("k", "old")])
      ["shipments"; "orders"] "two tables" "count orders" = Ok c'
    /\ Permutation ["shipments"; "orders"] ["orders"; "shipments"]
    /\ get_cached_schema_description plain_key c' ["orders"; "shipments"]
         "count orders" = Some "two tables".
Proof.
  eexists. split; [vm_compute; reflexivity|].
  assert (Hp : Permutation ["shipments"; "orders"] ["orders"; "shipments"])
    by apply perm_swap.
  split; [exact Hp|].
  eapply (cache_round_trip plain_key (mkCache 1 [("k", "old")]) _
            ["shipments"; "orders"] ["orders"; "shipments"] "two tables"
            "count orders"); [vm_compute; reflexivity | exact Hp].
Defined.

Lemma cache_bounded_witness :
  (0 < max_size (mkCache 1 [("k", "old")]))%Z
  /\ (Z.of_nat (length (schema_descriptions (mkCache 1 [("k", "old")]))) <= 1)%Z
  /\ exists c',
       cache_schema_description plain_key (mkCache 1 [("k", "old")])
         ["orders"] "one table" "count orders" = Ok c'
       /\ max_size c' = 1%Z
       /\ (Z.of_nat (length (schema_descriptions c')) <= 1)%Z.
Proof.
  split; [reflexivity|]. split; [simpl; lia|].
  apply (cache_bounded plain_key (mkCache 1 [("k", "old")]) ["orders"] "one table"
           "count orders"); [reflexivity | simpl; lia].
Defined.

End CacheFacts.

(** ** The permission manager *)

Module AccessFacts.
Import UserAccess.

Section Manager.

Variable settings : Settings.

(** The permissions of a context that was created without additional
    permissions. *)
Lemma create_user_context_permissions r value rid ctx :
  create_user_context settings r value rid None = Ok ctx ->
  can_query (permissions ctx) = Some true
  /\ ((can_access_all_entities (permissions ctx) = Some true
       /\ accessible_entities (permissions ctx) = None)
      \/ (can_access_all_entities (permissions ctx) = Some false
          /\ exists v, value = Some v /\ v <> ""
                       /\ scoping_value ctx = Some v
                       /\ accessible_entities (permissions ctx) = Some [v])).
Proof.
  unfold create_user_context. cbv zeta.
  destruct (get_role_config _ _) as [role_config|]; [|discriminate].
  unfold _validate_entity_access. cbv zeta.
  destruct (String.eqb _ "single_entity").
  - destruct value as [v|]; [|discriminate].
    destruct (String.eqb v "") eqn:Hv; [discriminate|].
    apply String.eqb_neq in Hv. simpl. intros H. inversion H; subst. simpl.
    split; [reflexivity|]. right. split; [reflexivity|]. exists v. auto.
  - destruct (String.eqb _ "all_entities"); [|discriminate].
    simpl. intros H. inversion H; subst. simpl. auto.
Qed.


End Manager.


End AccessFacts.

(** ** The text of a plan *)

Module PlanTextFacts.
Import PlanText.

Lemma lstrip_by_app (f : ascii -> bool) (a b : list ascii) (c : ascii) :
  f c = false -> Py.lstrip_by f (a ++ c :: b) = Py.lstrip_by f a ++ c :: b.
Proof.
  intros Hc. induction a as [|x a IH]; simpl; [rewrite Hc; reflexivity|].
  destruct (f x); [exact IH | reflexivity].
Qed.

Lemma rstrip_by_app (f : ascii -> bool) (a b : list ascii) (c : ascii) :
  f c = false -> Py.rstrip_by f (a ++ c :: b) = a ++ c :: Py.rstrip_by f b.
Proof.
  intros Hc. unfold Py.rstrip_by.
  rewrite rev_app_distr. simpl. rewrite <- app_assoc. simpl.
  rewrite (lstrip_by_app f _ _ _ Hc), rev_app_distr. simpl.
  rewrite rev_involutive, <- app_assoc. reflexivity.
Qed.

Lemma skipn_length_app {A : Type} (a b : list A) : skipn (length a) (a ++ b) = b.
Proof. induction a as [|x a IH]; simpl; [reflexivity | exact IH]. Qed.

Lemma firstn_length_app {A : Type} (a b : list A) : firstn (length a) (a ++ b) = a.
Proof. induction a as [|x a IH]; simpl; [reflexivity | rewrite IH; reflexivity]. Qed.

Lemma chars_length (s : string) : length (Py.chars s) = String.length s.
Proof. induction s as [|c s IH]; simpl; [reflexivity | rewrite IH; reflexivity]. Qed.

Lemma find_char (c : ascii) (a b : list ascii) :
  ~ In c a ->
  forall i, find_from [c] (a ++ c :: b) i = Some (i + length a)%nat.
Proof.
  induction a as [|x a IH]; intros Hno i; simpl.
  - unfold Py.eqc. rewrite Ascii.eqb_refl. simpl. f_equal. lia.
  - unfold Py.eqc. destruct (Ascii.eqb c x) eqn:Hx.
    + apply Ascii.eqb_eq in Hx. subst. destruct Hno. left. reflexivity.
    + simpl. rewrite IH by (intros H; apply Hno; right; exact H). f_equal. lia.
Qed.

(** The scanner stops right after a closing brace. *)
Lemma scan_end (l : list ascii) :
  forall i stack in_string escape e,
    scan l i stack in_string escape = Some e ->
    exists l1 ch l2,
      l = l1 ++ ch :: l2 /\ is_close_brace ch = true
      /\ e = (i + length l1 + 1)%nat.
Proof.
  induction l as [|ch l IH]; intros i stack in_string escape e H; simpl in H;
    [discriminate|].
  assert (Hrec : forall st a b, scan l (S i) st a b = Some e ->
            exists l1 ch' l2,
              ch :: l = l1 ++ ch' :: l2 /\ is_close_brace ch' = true
              /\ e = (i + length l1 + 1)%nat).
  { intros st a b Hs. apply IH in Hs as (l1 & ch' & l2 & -> & Hc & ->).
    exists (ch :: l1), ch', l2. simpl. repeat split; auto. lia. }
  destruct in_string.
  - destruct escape; [eauto|].
    destruct (is_backslash ch); [eauto|].
    destruct (is_double_quote ch); eauto.
  - destruct (is_double_quote ch); [eauto|].
    destruct (is_open_brace ch); [eauto|].
    destruct (is_close_brace ch) eqn:Hc; [|eauto].
    destruct (stack - 1 =? 0)%Z; [|eauto].
    inversion H; subst. exists [], ch, l. simpl. repeat split; auto. lia.
Qed.

(** What follows the object does not change where the scanner stops. *)
Lemma scan_app (l r : list ascii) :
  forall i stack in_string escape e,
    scan l i stack in_string escape = Some e ->
    scan (l ++ r) i stack in_string escape = Some e.
Proof.
  induction l as [|ch l IH]; intros i stack in_string escape e H; simpl in *;
    [discriminate|].
  destruct in_string.
  - destruct escape; [auto|].
    destruct (is_backslash ch); [auto|].
    destruct (is_double_quote ch); auto.
  - destruct (is_double_quote ch); [auto|].
    destruct (is_open_brace ch); [auto|].
    destruct (is_close_brace ch); [|auto].
    destruct (stack - 1 =? 0)%Z; auto.
Qed.

Lemma scan_shift (k : nat) (l : list ascii) :
  forall i stack in_string escape e,
    scan l i stack in_string escape = Some e ->
    scan l (k + i) stack in_string escape = Some (k + e)%nat.
Proof.
  induction l as [|ch l IH]; intros i stack in_string escape e H; simpl in *;
    [discriminate|].
  assert (Hrec : forall st a b, scan l (S i) st a b = Some e ->
                                scan l (S (k + i)) st a b = Some (k + e)%nat).
  { intros st a b Hs. apply IH in Hs. rewrite <- Nat.add_succ_r. exact Hs. }
  destruct in_string.
  - destruct escape; [auto|].
    destruct (is_backslash ch); [auto|].
    destruct (is_double_quote ch); auto.
  - destruct (is_double_quote ch); [auto|].
    destruct (is_open_brace ch); [auto|].
    destruct (is_close_brace ch); [|auto].
    destruct (stack - 1 =? 0)%Z; [|auto].
    inversion H; subst. f_equal. lia.
Qed.

Lemma close_brace_not_space (ch : ascii) :
  is_close_brace ch = true -> Py.is_space ch = false.
Proof. destruct ch as [[] [] [] [] [] [] [] []]; (reflexivity || discriminate). Qed.

(** A complete object ends in a closing brace. *)
Lemma complete_object_end (obj : string) :
  complete_object obj ->
  exists body ch,
    Py.chars obj = "{"%char :: body ++ [ch] /\ Py.is_space ch = false.
Proof.
  intros [[rest Hrest] Hscan].
  apply scan_end in Hscan as (l1 & ch & l2 & Hl & Hc & He).
  rewrite <- chars_length, Hl, length_app in He. simpl in He.
  assert (l2 = []) by (destruct l2; [reflexivity | simpl in He; lia]). subst l2.
  rewrite Hl in Hrest. destruct l1 as [|x l1]; simpl in Hrest.
  - inversion Hrest; subst. discriminate Hc.
  - inversion Hrest; subst. exists l1, ch. split; [exact Hl|].
    apply close_brace_not_space. exact Hc.
Qed.

Lemma strip_by_around (f : ascii -> bool) (a b body : list ascii) (c last : ascii) :
  f c = false -> f last = false ->
  Py.strip_by f (a ++ (c :: body ++ [last]) ++ b)
  = Py.lstrip_by f a ++ (c :: body ++ [last]) ++ Py.rstrip_by f b.
Proof.
  intros Hc Hlast. unfold Py.strip_by.
  change ((c :: body ++ [last]) ++ b) with (c :: (body ++ [last]) ++ b).
  rewrite (lstrip_by_app f a _ c Hc).
  assert (Hre : forall x y : list ascii,
             x ++ c :: (body ++ [last]) ++ y = (x ++ c :: body) ++ last :: y).
  { intros x y. rewrite <- !app_assoc. reflexivity. }
  rewrite Hre, (rstrip_by_app f _ _ last Hlast), <- Hre. reflexivity.
Qed.

(** X30. Prose around the object is dropped: when the text before a
    complete object holds no brace and no backtick, [_extract_json_object]
    returns the object itself, whatever text follows it. *)
Theorem _extract_json_object_prose (pre obj post : string) :
  ~ In "{"%char (Py.chars pre) ->
  ~ In "`"%char (Py.chars pre) ->
  complete_object obj ->
  _extract_json_object (pre +:+ obj +:+ post) = obj.
Proof.
  intros Hbrace Htick Hobj.
  destruct (complete_object_end obj Hobj) as (body & last & Hchars & Hlast).
  destruct Hobj as [_ Hscan].
  unfold _extract_json_object.
  assert (Htext : Py.chars (pre +:+ obj +:+ post)
                  = Py.chars pre ++ Py.chars obj ++ Py.chars post)
    by (rewrite !IndexExtraFacts.chars_append; reflexivity).
  destruct (String.eqb (pre +:+ obj +:+ post) "") eqn:Hempty.
  { apply String.eqb_eq in Hempty. rewrite Hempty, Hchars in Htext.
    destruct (Py.chars pre); discriminate Htext. }
  cbv zeta. rewrite Htext.
  set (P := Py.lstrip_by Py.is_space (Py.chars pre)).
  set (Q := Py.rstrip_by Py.is_space (Py.chars post)).
  assert (Hs : Py.strip_by Py.is_space (Py.chars pre ++ Py.chars obj ++ Py.chars post)
               = P ++ Py.chars obj ++ Q).
  { rewrite Hchars. apply strip_by_around; [reflexivity | exact Hlast]. }
  rewrite Hs.
  assert (HP : forall c, In c P -> In c (Py.chars pre))
    by (intros c; apply QueryExtraFacts.lstrip_by_In).
  assert (Hfence : Py.starts_with (Py.chars "```") (P ++ Py.chars obj ++ Q) = false).
  { destruct P as [|c P'] eqn:HPe.
    - rewrite Hchars. reflexivity.
    - change (Py.starts_with (Py.chars "```") ((c :: P') ++ Py.chars obj ++ Q))
        with (Py.eqc "`"%char c
              && Py.starts_with (Py.chars "``") (P' ++ Py.chars obj ++ Q)).
      unfold Py.eqc. destruct (Ascii.eqb "`"%char c) eqn:Hc; [|reflexivity].
      apply Ascii.eqb_eq in Hc. subst c. destruct Htick. apply HP. left. reflexivity. }
  rewrite Hfence.
  assert (Hfind : find "{" (P ++ Py.chars obj ++ Q) = Some (length P)).
  { unfold find. rewrite Hchars. simpl app.
    change (Py.chars "{") with ["{"%char].
    rewrite find_char; [reflexivity|]. intros H. apply Hbrace, HP, H. }
  rewrite Hfind, skipn_length_app.
  apply (scan_app _ Q) in Hscan. apply (scan_shift (length P)) in Hscan.
  rewrite Nat.add_0_r in Hscan. rewrite Hscan.
  replace (length P + String.length obj - length P)%nat with (length (Py.chars obj))
    by (rewrite chars_length; lia).
  rewrite firstn_length_app.
  rewrite <- (SchemaQueryFacts.str_chars obj) at 2. f_equal.
  unfold Py.strip_by. rewrite Hchars. simpl.
  change ("{"%char :: body ++ [last]) with (("{"%char :: body) ++ [last]).
  rewrite rstrip_by_app by exact Hlast. reflexivity.
Qed.

Lemma _extract_json_object_prose_witness :
  ~ In "{"%char (Py.chars "Here is the plan: ")
  /\ ~ In "`"%char (Py.chars "Here is the plan: ")
  /\ complete_object ("{" +:+ dq +:+ "k}" +:+ dq +:+ ": {}}")
  /\ _extract_json_object
       ("Here is the plan: " +:+ ("{" +:+ dq +:+ "k}" +:+ dq +:+ ": {}}")
        +:+ " I hope {it} helps.")
     = "{" +:+ dq +:+ "k}" +:+ dq +:+ ": {}}".
Proof.
  assert (H1 : ~ In "{"%char (Py.chars "Here is the plan: "))
    by (apply QueryExtraFacts.not_In_chars; vm_compute; reflexivity).
  assert (H2 : ~ In "`"%char (Py.chars "Here is the plan: "))
    by (apply QueryExtraFacts.not_In_chars; vm_compute; reflexivity).
  assert (H3 : complete_object ("{" +:+ dq +:+ "k}" +:+ dq +:+ ": {}}"))
    by (split; [eexists; vm_compute; reflexivity | vm_compute; reflexivity]).
  repeat (split; [assumption|]).
  exact (_extract_json_object_prose _ _ _ H1 H2 H3).
Defined.

End PlanTextFacts.
